(** * learn-chaincode: account and invoice chaincodes over a key/value ledger

    A shallow embedding of the Go chaincodes of the repository and the
    properties of its specification.

    - [StartChaincode]   : src/start/chaincode_start.go, first program
                           (init_amount, transfer on raw float strings)
    - [TradeChaincode]   : src/start/chaincode_start.go, second program
                           (invoices whose status is a string)
    - [AccountChaincode] : src/account/accounts.go, first program
                           (init_account, transfer_balance on JSON accounts)
    - [InvoiceChaincode] : src/account/accounts.go, second program
                           (invoices whose status is an int)
    - [LearnChaincode]   : src/unnamed/part_000 (init_amount, transfer)

    Go values are modelled as the code has them: strings and byte slices
    as [string] (a sequence of bytes), float64 as the IEEE 754 binary64
    instance of [spec_float], the ledger as a finite map from keys to
    byte values.  The Go library calls of the programs ([strconv],
    [strings], [encoding/json]) are interfaces (type classes); the general
    theorems hold for every implementation of them, and the instances
    [go_strconv], [go_strings] and the [JSON] instances at the end of the
    definitions model the Go library on ASCII text for the concrete runs. *)

From Stdlib Require Import ZArith Ascii String List Lia Bool.
From Stdlib Require Import Floats.SpecFloat.
From stdpp Require Import base option list strings gmap.

Local Open Scope string_scope.

(** ** Go values *)

Definition bytes := string.
Definition error := string.

(** [float64]: binary64, [prec = 53], [emax = 1024]. *)
Definition float64 := spec_float.
Definition prec : Z := 53.
Definition emax : Z := 1024.
Definition fadd : float64 → float64 → float64 := SFadd prec emax.
Definition fsub : float64 → float64 → float64 := SFsub prec emax.
Definition flt : float64 → float64 → bool := SFltb.
Definition fzero : float64 := S754_zero false.

(** The exact value of a finite float64 in units of [2^-1074], the
    spacing of the subnormal numbers; every finite binary64 value is an
    integer number of such units. *)
Definition is_finite (f : float64) : bool :=
  match f with
  | S754_zero _ | S754_finite _ _ _ => true
  | _ => false
  end.


(** String literals of this file cannot hold the double quote character;
    [js] turns every single quote of a literal into a double quote, so
    that [js "{'a': 'b'}"] is the Go literal [`{"a": "b"}`]. *)
Definition dquote : ascii := ascii_of_nat 34.
Definition squote : ascii := ascii_of_nat 39.

Fixpoint js (s : string) : string :=
  match s with
  | EmptyString => EmptyString
  | String c r => String (if Ascii.eqb c squote then dquote else c) (js r)
  end.

(** ** The ledger and the execution monad

    The ledger is the key/value store behind [shim.ChaincodeStubInterface].
    [GetState] of an absent key yields the nil slice and no error;
    [GetState], [PutState] and [DelState] themselves never fail here, so
    the [err != nil] branches that follow them in the sources are dead and
    are left out.  A write is visible to the reads that follow it. *)

Abbreviation store := (gmap string bytes).

Inductive outcome (A : Type) : Type :=
| Done (a : A)            (* the function returned normally *)
| Fail (e : error)        (* return nil, err *)
| Panic (msg : string).   (* run-time panic *)
Arguments Done {A} a.
Arguments Fail {A} e.
Arguments Panic {A} msg.

Definition exec (A : Type) : Type := store → outcome A * store.

Definition ret {A} (a : A) : exec A := λ σ, (Done a, σ).
Definition throw {A} (e : error) : exec A := λ σ, (Fail e, σ).
Definition panic {A} (msg : string) : exec A := λ σ, (Panic msg, σ).
Definition bind {A B} (m : exec A) (k : A → exec B) : exec B :=
  λ σ, match m σ with
       | (Done a, σ') => k a σ'
       | (Fail e, σ') => (Fail e, σ')
       | (Panic msg, σ') => (Panic msg, σ')
       end.

Notation "x <- m ;; k" := (bind m (λ x, k))
  (at level 100, m at next level, right associativity).
Notation "m ;; k" := (bind m (λ _, k))
  (at level 100, right associativity).

Definition GetState (key : string) : exec (option bytes) :=
  λ σ, (Done (σ !! key), σ).
Definition PutState (key : string) (value : bytes) : exec unit :=
  λ σ, (Done tt, <[key := value]> σ).
Definition DelState (key : string) : exec unit :=
  λ σ, (Done tt, delete key σ).

(** A nil slice read as bytes or converted to a string is empty. *)
Definition slice (b : option bytes) : bytes := default "" b.

(** [args[i]], with Go's bounds check. *)
Definition index_panic : string := "runtime error: index out of range".
Definition arg (args : list string) (i : nat) : exec string :=
  match args !! i with
  | Some a => ret a
  | None => panic index_panic
  end.

(** ** Library interfaces *)

(** [strconv]: [ParseFloat s] is [strconv.ParseFloat(s, 64)], the value
    and the error; [FormatFloat f] is
    [strconv.FormatFloat(f, 'E', -1, 64)]. *)
Class Strconv := {
  ParseFloat : string → float64 * option error;
  FormatFloat : float64 → string
}.

(** [strconv.Atoi s], the value and the error, and [strconv.Itoa]. *)
Class StrconvInt := {
  Atoi : string → Z * option error;
  Itoa : Z → string
}.

(** [strings.ToLower]. *)
Class Strings := {
  ToLower : string → string
}.

(** [encoding/json] at a Go type [T]: [json_Unmarshal data v] is
    [json.Unmarshal(data, &v)], the value left in [v] and the error;
    [json_Marshal] is [json.Marshal], which cannot fail on the types of
    these programs (structs of strings and ints, slices of strings), so
    the [err != nil] branches after it are dead. *)
Class JSON (T : Type) := {
  json_Unmarshal : bytes → T → T * option error;
  json_Marshal : T → bytes
}.

(** ** src/account/accounts.go, first program *)
(** The attributes of the transaction certificate of the caller:
    [stub.ReadCertAttribute(name)] yields the value or an error. *)
Class Certificate := {
  ReadCertAttribute : string → option bytes + error
}.

Module AccountChaincode.

Definition accountIndexStr : string := "_accountindex".

Record Account := {
  AccountNo : string;
  LegalEntity : string;
  Currency : string;
  Balance : string
}.

Definition Account_zero : Account :=
  {| AccountNo := ""; LegalEntity := ""; Currency := ""; Balance := "" |}.

Definition set_Balance (a : Account) (b : string) : Account :=
  {| AccountNo := AccountNo a; LegalEntity := LegalEntity a;
     Currency := Currency a; Balance := b |}.

Section Program.
Context `{!Strconv, !Strings, !JSON Account, !JSON (list string)}.

(** The account JSON that [init_account] builds by hand. *)
Definition account_str (accountNo legalEntity currency amountStr : string)
  : string :=
  js "{'accountno': '" +:+ accountNo +:+ js "', 'legalentity': '"
    +:+ legalEntity +:+ js "', 'currency': '" +:+ currency
    +:+ js "', 'balance': '" +:+ amountStr +:+ js "'}".

Definition init_account (args : list string) : exec (option bytes) :=
  if negb (length args =? 4)%nat
  then throw "Incorrect number of arguments. Expecting 4" else
  a0 <- arg args 0 ;;
  if (String.length a0 <=? 0)%nat
  then throw "1st argument must be a non-empty string" else
  a1 <- arg args 1 ;;
  if (String.length a1 <=? 0)%nat
  then throw "2nd argument must be a non-empty string" else
  a2 <- arg args 2 ;;
  if (String.length a2 <=? 0)%nat
  then throw "3rd argument must be a non-empty string" else
  a3 <- arg args 3 ;;
  if (String.length a3 <=? 0)%nat
  then throw "3rd argument must be a non-empty string" else
  let accountNo := a0 in
  let legalEntity := ToLower a1 in
  let currency := a2 in
  match ParseFloat a3 with
  | (_, Some _) => throw "4rd argument must be a numeric string"
  | (ammount, None) =>
    accountAsBytes <- GetState accountNo ;;
    let res := fst (json_Unmarshal (slice accountAsBytes) Account_zero) in
    if String.eqb (AccountNo res) accountNo
    then throw "This account arleady exists" else
    let amountStr := FormatFloat ammount in
    let str := account_str accountNo legalEntity currency amountStr in
    PutState accountNo str ;;
    accountsAsBytes <- GetState accountIndexStr ;;
    let accountIndex :=
      fst (json_Unmarshal (slice accountsAsBytes) ([] : list string)) in
    let accountIndex := (accountIndex ++ [accountNo])%list in
    let jsonAsBytes := json_Marshal accountIndex in
    PutState accountIndexStr jsonAsBytes ;;
    ret None
  end.

Definition transfer_balance (args : list string) : exec (option bytes) :=
  if (length args <? 3)%nat
  then throw "Incorrect number of arguments. Expecting 3" else
  a0 <- arg args 0 ;;
  a1 <- arg args 1 ;;
  a2 <- arg args 2 ;;
  match ParseFloat a2 with
  | (_, Some _) => throw "3rd argument must be a numeric string"
  | (amount, None) =>
    accountAAsBytes <- GetState a0 ;;
    let resA := fst (json_Unmarshal (slice accountAAsBytes) Account_zero) in
    accountBAsBytes <- GetState a1 ;;
    let resB := fst (json_Unmarshal (slice accountBAsBytes) Account_zero) in
    match ParseFloat (Balance resA) with
    | (_, Some err) => throw err
    | (BalanceA, None) =>
      match ParseFloat (Balance resB) with
      | (_, Some err) => throw err
      | (BalanceB, None) =>
        if flt (fsub BalanceA amount) fzero
        then throw (a0 +:+ " doesn't have enough balance to complete transaction")
        else
          let newAmountA := fsub BalanceA amount in
          let newAmountB := fadd BalanceB amount in
          let newAmountStrA := FormatFloat newAmountA in
          let newAmountStrB := FormatFloat newAmountB in
          let resA := set_Balance resA newAmountStrA in
          let resB := set_Balance resB newAmountStrB in
          let jsonAAsBytes := json_Marshal resA in
          PutState a0 jsonAAsBytes ;;
          let jsonBAsBytes := json_Marshal resB in
          PutState a1 jsonBAsBytes ;;
          ret None
      end
    end
  end.

(** The rest of the program.  A Go slice [[]string] that may be nil is an
    [option (list string)]: [Delete] marshals the index after cutting an
    entry out, and what is left of a one-entry index is the empty slice,
    not the nil slice. *)
Context `{!StrconvInt, !JSON (option (list string))}.

Definition Init (function : string) (args : list string)
  : exec (option bytes) :=
  if negb (length args =? 1)%nat
  then throw "Incorrect number of arguments. Expecting 1" else
  a0 <- arg args 0 ;;
  match Atoi a0 with
  | (_, Some _) => throw "Expecting integer value for asset holding"
  | (Aval, None) =>
    PutState "test_key" (Itoa Aval) ;;
    let empty : option (list string) := None in
    let jsonAsBytes := json_Marshal empty in
    PutState accountIndexStr jsonAsBytes ;;
    ret None
  end.

Definition read (args : list string) : exec (option bytes) :=
  if negb (length args =? 1)%nat
  then throw "Incorrect number of arguments. Expecting name of the var to query" else
  name <- arg args 0 ;;
  valAsbytes <- GetState name ;;
  ret valAsbytes.

(** The loop of [Delete] over the index: at the first entry equal to
    [name], at position [i], the index becomes
    [append(accountIndex[:i], accountIndex[i+1:]...)] and the loop
    breaks.  [rest] is what the [range] has still to visit. *)
Fixpoint remove_loop (name : string) (i : nat) (rest accountIndex : list string)
  : list string :=
  match rest with
  | [] => accountIndex
  | val :: rest' =>
    if String.eqb val name
    then (take i accountIndex ++ drop (S i) accountIndex)%list
    else remove_loop name (S i) rest' accountIndex
  end.

Definition Delete (args : list string) : exec (option bytes) :=
  if negb (length args =? 1)%nat
  then throw "Incorrect number of arguments. Expecting 1" else
  name <- arg args 0 ;;
  DelState name ;;
  accountsAsBytes <- GetState accountIndexStr ;;
  let accountIndex : option (list string) :=
    fst (json_Unmarshal (slice accountsAsBytes) None) in
  let accountIndex :=
    match accountIndex with
    | Some l => Some (remove_loop name 0 l l)
    | None => None
    end in
  let jsonAsBytes := json_Marshal accountIndex in
  PutState accountIndexStr jsonAsBytes ;;
  ret None.

Definition Write (args : list string) : exec (option bytes) :=
  if negb (length args =? 2)%nat
  then throw "Incorrect number of arguments. Expecting 2. name of the variable and value to set" else
  name <- arg args 0 ;;
  value <- arg args 1 ;;
  PutState name value ;;
  ret None.

Definition Invoke (function : string) (args : list string)
  : exec (option bytes) :=
  if String.eqb function "init" then Init "init" args
  else if String.eqb function "delete" then Delete args
  else if String.eqb function "write" then Write args
  else if String.eqb function "init_account" then init_account args
  else if String.eqb function "transfer_balance" then transfer_balance args
  else throw "Received unknown function invocation".

Definition Query (function : string) (args : list string)
  : exec (option bytes) :=
  if String.eqb function "read" then read args
  else throw "Received unknown function query".

End Program.
End AccountChaincode.

(** ** src/start/chaincode_start.go, first program

    Balances are stored as raw float strings under the user's name. *)
Module StartChaincode.
Section Program.
Context `{!Strconv}.

Definition init_amount (args : list string) : exec (option bytes) :=
  if negb (length args =? 2)%nat
  then throw "Incorrect number of arguments. Expecting 2" else
  a0 <- arg args 0 ;;
  if (String.length a0 <=? 0)%nat
  then throw "1st argument must be a non-empty string" else
  a1 <- arg args 1 ;;
  if (String.length a1 <=? 0)%nat
  then throw "2nd argument must be a non-empty string" else
  let name := a0 in
  a2 <- arg args 2 ;;
  match ParseFloat a2 with
  | (_, Some _) => throw "2nd argument must be a numeric string"
  | (amount, None) =>
    let amountStr := FormatFloat amount in
    PutState name amountStr ;;
    ret None
  end.

Definition transfer (args : list string) : exec (option bytes) :=
  if (length args <? 3)%nat
  then throw "Incorrect number of arguments. Expecting 3" else
  a0 <- arg args 0 ;;
  a1 <- arg args 1 ;;
  let userA := a0 in
  let userB := a1 in
  a2 <- arg args 2 ;;
  match ParseFloat a2 with
  | (_, Some _) => throw "3rd argument must be a numeric string"
  | (amount, None) =>
    amountByteA <- GetState userA ;;
    amountByteB <- GetState userB ;;
    let amountStrA := slice amountByteA in
    let amountStrB := slice amountByteB in
    match ParseFloat amountStrA with
    | (_, Some err) => throw err
    | (amountA, None) =>
      match ParseFloat amountStrB with
      | (_, Some err) => throw err
      | (amountB, None) =>
        if flt (fsub amountA amount) fzero
        then throw (a0 +:+ " doesn't have enough balance to complete transaction")
        else
          let newAmountA := fsub amountA amount in
          let newAmountB := fadd amountB amount in
          let newAmountStrA := FormatFloat newAmountA in
          let newAmountStrB := FormatFloat newAmountB in
          PutState a0 newAmountStrA ;;
          PutState a0 newAmountStrB ;;
          ret None
      end
    end
  end.

Context `{!StrconvInt}.

Definition Init (function : string) (args : list string)
  : exec (option bytes) :=
  if negb (length args =? 1)%nat
  then throw "Incorrect number of arguments. Expecting 1" else
  a0 <- arg args 0 ;;
  match Atoi a0 with
  | (_, Some _) => throw "Expecting integer value for asset holding"
  | (Aval, None) =>
    PutState "testKey" (Itoa Aval) ;;
    ret None
  end.

Definition Read (args : list string) : exec (option bytes) :=
  if negb (length args =? 1)%nat
  then throw "Incorrect number of arguments. Expecting name of the var to query" else
  name <- arg args 0 ;;
  valAsbytes <- GetState name ;;
  ret valAsbytes.

Definition Delete (args : list string) : exec (option bytes) :=
  if negb (length args =? 1)%nat
  then throw "Incorrect number of arguments. Expecting 1" else
  name <- arg args 0 ;;
  DelState name ;;
  ret None.

Definition Write (args : list string) : exec (option bytes) :=
  if negb (length args =? 2)%nat
  then throw "Incorrect number of arguments. Expecting 2. name of the variable and value to set" else
  name <- arg args 0 ;;
  value <- arg args 1 ;;
  PutState name value ;;
  ret None.

Definition Invoke (function : string) (args : list string)
  : exec (option bytes) :=
  if String.eqb function "init" then Init "init" args
  else if String.eqb function "delete" then Delete args
  else if String.eqb function "write" then Write args
  else if String.eqb function "init_amount" then init_amount args
  else if String.eqb function "transfer" then transfer args
  else throw "Received unknown function invocation".


Definition Query (function : string) (args : list string)
  : exec (option bytes) :=
  if String.eqb function "read" then Read args
  else throw "Received unknown function query".

End Program.
End StartChaincode.

(** ** src/unnamed/part_000 *)
Module LearnChaincode.
Section Program.
Context `{!Strconv}.

Definition init_amount (args : list string) : exec (option bytes) :=
  if negb (length args =? 2)%nat
  then throw "Incorrect number of arguments. Expecting 2" else
  a0 <- arg args 0 ;;
  if (String.length a0 <=? 0)%nat
  then throw "1st argument must be a non-empty string" else
  a1 <- arg args 1 ;;
  if (String.length a1 <=? 0)%nat
  then throw "2nd argument must be a non-empty string" else
  let name := a0 in
  match ParseFloat a1 with
  | (_, Some _) => throw "2nd argument must be a numeric string"
  | (amount, None) =>
    let amountStr := FormatFloat amount in
    PutState name amountStr ;;
    ret None
  end.

Definition transfer (args : list string) : exec (option bytes) :=
  if negb (length args =? 3)%nat
  then throw "Incorrect number of arguments. Expecting 3" else
  a0 <- arg args 0 ;;
  a1 <- arg args 1 ;;
  let userA := a0 in
  let userB := a1 in
  a2 <- arg args 2 ;;
  match ParseFloat a2 with
  | (_, Some _) => throw "3rd argument must be a numeric string"
  | (amount, None) =>
    amountByteA <- GetState userA ;;
    amountByteB <- GetState userB ;;
    let amountStrA := slice amountByteA in
    let amountStrB := slice amountByteB in
    match ParseFloat amountStrA with
    | (_, Some err) => throw err
    | (amountA, None) =>
      match ParseFloat amountStrB with
      | (_, Some err) => throw err
      | (amountB, None) =>
        if flt (fsub amountA amount) fzero
        then throw (a0 +:+ " doesn't have enough balance to complete transaction")
        else
          let newAmountA := fsub amountA amount in
          let newAmountB := fadd amountB amount in
          let newAmountStrA := FormatFloat newAmountA in
          let newAmountStrB := FormatFloat newAmountB in
          PutState a0 newAmountStrA ;;
          PutState a1 newAmountStrB ;;
          ret None
      end
    end
  end.

Definition Init (function : string) (args : list string)
  : exec (option bytes) :=
  if negb (length args =? 1)%nat
  then throw "Incorrect number of arguments. Expecting 1" else
  a0 <- arg args 0 ;;
  PutState "test_key" a0 ;;
  ret None.

Definition write (args : list string) : exec (option bytes) :=
  if negb (length args =? 2)%nat
  then throw "Incorrect number of arguments. Expecting 2. name of the key and value to set" else
  key <- arg args 0 ;;
  value <- arg args 1 ;;
  PutState key value ;;
  ret None.

Definition read (args : list string) : exec (option bytes) :=
  if negb (length args =? 1)%nat
  then throw "Incorrect number of arguments. Expecting name of the key to query" else
  key <- arg args 0 ;;
  valAsbytes <- GetState key ;;
  ret valAsbytes.

(** [Invoke] of part_000 routes [init] and [write] only. *)
Definition Invoke (function : string) (args : list string)
  : exec (option bytes) :=
  if String.eqb function "init" then Init "init" args
  else if String.eqb function "write" then write args
  else throw ("Received unknown function invocation: " +:+ function).

Definition Query (function : string) (args : list string)
  : exec (option bytes) :=
  if String.eqb function "read" then read args
  else throw ("Received unknown function query: " +:+ function).

End Program.
End LearnChaincode.

(** ** src/start/chaincode_start.go, second program

    The struct declares [Status] as a string; [create_invoice] decodes
    it from the JSON text ['status':'0'], [offer_trade] and [accept_trade]
    assign the strings 1 and 2. *)
Module TradeChaincode.

Definition SUPPLIER : string := "supplier".
Definition PAYER : string := "payer".
Definition BUYER : string := "buyer".

Record Invoice := {
  InvoiceId : string;
  Amount : string;
  Currency : string;
  Supplier : string;
  Payer : string;
  DueDate : string;
  Status : string;
  Buyer : string;
  Discount : string
}.

Definition Invoice_zero : Invoice :=
  {| InvoiceId := ""; Amount := ""; Currency := ""; Supplier := "";
     Payer := ""; DueDate := ""; Status := ""; Buyer := "";
     Discount := "" |}.

Definition set_Status (inv : Invoice) (s : string) : Invoice :=
  {| InvoiceId := InvoiceId inv; Amount := Amount inv;
     Currency := Currency inv; Supplier := Supplier inv;
     Payer := Payer inv; DueDate := DueDate inv; Status := s;
     Buyer := Buyer inv; Discount := Discount inv |}.

Definition set_Discount (inv : Invoice) (d : string) : Invoice :=
  {| InvoiceId := InvoiceId inv; Amount := Amount inv;
     Currency := Currency inv; Supplier := Supplier inv;
     Payer := Payer inv; DueDate := DueDate inv; Status := Status inv;
     Buyer := Buyer inv; Discount := d |}.

Definition set_Buyer (inv : Invoice) (b : string) : Invoice :=
  {| InvoiceId := InvoiceId inv; Amount := Amount inv;
     Currency := Currency inv; Supplier := Supplier inv;
     Payer := Payer inv; DueDate := DueDate inv; Status := Status inv;
     Buyer := b; Discount := Discount inv |}.

Record Invoice_Holder := { Invoices : list string }.

Definition Invoice_Holder_zero : Invoice_Holder := {| Invoices := [] |}.

(** The status test of [get_opening_trade_invoices] is written
    [inv.Status == 1] in the source; on the declared string field it is
    read as equality with the status that [offer_trade] assigns. *)
Definition OFFERED : string := "1".
Definition is_OFFERED (inv : Invoice) : bool := String.eqb (Status inv) OFFERED.

Section Program.
Context `{!JSON Invoice, !JSON Invoice_Holder}.

Definition add_particants (name role : string) : exec (option bytes) :=
  PutState name role ;;
  ret None.

(** The loop of [Init]: [for i:=0; i < len(args); i=i+2]. *)
Fixpoint add_all (args : list string) : exec unit :=
  match args with
  | [] => ret tt
  | name :: rest =>
    match rest with
    | [] => panic index_panic
    | role :: rest' => add_particants name role ;; add_all rest'
    end
  end.

Definition Init (function : string) (args : list string)
  : exec (option bytes) :=
  let invoiceIDs := Invoice_Holder_zero in
  let bytes := json_Marshal invoiceIDs in
  PutState "invoiceIDs" bytes ;;
  add_all args ;;
  ret None.

Definition get_role (name : string) : exec string :=
  role <- GetState name ;;
  ret (slice role).

(** [retrieve_invoice] returns the invoice decoded so far together
    with its error; [offer_trade] and [accept_trade] drop the error. *)
Definition retrieve_invoice (invoiceId : string)
  : exec (Invoice * option error) :=
  bytes <- GetState invoiceId ;;
  match json_Unmarshal (slice bytes) Invoice_zero with
  | (inv, Some _) =>
    ret (inv, Some ("RETRIEVE_INVOICE: Corrupt invoice record" +:+ slice bytes))
  | (inv, None) => ret (inv, None)
  end.

Definition save_changes (inv : Invoice) : exec bool :=
  let bytes := json_Marshal inv in
  PutState (InvoiceId inv) bytes ;;
  ret true.

Definition invoice_json (a0 a1 a2 a3 : string) : string :=
  let invId := js "'invoiceid':'" +:+ a0 +:+ js "', " in
  let amount := js "'amount':'" +:+ a1 +:+ js "', " in
  let currency := js "'currency':'USD', " in
  let supplier := js "'supplier':'" +:+ a2 +:+ js "', " in
  let payer := js "'payer':'" +:+ a3 +:+ js "', " in
  let duedate := js "'duedate':'UNDEFINED', " in
  let status := js "'status':'0', " in
  let buyer := js "'buyer':'UNDEFINED', " in
  let discount := js "'discount':'UNDEFINED', " in
  "{" +:+ invId +:+ amount +:+ currency +:+ supplier +:+ payer +:+ duedate
      +:+ status +:+ buyer +:+ discount +:+ "}".

Definition create_invoice (args : list string) : exec (option bytes) :=
  a0 <- arg args 0 ;;
  a1 <- arg args 1 ;;
  a2 <- arg args 2 ;;
  a3 <- arg args 3 ;;
  let invoiceId := a0 in
  match json_Unmarshal (invoice_json a0 a1 a2 a3) Invoice_zero with
  | (_, Some _) => throw "Invalid JSON object"
  | (inv, None) =>
    record <- GetState (InvoiceId inv) ;;
    if bool_decide (record ≠ None) then throw "Invoice already exists" else
    role <- get_role a2 ;;
    if negb (String.eqb role SUPPLIER)
    then throw ("Permission Denied. create_invoice. " +:+ role +:+ " !== " +:+ SUPPLIER)
    else
    role2 <- get_role a3 ;;
    if negb (String.eqb role2 PAYER)
    then throw ("Permission Denied. create_invoice. " +:+ role2 +:+ " !== " +:+ PAYER)
    else
    save_changes inv ;;
    bytes <- GetState "invoiceIDs" ;;
    match json_Unmarshal (slice bytes) Invoice_Holder_zero with
    | (_, Some _) => throw "Corrupt Invoice_Holder record"
    | (invoiceIDs, None) =>
      let invoiceIDs :=
        {| Invoices := (Invoices invoiceIDs ++ [invoiceId])%list |} in
      let bytes := json_Marshal invoiceIDs in
      PutState "invoiceIDs" bytes ;;
      ret None
    end
  end.

Definition offer_trade (args : list string) : exec (option bytes) :=
  invoiceId <- arg args 0 ;;
  caller <- arg args 2 ;;
  r <- retrieve_invoice invoiceId ;;
  let inv := fst r in
  if negb (String.eqb caller (Supplier inv))
  then throw ("Permission Denied. offer_trade. " +:+ caller +:+ " !== " +:+ Supplier inv)
  else
  let inv := set_Status inv "1" in
  a1 <- arg args 1 ;;
  let inv := set_Discount inv a1 in
  save_changes inv ;;
  ret None.

Definition accept_trade (args : list string) : exec (option bytes) :=
  invoiceId <- arg args 0 ;;
  caller <- arg args 1 ;;
  r <- retrieve_invoice invoiceId ;;
  let inv := fst r in
  role <- get_role caller ;;
  if negb (String.eqb role BUYER)
  then throw ("Permission Denied. offer_trade. " +:+ role +:+ " !== " +:+ BUYER)
  else
  let inv := set_Buyer inv caller in
  let inv := set_Status inv "2" in
  save_changes inv ;;
  ret None.

Definition get_invoice_details (inv : Invoice) (caller : string)
  : outcome (option bytes) :=
  let bytes := json_Marshal inv in
  if String.eqb (Supplier inv) caller
     || String.eqb (Buyer inv) caller
     || String.eqb (Payer inv) caller
  then Done (Some bytes)
  else Fail "Permission Denied. get_invoice_details".

(** [result[:len(result)-1]]. *)
Definition drop_last (s : string) : string :=
  substring 0 (String.length s - 1) s.

Definition close_result (result : string) : string :=
  if (String.length result =? 1)%nat then "[]"
  else drop_last result +:+ "]".

(** The loop of [get_invoices] over [invoiceIDs.Invoices]. *)
Fixpoint get_invoices_loop (caller : string) (ids : list string)
    (result : string) : exec string :=
  match ids with
  | [] => ret result
  | invoiceId :: ids' =>
    r <- retrieve_invoice invoiceId ;;
    match r with
    | (_, Some _) => throw "Failed to retrieve Invoice"
    | (inv, None) =>
      match get_invoice_details inv caller with
      | Done temp => get_invoices_loop caller ids' (result +:+ slice temp +:+ ",")
      | _ => get_invoices_loop caller ids' result
      end
    end
  end.

Definition get_invoices (args : list string) : exec (option bytes) :=
  bytes <- GetState "invoiceIDs" ;;
  caller <- arg args 0 ;;
  match json_Unmarshal (slice bytes) Invoice_Holder_zero with
  | (_, Some _) => throw "Corrupt Invoice_Holder"
  | (invoiceIDs, None) =>
    result <- get_invoices_loop caller (Invoices invoiceIDs) "[" ;;
    ret (Some (close_result result))
  end.

(** The loop of [get_opening_trade_invoices]. *)
Fixpoint opening_loop (ids : list string) (result : string) : exec string :=
  match ids with
  | [] => ret result
  | invoiceId :: ids' =>
    r <- retrieve_invoice invoiceId ;;
    match r with
    | (_, Some _) => throw "Failed to retrieve Invoice"
    | (inv, None) =>
      if is_OFFERED inv
      then let bytes := json_Marshal inv in
           opening_loop ids' (result +:+ bytes +:+ ",")
      else opening_loop ids' result
    end
  end.

Definition get_opening_trade_invoices (args : list string)
  : exec (option bytes) :=
  bytes <- GetState "invoiceIDs" ;;
  match json_Unmarshal (slice bytes) Invoice_Holder_zero with
  | (_, Some _) => throw "Corrupt Invoice_Holder"
  | (invoiceIDs, None) =>
    result <- opening_loop (Invoices invoiceIDs) "[" ;;
    ret (Some (close_result result))
  end.

(** The routers.  The [return nil, errors.New(...)] that closes each of
    them follows an [if] whose branches all return, and is never reached. *)
Context `{!Certificate}.

Definition ping : exec (option bytes) :=
  ret (Some "Hello, world!").

Definition read (args : list string) : exec (option bytes) :=
  if negb (length args =? 1)%nat
  then throw "Incorrect number of arguments. Expecting name of the var to query" else
  name <- arg args 0 ;;
  valAsbytes <- GetState name ;;
  ret valAsbytes.

Definition Invoke (function : string) (args : list string)
  : exec (option bytes) :=
  if String.eqb function "create_invoice" then create_invoice args
  else if String.eqb function "offer_trade" then offer_trade args
  else if String.eqb function "accept_trade" then accept_trade args
  else ping.

Definition Query (function : string) (args : list string)
  : exec (option bytes) :=
  if String.eqb function "get_invoice_details"
  then
    if negb (length args =? 2)%nat
    then throw "QUERY: Incorrect number of arguments passed" else
    a0 <- arg args 0 ;;
    r <- retrieve_invoice a0 ;;
    match r with
    | (_, Some err) => throw ("QUERY: Error retrieving invoice " +:+ err)
    | (inv, None) =>
      a1 <- arg args 1 ;;
      λ σ, (get_invoice_details inv a1, σ)
    end
  else if String.eqb function "get_invoices" then get_invoices args
  else if String.eqb function "get_opening_trade_invoices"
  then get_opening_trade_invoices args
  else if String.eqb function "read" then read args
  else if String.eqb function "get_username"
  then match ReadCertAttribute "username" with
       | inl value => ret value
       | inr err => throw err
       end
  else ping.

End Program.
End TradeChaincode.

(** ** src/account/accounts.go, second program

    The earlier invoice chaincode: [Status] is an int, the caller comes
    from the certificate, and [get_invoice_details] admits the supplier
    and the buyer only. *)
Module InvoiceChaincode.

Record Invoice := {
  InvoiceId : string;
  Amount : string;
  Currency : string;
  Supplier : string;
  Payer : string;
  DueDate : string;
  Status : Z;
  Buyer : string;
  Discount : string
}.

Definition Invoice_zero : Invoice :=
  {| InvoiceId := ""; Amount := ""; Currency := ""; Supplier := "";
     Payer := ""; DueDate := ""; Status := 0; Buyer := "";
     Discount := "" |}.

Section Program.
Context `{!JSON Invoice}.

Definition retrieve_invoice (invoiceId : string)
  : exec (Invoice * option error) :=
  bytes <- GetState invoiceId ;;
  match json_Unmarshal (slice bytes) Invoice_zero with
  | (inv, Some _) =>
    ret (inv, Some ("RETRIEVE_INVOICE: Corrupt invoice record" +:+ slice bytes))
  | (inv, None) => ret (inv, None)
  end.

Definition get_invoice_details (inv : Invoice)
    (caller caller_affiliation : string) : outcome (option bytes) :=
  let bytes := json_Marshal inv in
  if String.eqb (Supplier inv) caller
     || String.eqb (Buyer inv) caller
  then Done (Some bytes)
  else Fail "Permission Denied. get_invoice_details".

End Program.

Definition SUPPLIER : string := "supplier".
Definition PAYER : string := "payer".
Definition BUYER : string := "buyer".

Record Invoice_Holder := { Invoices : list string }.

Definition Invoice_Holder_zero : Invoice_Holder := {| Invoices := [] |}.

(** A Go result [([]byte, error)] of which both parts may be set, as
    [check_unique_invoice] returns it. *)
Definition result : Type := (option bytes * option error)%type.

Definition returned (m : exec (option bytes)) : exec result :=
  λ σ, match m σ with
       | (Done b, σ') => (Done (b, None), σ')
       | (Fail e, σ') => (Done (None, Some e), σ')
       | (Panic msg, σ') => (Panic msg, σ')
       end.

Section Router.
Context `{!JSON Invoice, !JSON Invoice_Holder, !Certificate}.

Definition add_particants (name role : string) : exec (option bytes) :=
  PutState name role ;;
  ret None.

Fixpoint add_all (args : list string) : exec unit :=
  match args with
  | [] => ret tt
  | name :: rest =>
    match rest with
    | [] => panic index_panic
    | role :: rest' => add_particants name role ;; add_all rest'
    end
  end.

Definition Init (function : string) (args : list string)
  : exec (option bytes) :=
  let invoiceIDs := Invoice_Holder_zero in
  let bytes := json_Marshal invoiceIDs in
  PutState "invoiceIDs" bytes ;;
  add_all args ;;
  ret None.

Definition get_role (name : string) : exec (option bytes) :=
  role <- GetState name ;;
  ret role.

(** [get_username]: the name and the error. *)
Definition get_username : string * option error :=
  match ReadCertAttribute "username" with
  | inr err => ("", Some ("Couldn't get attribute 'username'. Error: " +:+ err))
  | inl username => (slice username, None)
  end.

(** [get_caller_data] assigns the error of [get_role] over the error of
    [get_username]; [get_role] has none to report. *)
Definition get_caller_data : exec (string * string) :=
  let '(user, _) := get_username in
  role <- get_role user ;;
  ret (user, slice role).

Definition save_changes (inv : Invoice) : exec bool :=
  let bytes := json_Marshal inv in
  PutState (InvoiceId inv) bytes ;;
  ret true.

Definition ping : exec (option bytes) :=
  ret (Some "Hello, world!").

Definition read (args : list string) : exec (option bytes) :=
  if negb (length args =? 1)%nat
  then throw "Incorrect number of arguments. Expecting name of the var to query" else
  name <- arg args 0 ;;
  valAsbytes <- GetState name ;;
  ret valAsbytes.

Definition invoice_json (a0 a1 caller : string) : string :=
  let invId := js "'invoiceid':'" +:+ a0 +:+ js "', " in
  let amount := js "'amount':'" +:+ a1 +:+ js "', " in
  let currency := js "'currency':'USD', " in
  let supplier := js "'supplier':'" +:+ caller +:+ js "', " in
  let payer := js "'payer':'UNDEFINED', " in
  let status := js "'status':'0', " in
  let buyer := js "'buyer':'UNDEFINED', " in
  let discount := js "'discount':'UNDEFINED', " in
  "{" +:+ invId +:+ amount +:+ currency +:+ supplier +:+ payer
      +:+ status +:+ buyer +:+ discount +:+ "}".

Definition create_invoice (caller role : string) (args : list string)
  : exec (option bytes) :=
  a0 <- arg args 0 ;;
  a1 <- arg args 1 ;;
  let invoiceId := a0 in
  match json_Unmarshal (invoice_json a0 a1 caller) Invoice_zero with
  | (_, Some _) => throw "Invalid JSON object"
  | (inv, None) =>
    record <- GetState (InvoiceId inv) ;;
    if bool_decide (record ≠ None) then throw "Invoice already exists" else
    if negb (String.eqb role SUPPLIER)
    then throw ("Permission Denied. create_invoice. " +:+ role +:+ " === " +:+ SUPPLIER)
    else
    save_changes inv ;;
    bytes <- GetState "invoiceIDs" ;;
    match json_Unmarshal (slice bytes) Invoice_Holder_zero with
    | (_, Some _) => throw "Corrupt Invoice_Holder record"
    | (invoiceIDs, None) =>
      let invoiceIDs :=
        {| Invoices := (Invoices invoiceIDs ++ [invoiceId])%list |} in
      let bytes := json_Marshal invoiceIDs in
      PutState "invoiceIDs" bytes ;;
      ret None
    end
  end.

(** The loop of [get_invoices] over [invoiceIDs.Invoices]. *)
Fixpoint get_invoices_loop (caller role : string) (ids : list string)
    (result : string) : exec string :=
  match ids with
  | [] => ret result
  | invoiceId :: ids' =>
    r <- retrieve_invoice invoiceId ;;
    match r with
    | (_, Some _) => throw "Failed to retrieve Invoice"
    | (inv, None) =>
      match get_invoice_details inv caller role with
      | Done temp => get_invoices_loop caller role ids' (result +:+ slice temp +:+ ",")
      | _ => get_invoices_loop caller role ids' result
      end
    end
  end.

Definition get_invoices (caller role : string) : exec (option bytes) :=
  bytes <- GetState "invoiceIDs" ;;
  match json_Unmarshal (slice bytes) Invoice_Holder_zero with
  | (_, Some _) => throw "Corrupt Invoice_Holder"
  | (invoiceIDs, None) =>
    result <- get_invoices_loop caller role (Invoices invoiceIDs) "[" ;;
    ret (Some (TradeChaincode.close_result result))
  end.

Definition check_unique_invoice (invoiceId caller caller_affiliation : string)
  : exec result :=
  r <- retrieve_invoice invoiceId ;;
  match r with
  | (_, None) => ret (Some "false", Some "invoice is not unique")
  | (_, Some _) => ret (Some "true", None)
  end.

Definition Invoke (function : string) (args : list string)
  : exec (option bytes) :=
  cr <- get_caller_data ;;
  let '(caller, role) := cr in
  if String.eqb function "create_invoice" then create_invoice caller role args
  else ping.

Definition Query (function : string) (args : list string) : exec result :=
  cr <- get_caller_data ;;
  let '(caller, role) := cr in
  if String.eqb function "get_invoice_details"
  then
    if negb (length args =? 1)%nat
    then returned (throw "QUERY: Incorrect number of arguments passed") else
    a0 <- arg args 0 ;;
    r <- retrieve_invoice a0 ;;
    match r with
    | (_, Some err) => returned (throw ("QUERY: Error retrieving invoice " +:+ err))
    | (inv, None) => returned (λ σ, (get_invoice_details inv caller role, σ))
    end
  else if String.eqb function "check_unique_invoice"
  then a0 <- arg args 0 ;;
       check_unique_invoice a0 caller role
  else if String.eqb function "get_invoices"
  then returned (get_invoices caller role)
  else if String.eqb function "read" then returned (read args)
  else if String.eqb function "get_username"
  then a0 <- arg args 0 ;;
       match ReadCertAttribute a0 with
       | inl value => ret (value, None)
       | inr err => ret (None, Some err)
       end
  else returned ping.

End Router.
End InvoiceChaincode.

(** ** A model of the Go library: strconv

    [strconv.ParseFloat(s, 64)] on the decimal and special forms (the
    hexadecimal and underscore forms of later Go releases are read as
    syntax errors), correctly rounded to nearest even, and
    [strconv.FormatFloat(f, 'E', -1, 64)], the shortest digits that read
    back as [f]. *)
Module GoStrconv.

Definition code (c : ascii) : Z := Z.of_N (N_of_ascii c).
Definition chr (n : Z) : ascii := ascii_of_N (Z.to_N n).
Definition str1 (n : Z) : string := String (chr n) EmptyString.

Definition is_digit (c : ascii) : bool := (48 <=? code c)%Z && (code c <=? 57)%Z.
Definition lower_ascii (c : ascii) : ascii :=
  if (65 <=? code c)%Z && (code c <=? 90)%Z then chr (code c + 32) else c.

Fixpoint lower (s : string) : string :=
  match s with
  | EmptyString => EmptyString
  | String c r => String (lower_ascii c) (lower r)
  end.

(** The decimal value [m * 10^k] rounded to binary64. *)
Definition round_decimal (neg : bool) (m k : Z) : float64 :=
  match m with
  | Z.pos p =>
    if (0 <=? k)%Z
    then binary_round prec emax neg (p * Z.to_pos (10 ^ k)) 0
    else
      let '(q, e, l) := SFdiv_core_binary prec emax (Z.pos p) 0 (10 ^ (- k)) 0 in
      binary_round_aux prec emax neg q e l
  | _ => S754_zero neg
  end.

(** [readFloat]: the digits of the mantissa with the position of the
    point, then the optional exponent. *)
Record scan := {
  sc_mant : Z;        (* the digits read so far, as a number *)
  sc_frac : Z;        (* how many of them follow the point *)
  sc_sawdot : bool;
  sc_sawdigits : bool
}.

Fixpoint read_mantissa (s : string) (st : scan) : scan * string :=
  match s with
  | EmptyString => (st, s)
  | String c r =>
    if Ascii.eqb c "."
    then if sc_sawdot st then (st, s)
         else read_mantissa r
                {| sc_mant := sc_mant st; sc_frac := sc_frac st;
                   sc_sawdot := true; sc_sawdigits := sc_sawdigits st |}
    else if is_digit c
    then read_mantissa r
           {| sc_mant := (10 * sc_mant st + (code c - 48))%Z;
              sc_frac := if sc_sawdot st then (sc_frac st + 1)%Z else sc_frac st;
              sc_sawdot := sc_sawdot st; sc_sawdigits := true |}
    else (st, s)
  end.

(** The exponent digits; as in Go the value stops growing at 10000. *)
Fixpoint read_exp_digits (s : string) (e : Z) : Z * string :=
  match s with
  | EmptyString => (e, s)
  | String c r =>
    if is_digit c
    then read_exp_digits r (if (e <? 10000)%Z then (e * 10 + (code c - 48))%Z else e)
    else (e, s)
  end.

Definition read_exponent (s : string) : option (Z * string) :=
  match s with
  | String c r =>
    if Ascii.eqb (lower_ascii c) "e"
    then
      let '(esign, r1) :=
        match r with
        | String "+" r' => (1%Z, r')
        | String "-" r' => ((-1)%Z, r')
        | _ => (1%Z, r)
        end in
      match r1 with
      | String d _ =>
        if is_digit d
        then let '(e, r2) := read_exp_digits r1 0 in Some ((e * esign)%Z, r2)
        else None
      | EmptyString => None
      end
    else Some (0%Z, s)
  | EmptyString => Some (0%Z, s)
  end.

Definition readFloat (s : string) : option (bool * Z * Z) :=
  match s with
  | EmptyString => None
  | String c r =>
    let '(neg, body) :=
      if Ascii.eqb c "+" then (false, r)
      else if Ascii.eqb c "-" then (true, r)
      else (false, s) in
    let '(st, rest) :=
      read_mantissa body
        {| sc_mant := 0; sc_frac := 0; sc_sawdot := false; sc_sawdigits := false |} in
    if sc_sawdigits st
    then match read_exponent rest with
         | Some (e, EmptyString) => Some (neg, sc_mant st, (e - sc_frac st)%Z)
         | _ => None
         end
    else None
  end.

(** [special]: the infinities and NaN, in any letter case. *)
Definition special (s : string) : option float64 :=
  let l := lower s in
  if String.eqb l "inf" || String.eqb l "infinity"
     || String.eqb l "+inf" || String.eqb l "+infinity"
  then Some (S754_infinity false)
  else if String.eqb l "-inf" || String.eqb l "-infinity"
  then Some (S754_infinity true)
  else if String.eqb l "nan" then Some S754_nan
  else None.

(** [strconv.Quote] on printable ASCII. *)
Fixpoint quote_body (s : string) : string :=
  match s with
  | EmptyString => EmptyString
  | String c r =>
    if Ascii.eqb c dquote || Ascii.eqb c "\"
    then String "\" (String c (quote_body r))
    else String c (quote_body r)
  end.
Definition Quote (s : string) : string :=
  String dquote (quote_body s +:+ String dquote EmptyString).

Definition syntax_error (s : string) : error :=
  "strconv.ParseFloat: parsing " +:+ Quote s +:+ ": invalid syntax".
Definition range_error (s : string) : error :=
  "strconv.ParseFloat: parsing " +:+ Quote s +:+ ": value out of range".

Definition ParseFloat (s : string) : float64 * option error :=
  match special s with
  | Some f => (f, None)
  | None =>
    match readFloat s with
    | None => (fzero, Some (syntax_error s))
    | Some (neg, m, k) =>
      match round_decimal neg m k with
      | S754_infinity sg => (S754_infinity sg, Some (range_error s))
      | f => (f, None)
      end
    end
  end.

(** *** FormatFloat, shortest form

    For [x = m * 2^e] the digits are the shortest decimal that lies
    between the midpoints to the neighbouring floats ([roundShortest]):
    at each decimal position, from the highest, the value cut at that
    position ([down]) or its successor ([up]) is taken as soon as one of
    them lies within the bounds, the nearer one if both do. *)

Fixpoint digits_of_pos_fuel (fuel : nat) (n : Z) (acc : string) : string :=
  match fuel with
  | O => acc
  | S f =>
    if (n <? 10)%Z then String (chr (48 + n)) acc
    else digits_of_pos_fuel f (n / 10) (String (chr (48 + n mod 10)) acc)
  end.

(** The decimal digits of [n >= 0]. *)
Definition Itoa_nat (n : Z) : string :=
  digits_of_pos_fuel (S (Z.to_nat (Z.log2 n))) n EmptyString.

Fixpoint strip_zeros_fuel (fuel : nat) (n : Z) : Z :=
  match fuel with
  | O => n
  | S f => if (0 <? n)%Z && (n mod 10 =? 0)%Z then strip_zeros_fuel f (n / 10) else n
  end.

(** The search of [roundShortest].  All of [x], [lo], [hi] are
    numerators over the common denominator [den]; [j] is the decimal
    position tried. It yields the digits as a number and the position
    of its last digit. *)
Fixpoint shortest_loop (fuel : nat) (x lo hi den : Z) (inclusive : bool) (j : Z)
  : Z * Z :=
  match fuel with
  | O => (0, 0)%Z
  | S f =>
    let up10 := (10 ^ Z.max 0 (- j))%Z in
    let dn10 := (10 ^ Z.max 0 j)%Z in
    let x' := (x * up10)%Z in
    let lo' := (lo * up10)%Z in
    let hi' := (hi * up10)%Z in
    let den' := (den * dn10)%Z in
    let q := (x' / den')%Z in
    let down := (q * den')%Z in
    let up := ((q + 1) * den')%Z in
    let okdown := (lo' <? down)%Z || (inclusive && (lo' =? down)%Z) in
    let okup := (up <? hi')%Z || (inclusive && (up =? hi')%Z) in
    let r := (x' - down)%Z in
    let round_up :=
      match (2 * r ?= den')%Z with
      | Gt => true
      | Lt => false
      | Eq => Z.odd q
      end in
    if okdown && okup then (if round_up then (q + 1, j) else (q, j))%Z
    else if okdown then (q, j)
    else if okup then ((q + 1)%Z, j)
    else shortest_loop f x lo hi den inclusive (j - 1)
  end.

Definition shortest (m : positive) (e : Z) : Z * Z :=
  let p := (2 ^ Z.max 0 (e - 2))%Z in
  let den := (2 ^ Z.max 0 (2 - e))%Z in
  let x := (4 * Z.pos m * p)%Z in
  let lo :=
    (if (Z.pos m =? 2 ^ 52)%Z && (-1074 <? e)%Z
     then (4 * Z.pos m - 1) * p else (4 * Z.pos m - 2) * p)%Z in
  let hi := ((4 * Z.pos m + 2) * p)%Z in
  let bits := (Z.log2 hi + 1 - Z.log2 den)%Z in
  let j := (bits * 30103 / 100000 + 1)%Z in
  let '(d, j') := shortest_loop 40 x lo hi den (Z.even (Z.pos m)) j in
  let d' := strip_zeros_fuel 400 d in
  (d', (j' + (Z.of_nat (String.length (Itoa_nat d)) - Z.of_nat (String.length (Itoa_nat d'))))%Z).

(** [%e] layout: one digit, the others after a point, the exponent
    with its sign and at least two digits. *)
Definition fmtE (neg : bool) (digs : string) (exp : Z) : string :=
  let sign := if neg then "-" else "" in
  let mant :=
    match digs with
    | EmptyString => "0"
    | String d EmptyString => String d EmptyString
    | String d r => String d (String "." r)
    end in
  let esign := if (exp <? 0)%Z then "-" else "+" in
  let ea := Z.abs exp in
  let edigs := if (ea <? 10)%Z then "0" +:+ Itoa_nat ea else Itoa_nat ea in
  sign +:+ mant +:+ "E" +:+ esign +:+ edigs.

Definition FormatFloat (f : float64) : string :=
  match f with
  | S754_nan => "NaN"
  | S754_infinity false => "+Inf"
  | S754_infinity true => "-Inf"
  | S754_zero s => fmtE s "" 0
  | S754_finite s m e =>
    let '(d, j) := shortest m e in
    let digs := Itoa_nat d in
    fmtE s digs (j + Z.of_nat (String.length digs) - 1)
  end.

End GoStrconv.

#[export] Instance go_strconv : Strconv :=
  {| ParseFloat := GoStrconv.ParseFloat; FormatFloat := GoStrconv.FormatFloat |}.

#[export] Instance go_strings : Strings :=
  {| ToLower := GoStrconv.lower |}.

(** ** A model of the Go library: encoding/json

    The text is first parsed as a whole, as [checkValid] does: a syntax
    error (a trailing comma, text after the value, a control character in
    a string, the empty input) leaves the destination untouched.  The
    value is then stored field by field: keys match field names without
    regard to letter case, unknown keys are skipped, a repeated key is
    stored again, [null] leaves a field as it is, and a value of the wrong
    kind is skipped and reported after the other fields are stored.
    Bytes above 127 pass through unchanged.  The error texts are summaries:
    none of the programs reads them. *)
Module GoJSON.
Import GoStrconv.

#[local] Unset Elimination Schemes.
Inductive json : Type :=
| JNull
| JBool (b : bool)
| JNum (lit : string)
| JStr (s : string)
| JArr (l : list json)
| JObj (l : list (string * json)).
#[local] Set Elimination Schemes.

Definition is_space (c : ascii) : bool :=
  (code c =? 32)%Z || (code c =? 9)%Z || (code c =? 13)%Z || (code c =? 10)%Z.

Fixpoint skip_space (s : string) : string :=
  match s with
  | String c r => if is_space c then skip_space r else s
  | EmptyString => s
  end.

Definition hex_val (c : ascii) : option Z :=
  let n := code c in
  if (48 <=? n)%Z && (n <=? 57)%Z then Some (n - 48)%Z
  else if (97 <=? n)%Z && (n <=? 102)%Z then Some (n - 87)%Z
  else if (65 <=? n)%Z && (n <=? 70)%Z then Some (n - 55)%Z
  else None.

(** [getu4]: the four hex digits after a backslash and the letter u. *)
Definition read_hex4 (s : string) : option (Z * string) :=
  match s with
  | String a (String b (String c (String d r))) =>
    match hex_val a, hex_val b, hex_val c, hex_val d with
    | Some x, Some y, Some z, Some w => Some ((((x * 16 + y) * 16 + z) * 16 + w)%Z, r)
    | _, _, _, _ => None
    end
  | _ => None
  end.

(** [utf8.EncodeRune]. *)
Definition utf8 (r : Z) : string :=
  if (r <? 128)%Z then str1 r
  else if (r <? 2048)%Z
  then str1 (192 + r / 64) +:+ str1 (128 + r mod 64)
  else if (r <? 65536)%Z
  then str1 (224 + r / 4096) +:+ str1 (128 + (r / 64) mod 64) +:+ str1 (128 + r mod 64)
  else str1 (240 + r / 262144) +:+ str1 (128 + (r / 4096) mod 64)
         +:+ str1 (128 + (r / 64) mod 64) +:+ str1 (128 + r mod 64).

Definition is_surrogate (r : Z) : bool := (55296 <=? r)%Z && (r <? 57344)%Z.
Definition replacement : Z := 65533.

(** [utf16.DecodeRune]. *)
Definition decode_pair (r1 r2 : Z) : Z :=
  if (55296 <=? r1)%Z && (r1 <? 56320)%Z && (56320 <=? r2)%Z && (r2 <? 57344)%Z
  then ((r1 - 55296) * 1024 + (r2 - 56320) + 65536)%Z
  else replacement.

Definition simple_escape (c : ascii) : option ascii :=
  if Ascii.eqb c dquote then Some dquote
  else if Ascii.eqb c "\" then Some "\"%char
  else if Ascii.eqb c "/" then Some "/"%char
  else if Ascii.eqb c "b" then Some (chr 8)
  else if Ascii.eqb c "f" then Some (chr 12)
  else if Ascii.eqb c "n" then Some (chr 10)
  else if Ascii.eqb c "r" then Some (chr 13)
  else if Ascii.eqb c "t" then Some (chr 9)
  else None.

Definition prepend (p : string) (r : option (string * string))
  : option (string * string) :=
  match r with
  | Some (s, rest) => Some (p +:+ s, rest)
  | None => None
  end.

(** The body of a string literal after its opening quote: the unquoted
    text and what follows the closing quote. *)
Fixpoint scan_string (fuel : nat) (s : string) : option (string * string) :=
  match fuel with
  | O => None
  | S f =>
    match s with
    | EmptyString => None
    | String c r =>
      if Ascii.eqb c dquote then Some (EmptyString, r)
      else if Ascii.eqb c "\"
      then match r with
           | EmptyString => None
           | String e r' =>
             if Ascii.eqb e "u"
             then match read_hex4 r' with
                  | None => None
                  | Some (rr, r'') =>
                    if is_surrogate rr
                    then
                      match r'' with
                      | String "\" (String "u" r3) =>
                        match read_hex4 r3 with
                        | Some (rr1, r4) =>
                          if (decode_pair rr rr1 =? replacement)%Z
                          then prepend (utf8 replacement) (scan_string f r'')
                          else prepend (utf8 (decode_pair rr rr1)) (scan_string f r4)
                        | None => prepend (utf8 replacement) (scan_string f r'')
                        end
                      | _ => prepend (utf8 replacement) (scan_string f r'')
                      end
                    else prepend (utf8 rr) (scan_string f r'')
                  end
             else match simple_escape e with
                  | Some ch => prepend (String ch EmptyString) (scan_string f r')
                  | None => None
                  end
           end
      else if (code c <? 32)%Z then None
      else prepend (String c EmptyString) (scan_string f r)
    end
  end.

Fixpoint take_digits (s : string) : string * string :=
  match s with
  | String c r =>
    if is_digit c
    then let '(d, rest) := take_digits r in (String c d, rest)
    else (EmptyString, s)
  | EmptyString => (EmptyString, s)
  end.

(** A number literal: its text and what follows it. *)
Definition scan_number (s : string) : option (string * string) :=
  let '(sign, r) :=
    match s with
    | String "-" r => ("-", r)
    | _ => ("", s)
    end in
  match r with
  | String c r1 =>
    if is_digit c
    then
      let '(int, r2) :=
        if Ascii.eqb c "0" then ("0", r1) else take_digits r in
      let frac :=
        match r2 with
        | String "." r3 =>
          match take_digits r3 with
          | (EmptyString, _) => None
          | (d, r4) => Some ("." +:+ d, r4)
          end
        | _ => Some ("", r2)
        end in
      match frac with
      | None => None
      | Some (fr, r5) =>
        match r5 with
        | String e r6 =>
          if Ascii.eqb (lower_ascii e) "e"
          then
            let '(es, r7) :=
              match r6 with
              | String "+" r' => ("+", r')
              | String "-" r' => ("-", r')
              | _ => ("", r6)
              end in
            match take_digits r7 with
            | (EmptyString, _) => None
            | (d, r8) => Some (sign +:+ int +:+ fr +:+ String e es +:+ d, r8)
            end
          else Some (sign +:+ int +:+ fr, r5)
        | EmptyString => Some (sign +:+ int +:+ fr, r5)
        end
      end
    else None
  | EmptyString => None
  end.

Fixpoint strip_prefix (p s : string) : option string :=
  match p, s with
  | EmptyString, _ => Some s
  | String a p', String b s' => if Ascii.eqb a b then strip_prefix p' s' else None
  | _, _ => None
  end.

(** A value, the members of an object after its brace or a comma, the
    elements of an array after its bracket or a comma. *)
Fixpoint parse_value (fuel : nat) (s : string) : option (json * string) :=
  match fuel with
  | O => None
  | S f =>
    match skip_space s with
    | EmptyString => None
    | String c r =>
      if Ascii.eqb c "{"
      then match skip_space r with
           | String "}" r' => Some (JObj [], r')
           | _ => parse_members f r []
           end
      else if Ascii.eqb c "["
      then match skip_space r with
           | String "]" r' => Some (JArr [], r')
           | _ => parse_elements f r []
           end
      else if Ascii.eqb c dquote
      then match scan_string (S (String.length r)) r with
           | Some (str, r') => Some (JStr str, r')
           | None => None
           end
      else if Ascii.eqb c "t"
      then match strip_prefix "true" (String c r) with
           | Some r' => Some (JBool true, r')
           | None => None
           end
      else if Ascii.eqb c "f"
      then match strip_prefix "false" (String c r) with
           | Some r' => Some (JBool false, r')
           | None => None
           end
      else if Ascii.eqb c "n"
      then match strip_prefix "null" (String c r) with
           | Some r' => Some (JNull, r')
           | None => None
           end
      else match scan_number (String c r) with
           | Some (lit, r') => Some (JNum lit, r')
           | None => None
           end
    end
  end
with parse_members (fuel : nat) (s : string) (acc : list (string * json))
  : option (json * string) :=
  match fuel with
  | O => None
  | S f =>
    match skip_space s with
    | String c r =>
      if Ascii.eqb c dquote
      then match scan_string (S (String.length r)) r with
           | Some (key, r1) =>
             match skip_space r1 with
             | String ":" r2 =>
               match parse_value f r2 with
               | Some (v, r3) =>
                 match skip_space r3 with
                 | String "," r4 => parse_members f r4 (acc ++ [(key, v)])%list
                 | String "}" r4 => Some (JObj (acc ++ [(key, v)])%list, r4)
                 | _ => None
                 end
               | None => None
               end
             | _ => None
             end
           | None => None
           end
      else None
    | EmptyString => None
    end
  end
with parse_elements (fuel : nat) (s : string) (acc : list json)
  : option (json * string) :=
  match fuel with
  | O => None
  | S f =>
    match parse_value f s with
    | Some (v, r1) =>
      match skip_space r1 with
      | String "," r2 => parse_elements f r2 (acc ++ [v])%list
      | String "]" r2 => Some (JArr (acc ++ [v])%list, r2)
      | _ => None
      end
    | None => None
    end
  end.

(** The whole text is one value, with white space around it. *)
Definition parse (data : bytes) : option json :=
  match parse_value (S (String.length data)) data with
  | Some (v, rest) =>
    match skip_space rest with
    | EmptyString => Some v
    | _ => None
    end
  | None => None
  end.

(** *** Storing a value in a Go variable; the flag reports a value of
    the wrong kind. *)

Definition decode_string (v : json) (old : string) : string * bool :=
  match v with
  | JStr s => (s, false)
  | JNull => (old, false)
  | _ => (old, true)
  end.

(** [strconv.ParseInt(lit, 10, 64)] on a JSON number literal. *)
Definition all_digits (s : string) : bool :=
  match take_digits s with
  | (String _ _, EmptyString) => true
  | _ => false
  end.

Fixpoint digits_value (s : string) (acc : Z) : Z :=
  match s with
  | String c r => digits_value r (10 * acc + (code c - 48))%Z
  | EmptyString => acc
  end.

Definition parse_int (lit : string) : option Z :=
  let '(neg, body) :=
    match lit with
    | String "-" r => (true, r)
    | _ => (false, lit)
    end in
  if all_digits body
  then let n := cond_Zopp neg (digits_value body 0) in
       if (- 2 ^ 63 <=? n)%Z && (n <? 2 ^ 63)%Z then Some n else None
  else None.

Definition decode_int (v : json) (old : Z) : Z * bool :=
  match v with
  | JNum lit =>
    match parse_int lit with
    | Some n => (n, false)
    | None => (old, true)
    end
  | JNull => (old, false)
  | _ => (old, true)
  end.

Definition decode_strings (v : json) (old : list string) : list string * bool :=
  match v with
  | JArr l =>
    (map (λ e, fst (decode_string e "")) l,
     existsb (λ e, snd (decode_string e "")) l)
  | JNull => ([], false)
  | _ => (old, true)
  end.

Definition field (T : Type) : Type := (string * (json → T → T * bool))%type.

Definition decode_member {T} (fields : list (field T)) (acc : T * bool)
    (kv : string * json) : T * bool :=
  match find (λ f : field T, String.eqb (lower (fst f)) (lower (fst kv))) fields with
  | Some f => let '(t, e) := snd f (snd kv) (fst acc) in (t, snd acc || e)
  | None => acc
  end.

Definition decode_struct {T} (fields : list (field T)) (v : json) (old : T)
  : T * bool :=
  match v with
  | JObj members => fold_left (decode_member fields) members (old, false)
  | JNull => (old, false)
  | _ => (old, true)
  end.

Definition syntax_error : error := "json: syntax error".
Definition type_error : error := "json: cannot unmarshal value into Go value".

Definition Unmarshal {T} (dec : json → T → T * bool) (data : bytes) (v : T)
  : T * option error :=
  match parse data with
  | None => (v, Some syntax_error)
  | Some j =>
    let '(v', e) := dec j v in
    (v', if e then Some type_error else None)
  end.

(** *** Marshal *)

Definition hex_digit (n : Z) : ascii :=
  if (n <? 10)%Z then chr (48 + n) else chr (87 + n).

Definition escape_char (c : ascii) : string :=
  let n := code c in
  if Ascii.eqb c dquote || Ascii.eqb c "\" then String "\" (String c EmptyString)
  else if (n =? 10)%Z then "\n"
  else if (n =? 13)%Z then "\r"
  else if (n =? 9)%Z then "\t"
  else if (n <? 32)%Z || (n =? 60)%Z || (n =? 62)%Z || (n =? 38)%Z
  then "\u00" +:+ String (hex_digit (n / 16)) (String (hex_digit (n mod 16)) EmptyString)
  else String c EmptyString.

Fixpoint escape (s : string) : string :=
  match s with
  | EmptyString => EmptyString
  | String c r => escape_char c +:+ escape r
  end.

Definition encode_string (s : string) : string :=
  String dquote (escape s +:+ String dquote EmptyString).

Definition encode_int (n : Z) : string :=
  if (n <? 0)%Z then "-" +:+ Itoa_nat (- n) else Itoa_nat n.

Fixpoint join (sep : string) (l : list string) : string :=
  match l with
  | [] => ""
  | [x] => x
  | x :: r => x +:+ sep +:+ join sep r
  end.

(** A slice of strings; the empty list stands for the nil slice, the
    only empty slice that the programs marshal. *)
Definition encode_strings (l : list string) : string :=
  match l with
  | [] => "null"
  | _ => "[" +:+ join "," (map encode_string l) +:+ "]"
  end.

Definition encode_struct (members : list (string * string)) : string :=
  "{" +:+ join "," (map (λ kv, encode_string (fst kv) +:+ ":" +:+ snd kv) members) +:+ "}".

End GoJSON.

#[export] Instance json_strings : JSON (list string) :=
  {| json_Unmarshal := GoJSON.Unmarshal GoJSON.decode_strings;
     json_Marshal := GoJSON.encode_strings |}.

Module AccountJSON.
Import GoJSON AccountChaincode.

Definition fields : list (field Account) :=
  [ ("accountno", λ v a,
      let '(s, e) := decode_string v (AccountNo a) in
      ({| AccountNo := s; LegalEntity := LegalEntity a;
          Currency := Currency a; Balance := Balance a |}, e));
    ("legalentity", λ v a,
      let '(s, e) := decode_string v (LegalEntity a) in
      ({| AccountNo := AccountNo a; LegalEntity := s;
          Currency := Currency a; Balance := Balance a |}, e));
    ("currency", λ v a,
      let '(s, e) := decode_string v (Currency a) in
      ({| AccountNo := AccountNo a; LegalEntity := LegalEntity a;
          Currency := s; Balance := Balance a |}, e));
    ("balance", λ v a,
      let '(s, e) := decode_string v (Balance a) in
      (set_Balance a s, e)) ].

Definition Marshal (a : Account) : bytes :=
  encode_struct
    [ ("accountno", encode_string (AccountNo a));
      ("legalentity", encode_string (LegalEntity a));
      ("currency", encode_string (Currency a));
      ("balance", encode_string (Balance a)) ].
End AccountJSON.

#[export] Instance json_Account : JSON AccountChaincode.Account :=
  {| json_Unmarshal := GoJSON.Unmarshal (GoJSON.decode_struct AccountJSON.fields);
     json_Marshal := AccountJSON.Marshal |}.

Module TradeJSON.
Import GoJSON TradeChaincode.

Definition set_InvoiceId (inv : Invoice) (s : string) : Invoice :=
  {| InvoiceId := s; Amount := Amount inv; Currency := Currency inv;
     Supplier := Supplier inv; Payer := Payer inv; DueDate := DueDate inv;
     Status := Status inv; Buyer := Buyer inv; Discount := Discount inv |}.
Definition set_Amount (inv : Invoice) (s : string) : Invoice :=
  {| InvoiceId := InvoiceId inv; Amount := s; Currency := Currency inv;
     Supplier := Supplier inv; Payer := Payer inv; DueDate := DueDate inv;
     Status := Status inv; Buyer := Buyer inv; Discount := Discount inv |}.
Definition set_Currency (inv : Invoice) (s : string) : Invoice :=
  {| InvoiceId := InvoiceId inv; Amount := Amount inv; Currency := s;
     Supplier := Supplier inv; Payer := Payer inv; DueDate := DueDate inv;
     Status := Status inv; Buyer := Buyer inv; Discount := Discount inv |}.
Definition set_Supplier (inv : Invoice) (s : string) : Invoice :=
  {| InvoiceId := InvoiceId inv; Amount := Amount inv; Currency := Currency inv;
     Supplier := s; Payer := Payer inv; DueDate := DueDate inv;
     Status := Status inv; Buyer := Buyer inv; Discount := Discount inv |}.
Definition set_Payer (inv : Invoice) (s : string) : Invoice :=
  {| InvoiceId := InvoiceId inv; Amount := Amount inv; Currency := Currency inv;
     Supplier := Supplier inv; Payer := s; DueDate := DueDate inv;
     Status := Status inv; Buyer := Buyer inv; Discount := Discount inv |}.
Definition set_DueDate (inv : Invoice) (s : string) : Invoice :=
  {| InvoiceId := InvoiceId inv; Amount := Amount inv; Currency := Currency inv;
     Supplier := Supplier inv; Payer := Payer inv; DueDate := s;
     Status := Status inv; Buyer := Buyer inv; Discount := Discount inv |}.

Definition string_field (name : string) (get : Invoice → string)
    (set : Invoice → string → Invoice) : field Invoice :=
  (name, λ v inv, let '(s, e) := decode_string v (get inv) in (set inv s, e)).

Definition fields : list (field Invoice) :=
  [ string_field "invoiceid" InvoiceId set_InvoiceId;
    string_field "amount" Amount set_Amount;
    string_field "currency" Currency set_Currency;
    string_field "supplier" Supplier set_Supplier;
    string_field "payer" Payer set_Payer;
    string_field "duedate" DueDate set_DueDate;
    string_field "status" Status set_Status;
    string_field "buyer" Buyer set_Buyer;
    string_field "discount" Discount set_Discount ].

Definition Marshal (inv : Invoice) : bytes :=
  encode_struct
    [ ("invoiceid", encode_string (InvoiceId inv));
      ("amount", encode_string (Amount inv));
      ("currency", encode_string (Currency inv));
      ("supplier", encode_string (Supplier inv));
      ("payer", encode_string (Payer inv));
      ("duedate", encode_string (DueDate inv));
      ("status", encode_string (Status inv));
      ("buyer", encode_string (Buyer inv));
      ("discount", encode_string (Discount inv)) ].

Definition holder_fields : list (field Invoice_Holder) :=
  [ ("invoices", λ v h,
      let '(l, e) := decode_strings v (Invoices h) in ({| Invoices := l |}, e)) ].

Definition Marshal_holder (h : Invoice_Holder) : bytes :=
  encode_struct [ ("invoices", encode_strings (Invoices h)) ].
End TradeJSON.

#[export] Instance json_Invoice : JSON TradeChaincode.Invoice :=
  {| json_Unmarshal := GoJSON.Unmarshal (GoJSON.decode_struct TradeJSON.fields);
     json_Marshal := TradeJSON.Marshal |}.

#[export] Instance json_Invoice_Holder : JSON TradeChaincode.Invoice_Holder :=
  {| json_Unmarshal := GoJSON.Unmarshal (GoJSON.decode_struct TradeJSON.holder_fields);
     json_Marshal := TradeJSON.Marshal_holder |}.

Module InvoiceJSON.
Import GoJSON InvoiceChaincode.

Definition update (inv : Invoice) (name s : string) : Invoice :=
  {| InvoiceId := if String.eqb name "invoiceid" then s else InvoiceId inv;
     Amount := if String.eqb name "amount" then s else Amount inv;
     Currency := if String.eqb name "currency" then s else Currency inv;
     Supplier := if String.eqb name "supplier" then s else Supplier inv;
     Payer := if String.eqb name "payer" then s else Payer inv;
     DueDate := if String.eqb name "duedate" then s else DueDate inv;
     Status := Status inv;
     Buyer := if String.eqb name "buyer" then s else Buyer inv;
     Discount := if String.eqb name "discount" then s else Discount inv |}.

Definition set_Status (inv : Invoice) (n : Z) : Invoice :=
  {| InvoiceId := InvoiceId inv; Amount := Amount inv; Currency := Currency inv;
     Supplier := Supplier inv; Payer := Payer inv; DueDate := DueDate inv;
     Status := n; Buyer := Buyer inv; Discount := Discount inv |}.

Definition string_field (name : string) (get : Invoice → string) : field Invoice :=
  (name, λ v inv, let '(s, e) := decode_string v (get inv) in (update inv name s, e)).

Definition fields : list (field Invoice) :=
  [ string_field "invoiceid" InvoiceId;
    string_field "amount" Amount;
    string_field "currency" Currency;
    string_field "supplier" Supplier;
    string_field "payer" Payer;
    string_field "duedate" DueDate;
    ("status", λ v inv, let '(n, e) := decode_int v (Status inv) in (set_Status inv n, e));
    string_field "buyer" Buyer;
    string_field "discount" Discount ].

Definition Marshal (inv : Invoice) : bytes :=
  encode_struct
    [ ("invoiceid", encode_string (InvoiceId inv));
      ("amount", encode_string (Amount inv));
      ("currency", encode_string (Currency inv));
      ("supplier", encode_string (Supplier inv));
      ("payer", encode_string (Payer inv));
      ("duedate", encode_string (DueDate inv));
      ("status", encode_int (Status inv));
      ("buyer", encode_string (Buyer inv));
      ("discount", encode_string (Discount inv)) ].
End InvoiceJSON.

#[export] Instance json_InvoiceV : JSON InvoiceChaincode.Invoice :=
  {| json_Unmarshal := GoJSON.Unmarshal (GoJSON.decode_struct InvoiceJSON.fields);
     json_Marshal := InvoiceJSON.Marshal |}.

Module InvoiceHolderJSON.
Import GoJSON InvoiceChaincode.

Definition holder_fields : list (field Invoice_Holder) :=
  [ ("invoices", λ v h,
      let '(l, e) := decode_strings v (Invoices h) in ({| Invoices := l |}, e)) ].

Definition Marshal_holder (h : Invoice_Holder) : bytes :=
  encode_struct [ ("invoices", encode_strings (Invoices h)) ].
End InvoiceHolderJSON.

#[export] Instance json_InvoiceV_Holder : JSON InvoiceChaincode.Invoice_Holder :=
  {| json_Unmarshal := GoJSON.Unmarshal (GoJSON.decode_struct InvoiceHolderJSON.holder_fields);
     json_Marshal := InvoiceHolderJSON.Marshal_holder |}.

(** A slice of strings that may be nil: [null] decodes to the nil slice
    and an array, also the empty one, to a slice that is not nil; the nil
    slice is encoded as [null] and the empty slice as an empty array. *)
Module SliceJSON.
Import GoJSON.

Definition decode_slice (v : json) (old : option (list string))
  : option (list string) * bool :=
  match v with
  | JArr l =>
    (Some (map (λ e, fst (decode_string e "")) l),
     existsb (λ e, snd (decode_string e "")) l)
  | JNull => (None, false)
  | _ => (old, true)
  end.

Definition encode_slice (l : option (list string)) : string :=
  match l with
  | None => "null"
  | Some l => "[" +:+ join "," (map encode_string l) +:+ "]"
  end.
End SliceJSON.

#[export] Instance json_slice : JSON (option (list string)) :=
  {| json_Unmarshal := GoJSON.Unmarshal SliceJSON.decode_slice;
     json_Marshal := SliceJSON.encode_slice |}.

(** ** A model of the Go library: strconv.Atoi and strconv.Itoa

    [int] has 64 bits.  [Atoi] reads an optional sign and decimal digits;
    a value outside the range of [int] is the range error, with the
    nearest bound as value.  The error texts are summaries: the programs
    do not read them. *)
Module GoAtoi.
Import GoStrconv GoJSON.

Definition Itoa (n : Z) : string :=
  if (n <? 0)%Z then "-" +:+ Itoa_nat (- n) else Itoa_nat n.

Definition Atoi (s : string) : Z * option error :=
  let '(neg, body) :=
    match s with
    | String "-" r => (true, r)
    | String "+" r => (false, r)
    | _ => (false, s)
    end in
  if all_digits body
  then let n := cond_Zopp neg (digits_value body 0) in
       if (n <? - 2 ^ 63)%Z
       then ((- 2 ^ 63)%Z, Some "strconv.Atoi: value out of range")
       else if (2 ^ 63 <=? n)%Z
       then ((2 ^ 63 - 1)%Z, Some "strconv.Atoi: value out of range")
       else (n, None)
  else (0%Z, Some "strconv.Atoi: invalid syntax").
End GoAtoi.

#[export] Instance go_atoi : StrconvInt :=
  {| Atoi := GoAtoi.Atoi; Itoa := GoAtoi.Itoa |}.

(** ** Reading the ledger back, and the ledgers of the concrete runs *)

Section Readers.
Context `{!Strconv, !JSON AccountChaincode.Account, !JSON TradeChaincode.Invoice}.

(** The account record that [transfer_balance] decodes from a key. *)
Definition stored_account (σ : store) (key : string) : AccountChaincode.Account :=
  fst (json_Unmarshal (slice (σ !! key)) AccountChaincode.Account_zero).


(** The invoice that [retrieve_invoice] decodes from a key. *)
Definition stored_invoice (σ : store) (key : string) : TradeChaincode.Invoice :=
  fst (json_Unmarshal (slice (σ !! key)) TradeChaincode.Invoice_zero).
End Readers.

(** The text of a JSON array of already encoded items, as the list
    operations return it. *)
Definition json_array (items : list string) : string :=
  "[" +:+ GoJSON.join "," items +:+ "]".

(** What the list loops have appended to their result after the opening
    bracket: every item followed by a comma. *)
Fixpoint commas (l : list string) : string :=
  match l with
  | [] => ""
  | x :: r => x +:+ "," +:+ commas r
  end.

Module Runs.


(** Accounts A001 with balance 500 and B001 with balance 0. *)
Definition scenario_ledger : store :=
  <["A001" := AccountChaincode.account_str "A001" "alice" "USD" "5E+02"]>
    (<["B001" := AccountChaincode.account_str "B001" "bob" "USD" "0E+00"]> ∅).

(** The key A001 holds the record of another account. *)
Definition foreign_ledger : store :=
  <["A001" := AccountChaincode.account_str "B002" "bob" "USD" "1E+00"]>
    (<[AccountChaincode.accountIndexStr := "null"]> ∅).

(** Raw balances of the first program of chaincode_start.go. *)
Definition amounts_ledger : store :=
  <["alice" := "5E+00"]> (<["bob" := "7E+00"]> ∅).


(** An invoice in state CREATED, its index, and the three roles. *)
Definition invoice_text (status buyer discount : string) : string :=
  js "{'invoiceid':'INV1','amount':'100.00','currency':'USD','supplier':'alice','payer':'bob','duedate':'UNDEFINED','status':'"
    +:+ status +:+ js "','buyer':'" +:+ buyer +:+ js "','discount':'"
    +:+ discount +:+ js "'}".

Definition trade_ledger : store :=
  <["INV1" := invoice_text "0" "UNDEFINED" "UNDEFINED"]>
    (<["invoiceIDs" := js "{'invoices':['INV1']}"]>
       (<["alice" := "supplier"]> (<["bob" := "payer"]> (<["carol" := "buyer"]> ∅)))).

(** Two indexed invoices, the first OFFERED, the second CREATED. *)
Definition offers_ledger : store :=
  <["INV1" := invoice_text "1" "UNDEFINED" "5.00"]>
    (<["INV2" := js "{'invoiceid':'INV2','amount':'7.00','currency':'USD','supplier':'alice','payer':'bob','duedate':'UNDEFINED','status':'0','buyer':'UNDEFINED','discount':'UNDEFINED'}"]>
       (<["invoiceIDs" := js "{'invoices':['INV1','INV2']}"]> ∅)).

(** The ledger after [Init] with the participants of its comment. *)
Definition deployed_ledger : store :=
  snd (TradeChaincode.Init "init"
         ["test_user0"; "supplier"; "test_user1"; "payer"; "test_user2"; "buyer"] ∅).

(** An invoice of the second program of accounts.go. *)
Definition early_invoice : InvoiceChaincode.Invoice :=
  {| InvoiceChaincode.InvoiceId := "INV1"; InvoiceChaincode.Amount := "100.00";
     InvoiceChaincode.Currency := "USD"; InvoiceChaincode.Supplier := "alice";
     InvoiceChaincode.Payer := "bob"; InvoiceChaincode.DueDate := "UNDEFINED";
     InvoiceChaincode.Status := 0; InvoiceChaincode.Buyer := "carol";
     InvoiceChaincode.Discount := "UNDEFINED" |}.

(** A second invoice of the earlier chaincode, of another supplier. *)
Definition other_invoice : InvoiceChaincode.Invoice :=
  {| InvoiceChaincode.InvoiceId := "INV2"; InvoiceChaincode.Amount := "7.00";
     InvoiceChaincode.Currency := "USD"; InvoiceChaincode.Supplier := "dave";
     InvoiceChaincode.Payer := "UNDEFINED"; InvoiceChaincode.DueDate := "";
     InvoiceChaincode.Status := 0; InvoiceChaincode.Buyer := "UNDEFINED";
     InvoiceChaincode.Discount := "UNDEFINED" |}.

(** Both invoices stored and indexed; alice is a supplier. *)
Definition early_ledger : store :=
  <["INV1" := json_Marshal early_invoice]>
    (<["INV2" := json_Marshal other_invoice]>
       (<["invoiceIDs" := js "{'invoices':['INV1','INV2']}"]>
          (<["alice" := "supplier"]> ∅))).

(** A transaction certificate whose user name is alice. *)
Definition alice_certificate : Certificate :=
  {| ReadCertAttribute := λ name,
       if String.eqb name "username" then inl (Some "alice")
       else inr "attribute not found" |}.

(** A transaction certificate with no attributes. *)
Definition bare_certificate : Certificate :=
  {| ReadCertAttribute := λ _, inr "attribute not found" |}.

(** The ledger of accounts.go after [Init] and the creation of A001 with
    500 and B001 with 0. *)
Definition accounts_ledger : store :=
  snd (AccountChaincode.init_account ["B001"; "Bob"; "USD"; "0"]
         (snd (AccountChaincode.init_account ["A001"; "Alice"; "USD"; "500.00"]
                 (snd (AccountChaincode.Init "init" ["7"] ∅))))).

End Runs.

(** ** Predicates of the properties *)

(** What a call may do: return, or fail and leave the ledger as it was. *)
Definition clean {A} (σ : store) (r : outcome A * store) : Prop :=
  match r with
  | (Done _, _) => True
  | (Fail _, σ') => σ' = σ
  | (Panic _, _) => False
  end.


(** The number of arguments that a function of [Invoke] indexes. *)
Definition indexed_arguments (function : string) : nat :=
  if String.eqb function "create_invoice" then 4
  else if String.eqb function "offer_trade" then 3
  else if String.eqb function "accept_trade" then 2
  else 0.

(** What a call with [n] indexed arguments may do: return, fail and
    leave the ledger as it was, or panic on a shorter list. *)
Definition arity_outcome {A} (n : nat) (args : list string) (σ : store)
    (r : outcome A * store) : Prop :=
  match r with
  | (Done _, _) => (n <= length args)%nat
  | (Fail _, σ') => (n <= length args)%nat ∧ σ' = σ
  | (Panic msg, σ') => (length args < n)%nat ∧ msg = index_panic ∧ σ' = σ
  end.

(** The argument list of [Init] for a list of (name, role) pairs. *)
Fixpoint pairs_args (ps : list (string * string)) : list string :=
  match ps with
  | [] => []
  | (name, role) :: ps' => name :: role :: pairs_args ps'
  end.

(** The ledger after the pairs are stored in order. *)
Definition register (ps : list (string * string)) (σ : store) : store :=
  foldl (λ σ p, <[p.1 := p.2]> σ) σ ps.

Section Texts.
Import GoStrconv GoJSON.

(** A string of decimal digits. *)
Fixpoint digits_only (s : string) : bool :=
  match s with
  | EmptyString => true
  | String c r => is_digit c && digits_only r
  end.

(** A text that ends with a comma, a space and a closing brace. *)
Definition trailing_comma (s : string) : Prop := ∃ p, s = p +:+ ", }".

(** A text that ends so, or what is left of that ending after the comma. *)
Definition in_tail (s : string) : Prop :=
  trailing_comma s ∨ s = " }" ∨ s = "}" ∨ s = "".

(** ASCII text that a JSON string literal holds as it is: no quote, no
    backslash, no control character. *)
Definition plain_char (c : ascii) : bool :=
  negb (Ascii.eqb c dquote) && negb (Ascii.eqb c "\") && negb (code c <? 32)%Z
  && (code c <? 128)%Z.

Fixpoint json_plain (s : string) : bool :=
  match s with
  | EmptyString => true
  | String c r => plain_char c && json_plain r
  end.

(** Plain text that [json.Marshal] writes as it is: not one of the three
    characters that it escapes for HTML. *)
Definition safe_char (c : ascii) : bool :=
  plain_char c && negb (code c =? 60)%Z && negb (code c =? 62)%Z && negb (code c =? 38)%Z.

Fixpoint json_safe (s : string) : bool :=
  match s with
  | EmptyString => true
  | String c r => safe_char c && json_safe r
  end.

End Texts.

(** An account record whose fixed fields are written as they are. *)
Definition safe_account (acct : AccountChaincode.Account) : bool :=
  json_safe (AccountChaincode.AccountNo acct)
  && json_safe (AccountChaincode.LegalEntity acct)
  && json_safe (AccountChaincode.Currency acct).

(** * Properties *)

(** ** float64: rounding keeps the sign of an exact result *)

Local Open Scope Z_scope.

















Local Close Scope Z_scope.

(** ** Strings *)

Lemma append_cons (x : ascii) (a b : string) : String x a +:+ b = String x (a +:+ b).
Proof. reflexivity. Qed.

Lemma append_assoc (a b c : string) : (a +:+ b) +:+ c = a +:+ (b +:+ c).
Proof.
  induction a as [|x a IH]; [reflexivity|].
  rewrite !append_cons. now rewrite IH.
Qed.

Lemma append_empty_r (a : string) : a +:+ "" = a.
Proof.
  induction a as [|x a IH]; [reflexivity|].
  rewrite append_cons. now rewrite IH.
Qed.

Lemma length_append (a b : string) :
  String.length (a +:+ b) = (String.length a + String.length b)%nat.
Proof.
  induction a as [|x a IH]; [reflexivity|].
  rewrite append_cons. simpl. now rewrite IH.
Qed.

Lemma substring_prefix (a b : string) : substring 0 (String.length a) (a +:+ b) = a.
Proof.
  induction a as [|x a IH].
  - now destruct b.
  - rewrite append_cons. simpl. now rewrite IH.
Qed.

Lemma commas_join (x : string) (l : list string) :
  commas (x :: l) = GoJSON.join "," (x :: l) +:+ ",".
Proof.
  revert x. induction l as [|y l IH]; intros x.
  - reflexivity.
  - change (commas (x :: y :: l)) with (x +:+ "," +:+ commas (y :: l)).
    rewrite IH.
    change (GoJSON.join "," (x :: y :: l)) with (x +:+ "," +:+ GoJSON.join "," (y :: l)).
    now rewrite !append_assoc.
Qed.

(** ** Running the execution monad *)

Ltac run := unfold bind, ret, throw, panic, GetState, PutState, arg; cbn.

(** ** accounts.go: init_account and transfer_balance *)

Section AccountTheory.
Import AccountChaincode.
Context `{!Strconv, !Strings, !JSON Account, !JSON (list string)}.

(** The outcome of [transfer_balance] once its three parses are known. *)
Lemma transfer_balance_run (σ : store) (from to amt : string) (rest : list string)
    (x a b : float64) :
  ParseFloat amt = (x, None) →
  ParseFloat (Balance (stored_account σ from)) = (a, None) →
  ParseFloat (Balance (stored_account σ to)) = (b, None) →
  transfer_balance (from :: to :: amt :: rest) σ =
    if flt (fsub a x) fzero
    then (Fail (from +:+ " doesn't have enough balance to complete transaction"), σ)
    else (Done None,
          <[to := json_Marshal (set_Balance (stored_account σ to) (FormatFloat (fadd b x)))]>
            (<[from := json_Marshal (set_Balance (stored_account σ from) (FormatFloat (fsub a x)))]> σ)).
Proof.
  unfold stored_account. intros Hx Ha Hb.
  unfold transfer_balance. run. rewrite Hx. run. rewrite Ha, Hb.
  destruct (flt (fsub a x) fzero); reflexivity.
Qed.



(** C4, as amended.  [transfer_balance] fails with the validation error
    and writes nothing whenever [strconv.ParseFloat] rejects the amount;
    that parse is the only check of the amount. *)
Theorem transfer_balance_rejects_unparsable (σ : store) (from to amt : string)
    (rest : list string) (f : float64) (e : error) :
  ParseFloat amt = (f, Some e) →
  transfer_balance (from :: to :: amt :: rest) σ =
    (Fail "3rd argument must be a numeric string", σ).
Proof.
  intros Hx. unfold transfer_balance. run. now rewrite Hx.
Qed.


(** C6.  With four non-empty arguments and a numeric amount,
    [init_account] fails with the already-exists error exactly when the
    value stored under the account number decodes to a record whose
    [accountno] is that number; otherwise it succeeds, writes the new
    record over whatever the key held, and appends the number to the
    index. *)
Theorem init_account_exists_check (σ : store) (accountNo owner currency amt : string)
    (ammount : float64) :
  accountNo ≠ "" → owner ≠ "" → currency ≠ "" → amt ≠ "" →
  ParseFloat amt = (ammount, None) →
  let args := [accountNo; owner; currency; amt] in
  let str := account_str accountNo (ToLower owner) currency (FormatFloat ammount) in
  let σ1 := <[accountNo := str]> σ in
  let index := fst (json_Unmarshal (slice (σ1 !! accountIndexStr)) ([] : list string)) in
  (init_account args σ = (Fail "This account arleady exists", σ)
     ↔ AccountNo (stored_account σ accountNo) = accountNo) ∧
  (AccountNo (stored_account σ accountNo) ≠ accountNo →
     init_account args σ =
       (Done None, <[accountIndexStr := json_Marshal (index ++ [accountNo])%list]> σ1) ∧
     (accountNo ≠ accountIndexStr → snd (init_account args σ) !! accountNo = Some str)).
Proof.
  intros Ne0 Ne1 Ne2 Ne3 Hp. cbn zeta. unfold stored_account.
  assert (Hlen : ∀ s : string, s ≠ "" → (String.length s <=? 0)%nat = false)
    by (intros [|c s] Hs; [congruence|reflexivity]).
  unfold init_account. run.
  rewrite (Hlen _ Ne0), (Hlen _ Ne1), (Hlen _ Ne2), (Hlen _ Ne3), Hp. run.
  destruct (String.eqb_spec
              (AccountNo (fst (json_Unmarshal (slice (σ !! accountNo)) Account_zero)))
              accountNo) as [Heq|Hne].
  - split; [easy|]. intros Hc. now elim Hc.
  - split; [split; [discriminate|intros; contradiction]|].
    intros _. split; [reflexivity|]. intros Hk. cbn.
    rewrite lookup_insert_ne by congruence. apply lookup_insert_eq.
Qed.

End AccountTheory.

(** ** The transfers on raw balances, and insufficient funds *)

Section InsufficientFunds.
Context `{!Strconv, !JSON AccountChaincode.Account}.

(** [transfer] of chaincode_start.go writes both new balances under the
    key of the source: the destination keeps its balance and the source
    ends with [b + x]. *)
Lemma start_transfer_run (σ : store) (from to amt : string) (rest : list string)
    (x a b : float64) :
  ParseFloat amt = (x, None) →
  ParseFloat (slice (σ !! from)) = (a, None) →
  ParseFloat (slice (σ !! to)) = (b, None) →
  StartChaincode.transfer (from :: to :: amt :: rest) σ =
    if flt (fsub a x) fzero
    then (Fail (from +:+ " doesn't have enough balance to complete transaction"), σ)
    else (Done None, <[from := FormatFloat (fadd b x)]> σ).
Proof.
  intros Hx Ha Hb. unfold StartChaincode.transfer. run. rewrite Hx. run.
  rewrite Ha, Hb. destruct (flt (fsub a x) fzero); [reflexivity|].
  now rewrite insert_insert_eq.
Qed.

(** [transfer] of part_000 writes each balance under its own key. *)
Lemma learn_transfer_run (σ : store) (from to amt : string) (x a b : float64) :
  ParseFloat amt = (x, None) →
  ParseFloat (slice (σ !! from)) = (a, None) →
  ParseFloat (slice (σ !! to)) = (b, None) →
  LearnChaincode.transfer [from; to; amt] σ =
    if flt (fsub a x) fzero
    then (Fail (from +:+ " doesn't have enough balance to complete transaction"), σ)
    else (Done None, <[to := FormatFloat (fadd b x)]> (<[from := FormatFloat (fsub a x)]> σ)).
Proof.
  intros Hx Ha Hb. unfold LearnChaincode.transfer. run. rewrite Hx. run.
  rewrite Ha, Hb. destruct (flt (fsub a x) fzero); reflexivity.
Qed.


(** [init_amount] of chaincode_start.go reads [args[2]] of its two
    arguments. *)
Lemma init_amount_panics (σ : store) (name amount : string) :
  name ≠ "" → amount ≠ "" →
  StartChaincode.init_amount [name; amount] σ = (Panic index_panic, σ).
Proof.
  intros Hn Ha. unfold StartChaincode.init_amount. run.
  destruct name; [congruence|]. destruct amount; [congruence|]. reflexivity.
Qed.

(** [init_amount] of part_000 reads [args[1]] and always returns. *)
Lemma learn_init_amount_returns (σ : store) (name amount : string) :
  ∃ r σ', LearnChaincode.init_amount [name; amount] σ = (r, σ') ∧ ∀ msg, r ≠ Panic msg.
Proof.
  unfold LearnChaincode.init_amount. run.
  destruct (String.length name <=? 0)%nat; [eexists _, _; split; [reflexivity|discriminate]|].
  run. destruct (String.length amount <=? 0)%nat; [eexists _, _; split; [reflexivity|discriminate]|].
  destruct (ParseFloat amount) as [f [e|]]; run; eexists _, _; (split; [reflexivity|discriminate]).
Qed.

End InsufficientFunds.

(** ** chaincode_start.go: the invoice chaincode *)

Section TradeTheory.
Import TradeChaincode.
Context `{!JSON Invoice, !JSON Invoice_Holder}.

(** Closing the result of a list loop gives the JSON array of its items. *)
Lemma close_result_commas (l : list string) :
  close_result ("[" +:+ commas l) = json_array l.
Proof.
  destruct l as [|x l]; [reflexivity|].
  rewrite commas_join. unfold close_result, json_array, drop_last.
  set (body := GoJSON.join "," (x :: l)).
  change ("[" +:+ body +:+ ",") with (String "[" body +:+ ",").
  change ("[" +:+ body +:+ "]") with (String "[" body +:+ "]").
  rewrite length_append.
  replace (String.length (String "[" body) + String.length "," =? 1)%nat with false
    by (symmetry; apply Nat.eqb_neq; simpl; lia).
  replace (String.length (String "[" body) + String.length "," - 1)%nat
    with (String.length (String "[" body)) by (simpl; lia).
  now rewrite substring_prefix.
Qed.

Lemma retrieve_invoice_run (σ : store) (id : string) (inv : Invoice) :
  json_Unmarshal (slice (σ !! id)) Invoice_zero = (inv, None) →
  retrieve_invoice id σ = (Done (inv, None), σ).
Proof. intros Hd. unfold retrieve_invoice. run. now rewrite Hd. Qed.



(** C2, as amended.  [offer_trade] by the recorded supplier stores
    status 1 and the discount, and [accept_trade] by a principal whose
    stored role is buyer stores status 2 and binds the buyer, whatever
    the status of the invoice was; neither reads the status, and the
    only failure, a denied permission, leaves the ledger unchanged. *)
Theorem trade_status_is_overwritten (σ : store) (id discount caller buyer : string)
    (rest rest' : list string) :
  let inv := stored_invoice σ id in
  offer_trade (id :: discount :: caller :: rest) σ =
    (if String.eqb caller (Supplier inv)
     then (Done None,
           <[InvoiceId inv := json_Marshal (set_Discount (set_Status inv "1") discount)]> σ)
     else (Fail ("Permission Denied. offer_trade. " +:+ caller +:+ " !== " +:+ Supplier inv), σ))
  ∧
  accept_trade (id :: buyer :: rest') σ =
    (if String.eqb (slice (σ !! buyer)) BUYER
     then (Done None,
           <[InvoiceId inv := json_Marshal (set_Status (set_Buyer inv buyer) "2")]> σ)
     else (Fail ("Permission Denied. offer_trade. " +:+ slice (σ !! buyer) +:+ " !== " +:+ BUYER), σ)).
Proof.
  cbn zeta. unfold stored_invoice. split.
  - unfold offer_trade, retrieve_invoice, save_changes. run.
    destruct (json_Unmarshal (slice (σ !! id)) Invoice_zero) as [inv [e|]]; run;
      destruct (String.eqb caller (Supplier inv)); reflexivity.
  - unfold accept_trade, retrieve_invoice, get_role, save_changes. run.
    destruct (json_Unmarshal (slice (σ !! id)) Invoice_zero) as [inv [e|]]; run;
      destruct (String.eqb (slice (σ !! buyer)) BUYER); reflexivity.
Qed.

End TradeTheory.

Section Visibility.
Context `{!JSON TradeChaincode.Invoice, !JSON InvoiceChaincode.Invoice}.

(** The guards of the two versions.  [get_invoice_details] of
    chaincode_start.go returns the whole record to a caller who is the
    supplier, the buyer or the payer of the invoice and denies every
    other caller; [get_invoice_details] of accounts.go admits the
    supplier and the buyer only. *)
Lemma get_invoice_details_guards (inv : TradeChaincode.Invoice)
    (early : InvoiceChaincode.Invoice) (caller affiliation : string) :
  TradeChaincode.get_invoice_details inv caller =
    (if bool_decide (TradeChaincode.Supplier inv = caller
                     ∨ TradeChaincode.Buyer inv = caller
                     ∨ TradeChaincode.Payer inv = caller)
     then Done (Some (json_Marshal inv))
     else Fail "Permission Denied. get_invoice_details")
  ∧
  InvoiceChaincode.get_invoice_details early caller affiliation =
    (if bool_decide (InvoiceChaincode.Supplier early = caller
                     ∨ InvoiceChaincode.Buyer early = caller)
     then Done (Some (json_Marshal early))
     else Fail "Permission Denied. get_invoice_details").
Proof.
  unfold TradeChaincode.get_invoice_details, InvoiceChaincode.get_invoice_details.
  split.
  - destruct (String.eqb_spec (TradeChaincode.Supplier inv) caller);
      destruct (String.eqb_spec (TradeChaincode.Buyer inv) caller);
      destruct (String.eqb_spec (TradeChaincode.Payer inv) caller); simpl;
      (rewrite bool_decide_true by tauto) || (rewrite bool_decide_false by tauto);
      reflexivity.
  - destruct (String.eqb_spec (InvoiceChaincode.Supplier early) caller);
      destruct (String.eqb_spec (InvoiceChaincode.Buyer early) caller); simpl;
      (rewrite bool_decide_true by tauto) || (rewrite bool_decide_false by tauto);
      reflexivity.
Qed.
End Visibility.

(** ** Runs on concrete ledgers *)


(** [transfer] of chaincode_start.go on alice = 5, bob = 7 and amount 3:
    alice ends with 10 and bob is untouched. *)
Lemma start_transfer_writes_from_twice :
  StartChaincode.transfer ["alice"; "bob"; "3"] Runs.amounts_ledger =
    (Done None, <["alice" := "1E+01"]> Runs.amounts_ledger).
Proof. vm_compute. reflexivity. Qed.

(** The same call on [transfer] of part_000 moves the amount. *)
Lemma learn_transfer_moves_amount :
  LearnChaincode.transfer ["alice"; "bob"; "3"] Runs.amounts_ledger =
    (Done None, <["bob" := "1E+01"]> (<["alice" := "2E+00"]> Runs.amounts_ledger)).
Proof. vm_compute. reflexivity. Qed.


(** C2, the claim as stated fails: [accept_trade] on an invoice that was
    never offered (status 0) succeeds and stores status 2. *)
Lemma accept_trade_skips_offered :
  let run := TradeChaincode.accept_trade ["INV1"; "carol"] Runs.trade_ledger in
  TradeChaincode.Status (stored_invoice Runs.trade_ledger "INV1") = "0" ∧
  fst run = Done None ∧
  TradeChaincode.Status (stored_invoice (snd run) "INV1") = "2" ∧
  TradeChaincode.Buyer (stored_invoice (snd run) "INV1") = "carol".
Proof. vm_compute. repeat split. Qed.

(** [offer_trade] on the accepted invoice takes its status back to 1. *)
Lemma offer_trade_goes_backward :
  let accepted := snd (TradeChaincode.accept_trade ["INV1"; "carol"] Runs.trade_ledger) in
  let run := TradeChaincode.offer_trade ["INV1"; "5.00"; "alice"] accepted in
  TradeChaincode.Status (stored_invoice accepted "INV1") = "2" ∧
  fst run = Done None ∧
  TradeChaincode.Status (stored_invoice (snd run) "INV1") = "1".
Proof. vm_compute. repeat split. Qed.


(** C4, the claim as stated fails: the amount -5 is accepted, the source
    goes from 500 to 505 and the destination from 0 to -5. *)
Lemma negative_amount_is_accepted :
  let run := AccountChaincode.transfer_balance ["A001"; "B001"; "-5"] Runs.scenario_ledger in
  fst run = Done None ∧
  AccountChaincode.Balance (stored_account Runs.scenario_ledger "A001") = "5E+02" ∧
  AccountChaincode.Balance (stored_account Runs.scenario_ledger "B001") = "0E+00" ∧
  AccountChaincode.Balance (stored_account (snd run) "A001") = "5.05E+02" ∧
  AccountChaincode.Balance (stored_account (snd run) "B001") = "-5E+00".
Proof. vm_compute. repeat split. Qed.

Lemma transfer_balance_rejects_unparsable_witness :
  AccountChaincode.transfer_balance ["A001"; "B001"; "abc"] Runs.scenario_ledger =
    (Fail "3rd argument must be a numeric string", Runs.scenario_ledger).
Proof.
  apply (transfer_balance_rejects_unparsable Runs.scenario_ledger "A001" "B001" "abc" []
           (fst (ParseFloat "abc")) (GoStrconv.syntax_error "abc")).
  vm_compute. reflexivity.
Defined.

(** C5.  [get_invoice_details] of accounts.go denies the payer recorded
    on the invoice, where the claim has the full record returned; the
    version of chaincode_start.go returns the record of the same invoice
    to the same caller. *)
Theorem early_get_invoice_details_denies_payer :
  InvoiceChaincode.Payer Runs.early_invoice = "bob" ∧
  InvoiceChaincode.get_invoice_details Runs.early_invoice "bob" "payer" =
    Fail "Permission Denied. get_invoice_details" ∧
  TradeChaincode.Payer (stored_invoice Runs.trade_ledger "INV1") = "bob" ∧
  TradeChaincode.get_invoice_details (stored_invoice Runs.trade_ledger "INV1") "bob" =
    Done (Some (Runs.invoice_text "0" "UNDEFINED" "UNDEFINED")).
Proof. vm_compute. repeat split. Qed.

(** A001 holds the record of B002: [init_account] for A001 succeeds and
    replaces it. *)
Lemma init_account_exists_check_witness :
  let run := AccountChaincode.init_account ["A001"; "Alice"; "USD"; "500.00"] Runs.foreign_ledger in
  AccountChaincode.AccountNo (stored_account Runs.foreign_ledger "A001") = "B002" ∧
  fst run = Done None ∧
  snd run !! "A001" = Some (AccountChaincode.account_str "A001" "alice" "USD" "5E+02").
Proof.
  cbv zeta.
  destruct (init_account_exists_check Runs.foreign_ledger "A001" "Alice" "USD" "500.00"
              (fst (ParseFloat "500.00"))) as (_ & Hnew);
    try discriminate; [vm_compute; reflexivity|].
  destruct Hnew as (Hrun & Hkey); [vm_compute; discriminate|].
  split; [vm_compute; reflexivity|]. split; [now rewrite Hrun|].
  rewrite Hkey by discriminate. vm_compute. reflexivity.
Defined.

(** A second [init_account] for a stored account is refused. *)
Lemma init_account_twice :
  AccountChaincode.init_account ["A001"; "Alice"; "USD"; "500.00"] Runs.scenario_ledger =
    (Fail "This account arleady exists", Runs.scenario_ledger).
Proof. vm_compute. reflexivity. Qed.

(** C7.  [init_amount] of chaincode_start.go, called with the two
    arguments of its own comment, indexes [args[2]] and panics with an
    index out of range; [init_amount] of part_000 stores the amount on the
    same call. *)
Theorem init_amount_index_out_of_range :
  StartChaincode.init_amount ["bob"; "200.45"] ∅ = (Panic index_panic, ∅) ∧
  LearnChaincode.init_amount ["bob"; "200.45"] ∅ = (Done None, <["bob" := "2.0045E+02"]> ∅).
Proof.
  split.
  - now apply init_amount_panics.
  - vm_compute. reflexivity.
Qed.



(** C10.  On the ledger that [Init] leaves, [create_invoice] with the
    name of a registered participant as invoice id, and a supplier
    argument whose role is buyer, fails with the JSON error and not with
    the error of the duplicate check: the object it assembles ends in a
    comma before the closing brace, which [json.Unmarshal] rejects, so the
    duplicate check is never reached. *)
Theorem create_invoice_never_reaches_duplicate_check :
  Runs.deployed_ledger !! "test_user0" = Some "supplier" ∧
  Runs.deployed_ledger !! "test_user2" = Some "buyer" ∧
  GoJSON.parse (TradeChaincode.invoice_json "test_user0" "100.00" "test_user2" "test_user1") = None ∧
  TradeChaincode.create_invoice ["test_user0"; "100.00"; "test_user2"; "test_user1"]
      Runs.deployed_ledger =
    (Fail "Invalid JSON object", Runs.deployed_ledger).
Proof. vm_compute. repeat split. Qed.

(** * Further properties of the programs *)

Ltac run_all :=
  unfold bind, ret, throw, panic, GetState, PutState, DelState, arg; cbn.

(** ** The generic entry points: write, read, delete *)

Section KeyValue.
Context `{!Strconv, !StrconvInt, !Strings,
          !JSON AccountChaincode.Account, !JSON (list string),
          !JSON (option (list string))}.

(** X1.  In the three key/value programs a value written through [Invoke]
    with [write] is what [Query] with [read] returns for that key, and the
    values read for the other keys are the ones of before. *)
Theorem write_then_read (k v : string) (σ : store) :
  (StartChaincode.Invoke "write" [k; v] σ = (Done None, <[k := v]> σ) ∧
   AccountChaincode.Invoke "write" [k; v] σ = (Done None, <[k := v]> σ) ∧
   LearnChaincode.Invoke "write" [k; v] σ = (Done None, <[k := v]> σ)) ∧
  (StartChaincode.Query "read" [k] (<[k := v]> σ) = (Done (Some v), <[k := v]> σ) ∧
   AccountChaincode.Query "read" [k] (<[k := v]> σ) = (Done (Some v), <[k := v]> σ) ∧
   LearnChaincode.Query "read" [k] (<[k := v]> σ) = (Done (Some v), <[k := v]> σ)) ∧
  (∀ k', k' ≠ k →
     StartChaincode.Query "read" [k'] (<[k := v]> σ) = (Done (σ !! k'), <[k := v]> σ) ∧
     AccountChaincode.Query "read" [k'] (<[k := v]> σ) = (Done (σ !! k'), <[k := v]> σ) ∧
     LearnChaincode.Query "read" [k'] (<[k := v]> σ) = (Done (σ !! k'), <[k := v]> σ)).
Proof.
  split; [|split].
  - repeat split; reflexivity.
  - unfold StartChaincode.Query, AccountChaincode.Query, LearnChaincode.Query,
      StartChaincode.Read, AccountChaincode.read, LearnChaincode.read.
    run_all. rewrite lookup_insert_eq. repeat split.
  - intros k' Hk.
    unfold StartChaincode.Query, AccountChaincode.Query, LearnChaincode.Query,
      StartChaincode.Read, AccountChaincode.read, LearnChaincode.read.
    run_all. rewrite lookup_insert_ne by congruence. repeat split.
Qed.

(** X2.  In chaincode_start.go, [Invoke] with [delete] removes the key and
    nothing else: a later [read] of that key returns nil without an error,
    deleting an absent key changes nothing, and the other keys read as
    before. *)
Theorem start_delete_then_read (k : string) (σ : store) :
  StartChaincode.Invoke "delete" [k] σ = (Done None, delete k σ) ∧
  StartChaincode.Query "read" [k] (delete k σ) = (Done None, delete k σ) ∧
  (σ !! k = None → delete k σ = σ) ∧
  (∀ k', k' ≠ k →
     StartChaincode.Query "read" [k'] (delete k σ) = (Done (σ !! k'), delete k σ)).
Proof.
  split; [reflexivity|]. unfold StartChaincode.Query, StartChaincode.Read. run_all.
  rewrite lookup_delete_eq. split; [reflexivity|]. split.
  - apply delete_id.
  - intros k' Hk. now rewrite lookup_delete_ne by congruence.
Qed.

End KeyValue.

(** ** strconv.Atoi reads back what strconv.Itoa prints *)

Section AtoiTheory.
Import GoStrconv GoJSON.

Lemma is_digit_chr (d : Z) : (0 <= d < 10)%Z → is_digit (chr (48 + d)) = true.
Proof.
  intros Hd. assert (Hc : d ∈ [0;1;2;3;4;5;6;7;8;9]%Z).
  { rewrite !elem_of_cons. lia. }
  rewrite !elem_of_cons, elem_of_nil in Hc.
  destruct Hc as [->|[->|[->|[->|[->|[->|[->|[->|[->|[->|[]]]]]]]]]]]; reflexivity.
Qed.

Lemma code_chr (d : Z) : (0 <= d < 10)%Z → code (chr (48 + d)) = (48 + d)%Z.
Proof.
  intros Hd. assert (Hc : d ∈ [0;1;2;3;4;5;6;7;8;9]%Z).
  { rewrite !elem_of_cons. lia. }
  rewrite !elem_of_cons, elem_of_nil in Hc.
  destruct Hc as [->|[->|[->|[->|[->|[->|[->|[->|[->|[->|[]]]]]]]]]]]; reflexivity.
Qed.

Lemma take_digits_all (s : string) :
  digits_only s = true → take_digits s = (s, EmptyString).
Proof.
  induction s as [|c r IH]; [reflexivity|]. cbn [digits_only take_digits].
  intros [Hc Hr]%andb_prop. rewrite Hc, (IH Hr). reflexivity.
Qed.

Lemma digits_of_pos_fuel_S (f : nat) (n : Z) (acc : string) :
  digits_of_pos_fuel (S f) n acc =
    if (n <? 10)%Z then String (chr (48 + n)) acc
    else digits_of_pos_fuel f (n / 10) (String (chr (48 + n mod 10)) acc).
Proof. reflexivity. Qed.

Lemma digits_of_pos_fuel_spec (fuel : nat) : ∀ n acc,
  (0 <= n < 2 ^ Z.of_nat (S fuel))%Z →
  digits_of_pos_fuel (S fuel) n acc ≠ EmptyString ∧
  (digits_only acc = true → digits_only (digits_of_pos_fuel (S fuel) n acc) = true) ∧
  digits_value (digits_of_pos_fuel (S fuel) n acc) 0 = digits_value acc n.
Proof.
  induction fuel as [|f IH]; intros n acc Hn.
  - assert (n = 0 ∨ n = 1)%Z as [-> | ->] by (change (2 ^ Z.of_nat 1)%Z with 2%Z in Hn; lia);
      cbn; repeat split; try discriminate; auto.
  - rewrite digits_of_pos_fuel_S. destruct (n <? 10)%Z eqn:Hlt.
    + apply Z.ltb_lt in Hlt. repeat split.
      * discriminate.
      * intros Ha. cbn [digits_only]. rewrite is_digit_chr by lia. exact Ha.
      * cbn [digits_value]. rewrite code_chr by lia. f_equal. lia.
    + apply Z.ltb_ge in Hlt.
      assert (Hq : (0 <= n / 10 < 2 ^ Z.of_nat (S f))%Z).
      { split; [apply Z.div_pos; lia|].
        apply Z.div_lt_upper_bound; [lia|].
        rewrite (Nat2Z.inj_succ (S f)), Z.pow_succ_r in Hn by lia. lia. }
      destruct (IH (n / 10)%Z (String (chr (48 + n mod 10)) acc) Hq) as (Hne & Hd & Hv).
      pose proof (Z.mod_pos_bound n 10 ltac:(lia)) as Hm.
      repeat split.
      * exact Hne.
      * intros Ha. apply Hd. cbn [digits_only]. rewrite is_digit_chr by lia. exact Ha.
      * rewrite Hv. cbn [digits_value]. rewrite code_chr by lia. f_equal.
        pose proof (Z.div_mod n 10 ltac:(lia)). lia.
Qed.

Lemma Itoa_nat_spec (n : Z) : (0 <= n)%Z →
  ∃ c r, Itoa_nat n = String c r ∧ is_digit c = true ∧ digits_only r = true ∧
         digits_value (Itoa_nat n) 0 = n.
Proof.
  intros Hn. unfold Itoa_nat.
  assert (Hb : (0 <= n < 2 ^ Z.of_nat (S (Z.to_nat (Z.log2 n))))%Z).
  { split; [exact Hn|]. rewrite Nat2Z.inj_succ, Z2Nat.id by apply Z.log2_nonneg.
    destruct (Z.eq_dec n 0%Z) as [->|Hz]; [reflexivity|].
    apply Z.log2_spec. lia. }
  destruct (digits_of_pos_fuel_spec _ n EmptyString Hb) as (Hne & Hd & Hv).
  specialize (Hd eq_refl).
  destruct (digits_of_pos_fuel _ n EmptyString) as [|c r]; [congruence|].
  cbn [digits_only] in Hd. apply andb_prop in Hd as [Hc Hr].
  exists c, r. repeat split; auto.
Qed.

Lemma all_digits_cons (c : ascii) (r : string) :
  is_digit c = true → digits_only r = true → all_digits (String c r) = true.
Proof.
  intros Hc Hr. unfold all_digits.
  rewrite (take_digits_all (String c r)); [reflexivity|].
  cbn [digits_only]. now rewrite Hc, Hr.
Qed.

Lemma Atoi_unsigned (c : ascii) (r : string) :
  is_digit c = true →
  GoAtoi.Atoi (String c r) =
    if all_digits (String c r)
    then let n := digits_value (String c r) 0 in
         if (n <? - 2 ^ 63)%Z
         then ((- 2 ^ 63)%Z, Some "strconv.Atoi: value out of range")
         else if (2 ^ 63 <=? n)%Z
         then ((2 ^ 63 - 1)%Z, Some "strconv.Atoi: value out of range")
         else (n, None)
    else (0%Z, Some "strconv.Atoi: invalid syntax").
Proof.
  destruct c as [[] [] [] [] [] [] [] []]; try discriminate; intros _; reflexivity.
Qed.

(** [Atoi] reads back what [Itoa] prints. *)
Lemma Atoi_Itoa (n : Z) :
  (- 2 ^ 63 <= n < 2 ^ 63)%Z → GoAtoi.Atoi (GoAtoi.Itoa n) = (n, None).
Proof.
  intros Hn. unfold GoAtoi.Itoa. destruct (n <? 0)%Z eqn:Hneg.
  - apply Z.ltb_lt in Hneg.
    destruct (Itoa_nat_spec (- n)%Z ltac:(lia)) as (c & r & Heq & Hc & Hr & Hv).
    change ("-" +:+ Itoa_nat (- n)) with (String "-" (Itoa_nat (- n))).
    unfold GoAtoi.Atoi. rewrite Heq, (all_digits_cons c r Hc Hr), <- Heq, Hv.
    cbn [cond_Zopp]. rewrite Z.opp_involutive.
    replace (n <? - 2 ^ 63)%Z with false by (symmetry; apply Z.ltb_ge; lia).
    replace (2 ^ 63 <=? n)%Z with false by (symmetry; apply Z.leb_gt; lia).
    reflexivity.
  - apply Z.ltb_ge in Hneg.
    destruct (Itoa_nat_spec n Hneg) as (c & r & Heq & Hc & Hr & Hv).
    rewrite Heq, (Atoi_unsigned c r Hc), (all_digits_cons c r Hc Hr), <- Heq, Hv.
    cbv zeta.
    replace (n <? - 2 ^ 63)%Z with false by (symmetry; apply Z.ltb_ge; lia).
    replace (2 ^ 63 <=? n)%Z with false by (symmetry; apply Z.leb_gt; lia).
    reflexivity.
Qed.

(** A value that [Atoi] returns without error is in the range of [int]. *)
Lemma Atoi_range (s : string) (n : Z) :
  GoAtoi.Atoi s = (n, None) → (- 2 ^ 63 <= n < 2 ^ 63)%Z.
Proof.
  unfold GoAtoi.Atoi.
  destruct (match s with String "-" r => (true, r) | String "+" r => (false, r) | _ => (false, s) end)
    as [neg body].
  destruct (all_digits body); [|discriminate]. cbv zeta.
  destruct (_ <? _)%Z eqn:H1; [discriminate|].
  destruct (_ <=? _)%Z eqn:H2; [discriminate|].
  intros [= <-]. apply Z.ltb_ge in H1. apply Z.leb_gt in H2. lia.
Qed.

End AtoiTheory.

(** ** Init, and the account index *)

(** X3.  [Init] of chaincode_start.go stores under [testKey] the decimal
    form that [strconv.Itoa] gives the integer parsed from its one argument,
    a form that [strconv.Atoi] reads back to the same integer; an argument
    that is no integer of the range of [int], or any other number of
    arguments, is an error and writes nothing. *)
Theorem start_init_stores_canonical_integer (f s : string) (σ : store) :
  (∀ n, GoAtoi.Atoi s = (n, None) →
     StartChaincode.Init f [s] σ = (Done None, <["testKey" := GoAtoi.Itoa n]> σ) ∧
     GoAtoi.Atoi (GoAtoi.Itoa n) = (n, None)) ∧
  (snd (GoAtoi.Atoi s) ≠ None →
     StartChaincode.Init f [s] σ = (Fail "Expecting integer value for asset holding", σ)) ∧
  (∀ args, length args ≠ 1%nat →
     StartChaincode.Init f args σ = (Fail "Incorrect number of arguments. Expecting 1", σ)).
Proof.
  split; [|split].
  - intros n Hs. split.
    + unfold StartChaincode.Init. run_all. unfold Atoi, Itoa, go_atoi. now rewrite Hs.
    + apply Atoi_Itoa. exact (Atoi_range s n Hs).
  - intros He. unfold StartChaincode.Init. run_all. unfold Atoi, go_atoi.
    destruct (GoAtoi.Atoi s) as [n [e|]]; [reflexivity|]. now elim He.
  - intros args Hlen. unfold StartChaincode.Init.
    destruct (Nat.eqb_spec (length args) 1); [lia|reflexivity].
Qed.

Section AccountIndex.
Import AccountChaincode.
Context `{!Strconv, !StrconvInt, !Strings, !JSON Account, !JSON (list string),
          !JSON (option (list string))}.

(** X4.  [Init] of accounts.go stores the integer under [test_key] and
    empties the account index, and touches no other key: an account stored
    before is still there, and [init_account] for its number still fails
    with the already-exists error although the index lists it no more. *)
Theorem account_init_keeps_records (σ : store) (f s : string) (n : Z) :
  Atoi s = (n, None) →
  let σ' := snd (Init f [s] σ) in
  fst (Init f [s] σ) = Done None ∧
  σ' !! accountIndexStr = Some (json_Marshal (None : option (list string))) ∧
  σ' !! "test_key" = Some (Itoa n) ∧
  (∀ k, k ≠ "test_key" → k ≠ accountIndexStr → σ' !! k = σ !! k) ∧
  (∀ a owner currency amt x,
     a ≠ "test_key" → a ≠ accountIndexStr →
     AccountNo (stored_account σ a) = a →
     a ≠ "" → owner ≠ "" → currency ≠ "" → amt ≠ "" →
     ParseFloat amt = (x, None) →
     init_account [a; owner; currency; amt] σ' = (Fail "This account arleady exists", σ')).
Proof.
  intros Hs.
  assert (Hrun : Init f [s] σ =
            (Done None, <[accountIndexStr := json_Marshal (None : option (list string))]>
                          (<["test_key" := Itoa n]> σ))).
  { unfold Init. run_all. now rewrite Hs. }
  rewrite Hrun. cbn [fst snd].
  set (σ' := <[accountIndexStr := _]> _).
  assert (Hframe : ∀ k, k ≠ "test_key" → k ≠ accountIndexStr → σ' !! k = σ !! k).
  { intros k Hk1 Hk2. unfold σ'. rewrite !lookup_insert_ne by congruence. reflexivity. }
  split; [reflexivity|]. split; [apply lookup_insert_eq|]. split.
  { unfold σ'. rewrite lookup_insert_ne by discriminate. apply lookup_insert_eq. }
  split; [exact Hframe|]. clearbody σ'.
  intros a owner currency amt x Ha1 Ha2 Hrec Ne0 Ne1 Ne2 Ne3 Hp.
  assert (Hlen : ∀ t : string, t ≠ "" → (String.length t <=? 0)%nat = false)
    by (intros [|c t] Ht; [congruence|reflexivity]).
  unfold init_account. run_all.
  rewrite (Hlen _ Ne0), (Hlen _ Ne1), (Hlen _ Ne2), (Hlen _ Ne3), Hp. cbn.
  rewrite (Hframe a Ha1 Ha2). unfold stored_account in Hrec. rewrite Hrec.
  now rewrite String.eqb_refl.
Qed.

Lemma remove_loop_absent (name : string) (rest : list string) : ∀ i l,
  name ∉ rest → remove_loop name i rest l = l.
Proof.
  induction rest as [|v rest IH]; intros i l Hn; [reflexivity|].
  cbn [remove_loop]. apply not_elem_of_cons in Hn as [Hv Hr].
  destruct (String.eqb_spec v name) as [->|_]; [congruence|]. now apply IH.
Qed.

Lemma remove_loop_first (name : string) (r1 r2 : list string) : ∀ pre,
  name ∉ r1 →
  remove_loop name (length pre) (r1 ++ name :: r2) (pre ++ r1 ++ name :: r2)
    = (pre ++ r1 ++ r2)%list.
Proof.
  induction r1 as [|v r1 IH]; intros pre Hn.
  - cbn [app remove_loop]. rewrite String.eqb_refl.
    rewrite take_app_length.
    change (name :: r2) with ([name] ++ r2)%list. rewrite app_assoc.
    replace (S (length pre)) with (length (pre ++ [name])) by (rewrite length_app; simpl; lia).
    now rewrite drop_app_length.
  - apply not_elem_of_cons in Hn as [Hv Hr].
    cbn [app remove_loop]. destruct (String.eqb_spec v name) as [->|_]; [congruence|].
    specialize (IH (pre ++ [v])%list Hr).
    rewrite length_app in IH. simpl in IH. rewrite Nat.add_1_r in IH.
    rewrite <- !app_assoc in IH. exact IH.
Qed.

(** What the loop leaves of an index. *)
Lemma remove_loop_spec (name : string) (l : list string) :
  (name ∉ l → remove_loop name 0 l l = l) ∧
  (name ∈ l → ∃ l1 l2, l = (l1 ++ (name :: l2))%list ∧ (name ∉ l1) ∧
                        remove_loop name 0 l l = (l1 ++ l2)%list).
Proof.
  split; [apply remove_loop_absent|].
  intros Hin. induction l as [|v l IH]; [inversion Hin|].
  destruct (decide (v = name)) as [->|Hv].
  - exists [], l. split; [reflexivity|]. split; [apply not_elem_of_nil|].
    apply (remove_loop_first name [] l []). apply not_elem_of_nil.
  - apply elem_of_cons in Hin as [->|Hin]; [congruence|].
    destruct (IH Hin) as (l1 & l2 & -> & Hn & _).
    exists (v :: l1), l2. split; [reflexivity|]. split.
    + apply not_elem_of_cons. split; [congruence|exact Hn].
    + apply (remove_loop_first name (v :: l1) l2 []).
      apply not_elem_of_cons. split; [congruence|exact Hn].
Qed.

(** X5.  [Delete] of accounts.go removes the key and rewrites the index
    without the first entry equal to the key; the other entries keep their
    order, an index that does not hold the key is written back as it was,
    and no other key changes.  On an index without repetitions the key is
    gone from it. *)
Theorem delete_cuts_first_index_entry (σ : store) (name : string) (l : list string) :
  name ≠ accountIndexStr →
  fst (json_Unmarshal (slice (σ !! accountIndexStr)) (None : option (list string))) = Some l →
  ∃ l', Delete [name] σ
          = (Done None, <[accountIndexStr := json_Marshal (Some l')]> (delete name σ)) ∧
        snd (Delete [name] σ) !! name = None ∧
        (∀ k, k ≠ name → k ≠ accountIndexStr → snd (Delete [name] σ) !! k = σ !! k) ∧
        (name ∉ l → l' = l) ∧
        (name ∈ l → ∃ l1 l2, l = (l1 ++ (name :: l2))%list ∧ (name ∉ l1) ∧ l' = (l1 ++ l2)%list) ∧
        (NoDup l → (name ∉ l') ∧ ∀ a, a ≠ name → a ∈ l → a ∈ l').
Proof.
  intros Hne Hidx. exists (remove_loop name 0 l l).
  destruct (remove_loop_spec name l) as [Habs Hfirst].
  assert (Hrun : Delete [name] σ
                 = (Done None, <[accountIndexStr := json_Marshal (Some (remove_loop name 0 l l))]>
                                 (delete name σ))).
  { unfold Delete. run_all. rewrite lookup_delete_ne by congruence. now rewrite Hidx. }
  rewrite Hrun. cbn [snd]. split; [reflexivity|]. split.
  { rewrite lookup_insert_ne by congruence. apply lookup_delete_eq. }
  split.
  { intros k Hk1 Hk2. rewrite lookup_insert_ne by congruence.
    now rewrite lookup_delete_ne by congruence. }
  split; [exact Habs|]. split; [exact Hfirst|].
  intros Hnd. destruct (decide (name ∈ l)) as [Hin|Hout].
  - destruct (Hfirst Hin) as (l1 & l2 & -> & Hn1 & ->).
    apply NoDup_app in Hnd as (_ & Hdisj & Hnd2). apply NoDup_cons in Hnd2 as [Hn2 _].
    split.
    + rewrite elem_of_app. tauto.
    + intros a Ha. rewrite !elem_of_app, elem_of_cons. tauto.
  - rewrite (Habs Hout). split; [exact Hout|]. auto.
Qed.

End AccountIndex.

(** ** Calls that fail leave the ledger alone *)

Ltac split_args args :=
  destruct args as [|? [|? [|? [|? [|? ?]]]]].

Ltac crunch :=
  repeat (cbn; match goal with
               | |- context [match ?x with _ => _ end] => destruct x
               end);
  cbn; try exact I; try reflexivity.

Section Safety.
Context `{!Strconv, !StrconvInt, !Strings,
          !JSON AccountChaincode.Account, !JSON (list string),
          !JSON (option (list string))}.


(** X7.  [Invoke] of part_000 never panics and a failing call leaves the
    ledger as it was; every function name other than [init] and [write],
    [init_amount] and [transfer] among them, is refused as an unknown
    function. *)
Theorem learn_invoke_routes_init_and_write (function : string) (args : list string)
    (σ : store) :
  clean σ (LearnChaincode.Invoke function args σ) ∧
  (function ≠ "init" → function ≠ "write" →
   LearnChaincode.Invoke function args σ
     = (Fail ("Received unknown function invocation: " +:+ function), σ)).
Proof.
  unfold LearnChaincode.Invoke. split.
  - destruct (String.eqb function "init").
    { unfold LearnChaincode.Init. split_args args; run_all; crunch. }
    destruct (String.eqb function "write").
    { unfold LearnChaincode.write. split_args args; run_all; crunch. }
    exact (eq_refl σ).
  - intros Hi%String.eqb_neq Hw%String.eqb_neq. now rewrite Hi, Hw.
Qed.

(** X8.  [init_amount] of chaincode_start.go never stores anything and never
    returns normally, whatever its arguments; it is the only function
    through which [Invoke] of that program panics, and it does so on lists
    of two arguments only. *)
Theorem start_init_amount_never_stores (args : list string) (σ : store) :
  snd (StartChaincode.init_amount args σ) = σ ∧
  (∀ r, fst (StartChaincode.init_amount args σ) ≠ Done r) ∧
  (∀ function msg σ',
     StartChaincode.Invoke function args σ = (Panic msg, σ') →
     function = "init_amount" ∧ length args = 2%nat ∧ σ' = σ).
Proof.
  split; [|split].
  - unfold StartChaincode.init_amount. split_args args; run_all; crunch.
  - intros r. unfold StartChaincode.init_amount. split_args args; run_all; crunch; discriminate.
  - intros function msg σ'. unfold StartChaincode.Invoke.
    destruct (String.eqb function "init").
    { unfold StartChaincode.Init. split_args args; run_all; crunch; discriminate. }
    destruct (String.eqb function "delete").
    { unfold StartChaincode.Delete. split_args args; run_all; crunch; discriminate. }
    destruct (String.eqb function "write").
    { unfold StartChaincode.Write. split_args args; run_all; crunch; discriminate. }
    destruct (String.eqb_spec function "init_amount") as [->|_].
    { unfold StartChaincode.init_amount. split_args args; run_all; crunch;
        try discriminate; intros [= <- <-]; auto. }
    destruct (String.eqb function "transfer").
    { unfold StartChaincode.transfer. split_args args; run_all; crunch; discriminate. }
    discriminate.
Qed.

End Safety.

Section Clean.
Context `{!Strconv}.


End Clean.

Section StartInvoke.
Context `{!Strconv, !StrconvInt}.


End StartInvoke.

(** ** The transfers *)

Section Transfers.
Context `{!Strconv, !Strings, !JSON AccountChaincode.Account, !JSON (list string)}.

(** X10.  A transfer never creates an account: when the source or the
    destination key is absent, [transfer_balance] and both versions of
    [transfer] fail and write nothing (the empty balance of the absent
    record does not parse). *)
Theorem transfer_needs_both_accounts (σ : store) (from to amt : string)
    (rest : list string) (f0 : float64) (e0 : error) (ue : option error) :
  ParseFloat "" = (f0, Some e0) →
  json_Unmarshal "" AccountChaincode.Account_zero = (AccountChaincode.Account_zero, ue) →
  σ !! from = None ∨ σ !! to = None →
  (∃ e, AccountChaincode.transfer_balance (from :: to :: amt :: rest) σ = (Fail e, σ)) ∧
  (∃ e, StartChaincode.transfer (from :: to :: amt :: rest) σ = (Fail e, σ)) ∧
  (∃ e, LearnChaincode.transfer [from; to; amt] σ = (Fail e, σ)).
Proof.
  intros Hp Hu Hmiss.
  unfold AccountChaincode.transfer_balance, StartChaincode.transfer, LearnChaincode.transfer.
  run_all. destruct (ParseFloat amt) as [x [e|]]; [repeat split; eexists; reflexivity|].
  cbn. destruct Hmiss as [-> | ->]; cbn [slice default]; rewrite ?Hu; cbn; rewrite ?Hp.
  - repeat split; eexists; reflexivity.
  - destruct (ParseFloat (AccountChaincode.Balance _)) as [a [e|]];
      destruct (ParseFloat (slice (σ !! from))) as [a' [e'|]];
      repeat split; eexists; reflexivity.
Qed.

(** X11.  A successful [transfer] of chaincode_start.go leaves one change in
    the ledger: the source holds the balance of the destination plus the
    amount; the destination keeps its balance. *)
Theorem start_transfer_credits_source (σ : store) (from to amt : string)
    (rest : list string) (x a b : float64) :
  ParseFloat amt = (x, None) →
  ParseFloat (slice (σ !! from)) = (a, None) →
  ParseFloat (slice (σ !! to)) = (b, None) →
  flt (fsub a x) fzero = false →
  StartChaincode.transfer (from :: to :: amt :: rest) σ
    = (Done None, <[from := FormatFloat (fadd b x)]> σ) ∧
  (from ≠ to →
   snd (StartChaincode.transfer (from :: to :: amt :: rest) σ) !! to = σ !! to).
Proof.
  intros Hx Ha Hb Hok.
  rewrite (start_transfer_run σ from to amt rest x a b Hx Ha Hb), Hok.
  split; [reflexivity|]. intros Hne. cbn [snd].
  now rewrite lookup_insert_ne by congruence.
Qed.

(** X12.  A successful [transfer] of part_000 stores the balance of the
    source minus the amount under the source and the balance of the
    destination plus the amount under the destination, and changes no other
    key. *)
Theorem learn_transfer_pair_update (σ : store) (from to amt : string) (x a b : float64) :
  ParseFloat amt = (x, None) →
  ParseFloat (slice (σ !! from)) = (a, None) →
  ParseFloat (slice (σ !! to)) = (b, None) →
  flt (fsub a x) fzero = false →
  let σ' := snd (LearnChaincode.transfer [from; to; amt] σ) in
  fst (LearnChaincode.transfer [from; to; amt] σ) = Done None ∧
  σ' !! to = Some (FormatFloat (fadd b x)) ∧
  (from ≠ to → σ' !! from = Some (FormatFloat (fsub a x))) ∧
  (∀ k, k ≠ from → k ≠ to → σ' !! k = σ !! k).
Proof.
  intros Hx Ha Hb Hok. cbn zeta.
  rewrite (learn_transfer_run σ from to amt x a b Hx Ha Hb), Hok. cbn [fst snd].
  split; [reflexivity|]. split; [apply lookup_insert_eq|]. split.
  - intros Hne. rewrite lookup_insert_ne by congruence. apply lookup_insert_eq.
  - intros k Hk1 Hk2. now rewrite !lookup_insert_ne by congruence.
Qed.

End Transfers.

(** ** The queries of the invoice chaincode *)

Section TradeQueries.
Import TradeChaincode.
Context `{!JSON Invoice, !JSON Invoice_Holder, !Certificate}.

Lemma get_invoices_loop_run (σ : store) (caller : string) (ids : list string)
    (invs : list Invoice) :
  Forall2 (λ id inv, json_Unmarshal (slice (σ !! id)) Invoice_zero = (inv, None)) ids invs →
  ∀ result,
    get_invoices_loop caller ids result σ =
      (Done (result +:+ commas (map json_Marshal
               (filter (λ inv, Supplier inv = caller ∨ Buyer inv = caller ∨ Payer inv = caller)
                       invs))), σ).
Proof.
  induction 1 as [|id inv ids invs Hd _ IH]; intros result.
  - simpl. unfold ret. now rewrite append_empty_r.
  - cbn [get_invoices_loop]. unfold bind at 1. rewrite (retrieve_invoice_run _ _ _ Hd).
    rewrite filter_cons. unfold get_invoice_details.
    destruct (String.eqb_spec (Supplier inv) caller);
      destruct (String.eqb_spec (Buyer inv) caller);
      destruct (String.eqb_spec (Payer inv) caller); cbn [orb];
      (rewrite decide_True by tauto) || (rewrite decide_False by tauto);
      rewrite IH; cbn [map commas slice default]; now rewrite ?append_assoc.
Qed.

(** X13.  When the index and the invoices it lists decode, [get_invoices] of
    chaincode_start.go returns the JSON array of exactly the indexed
    invoices of which the caller is supplier, buyer or payer, in index
    order, and changes nothing; [Query] routes [get_invoices] to it, and
    without arguments it panics. *)
Theorem get_invoices_lists_the_callers_invoices (σ : store) (caller : string)
    (rest : list string) (holder : Invoice_Holder) (invs : list Invoice) :
  json_Unmarshal (slice (σ !! "invoiceIDs")) Invoice_Holder_zero = (holder, None) →
  Forall2 (λ id inv, json_Unmarshal (slice (σ !! id)) Invoice_zero = (inv, None))
          (Invoices holder) invs →
  let mine := filter (λ inv, Supplier inv = caller ∨ Buyer inv = caller ∨ Payer inv = caller)
                     invs in
  get_invoices (caller :: rest) σ = (Done (Some (json_array (map json_Marshal mine))), σ) ∧
  Query "get_invoices" (caller :: rest) σ = get_invoices (caller :: rest) σ ∧
  get_invoices [] σ = (Panic index_panic, σ).
Proof.
  intros Hh Hinvs. cbn zeta. split; [|split].
  - unfold get_invoices. run_all. rewrite Hh.
    unfold bind. rewrite (get_invoices_loop_run σ caller _ _ Hinvs). unfold ret.
    now rewrite close_result_commas.
  - reflexivity.
  - reflexivity.
Qed.

Lemma retrieve_invoice_store (σ : store) (id : string) :
  snd (retrieve_invoice id σ) = σ ∧ ∃ r, fst (retrieve_invoice id σ) = Done r.
Proof.
  unfold retrieve_invoice. run_all.
  destruct (json_Unmarshal (slice (σ !! id)) Invoice_zero) as [inv [e|]]; eauto.
Qed.

Lemma get_invoices_loop_store (σ : store) (caller : string) (ids : list string) :
  ∀ result, snd (get_invoices_loop caller ids result σ) = σ.
Proof.
  induction ids as [|id ids IH]; intros result; [reflexivity|].
  cbn [get_invoices_loop]. unfold bind at 1.
  destruct (retrieve_invoice_store σ id) as [Hs [r Hr]].
  destruct (retrieve_invoice id σ) as [o σ']. cbn in Hs, Hr. subst σ' o.
  destruct r as [inv [e|]]; [reflexivity|].
  destruct (get_invoice_details inv caller); apply IH.
Qed.

Lemma opening_loop_store (σ : store) (ids : list string) :
  ∀ result, snd (opening_loop ids result σ) = σ.
Proof.
  induction ids as [|id ids IH]; intros result; [reflexivity|].
  cbn [opening_loop]. unfold bind at 1.
  destruct (retrieve_invoice_store σ id) as [Hs [r Hr]].
  destruct (retrieve_invoice id σ) as [o σ']. cbn in Hs, Hr. subst σ' o.
  destruct r as [inv [e|]]; [reflexivity|].
  destruct (is_OFFERED inv); apply IH.
Qed.

Lemma bind_store {A B} (m : exec A) (k : A → exec B) (σ : store) :
  snd (m σ) = σ → (∀ a, snd (k a σ) = σ) → snd (bind m k σ) = σ.
Proof.
  unfold bind. destruct (m σ) as [[a|e|msg] σ']; cbn; intros ->; auto.
Qed.

Lemma trade_query_store (function : string) (args : list string) (σ : store) :
  snd (Query function args σ) = σ.
Proof.
  unfold Query.
  destruct (String.eqb function "get_invoice_details").
  { destruct (negb _); [reflexivity|].
    apply bind_store; [unfold arg; destruct (args !! 0); reflexivity|]. intros a0.
    apply bind_store; [apply retrieve_invoice_store|]. intros [inv [e|]]; [reflexivity|].
    apply bind_store; [unfold arg; destruct (args !! 1); reflexivity|]. reflexivity. }
  destruct (String.eqb function "get_invoices").
  { unfold get_invoices. apply bind_store; [reflexivity|]. intros bytes.
    apply bind_store; [unfold arg; destruct (args !! 0); reflexivity|]. intros caller.
    destruct (json_Unmarshal _ _) as [h [e|]]; [reflexivity|].
    apply bind_store; [apply get_invoices_loop_store|]. reflexivity. }
  destruct (String.eqb function "get_opening_trade_invoices").
  { unfold get_opening_trade_invoices. apply bind_store; [reflexivity|]. intros bytes.
    destruct (json_Unmarshal _ _) as [h [e|]]; [reflexivity|].
    apply bind_store; [apply opening_loop_store|]. reflexivity. }
  destruct (String.eqb function "read").
  { unfold read. destruct (negb _); [reflexivity|].
    apply bind_store; [unfold arg; destruct (args !! 0); reflexivity|]. intros name.
    reflexivity. }
  destruct (String.eqb function "get_username").
  { destruct (ReadCertAttribute "username"); reflexivity. }
  reflexivity.
Qed.

(** X14.  [Query] with [get_invoice_details], an id and a caller: a value
    under the id that does not decode (an absent key among them) is reported
    as a corrupt record; otherwise the record is returned to its supplier,
    buyer or payer and denied to anyone else.  The ledger is unchanged. *)
Theorem query_invoice_details (σ : store) (id caller : string) :
  let stored := json_Unmarshal (slice (σ !! id)) Invoice_zero in
  Query "get_invoice_details" [id; caller] σ =
    match snd stored with
    | Some _ =>
      (Fail ("QUERY: Error retrieving invoice RETRIEVE_INVOICE: Corrupt invoice record"
               +:+ slice (σ !! id)), σ)
    | None =>
      (if bool_decide (Supplier (fst stored) = caller ∨ Buyer (fst stored) = caller
                       ∨ Payer (fst stored) = caller)
       then Done (Some (json_Marshal (fst stored)))
       else Fail "Permission Denied. get_invoice_details", σ)
    end.
Proof.
  cbn zeta. unfold Query, retrieve_invoice. run_all.
  destruct (json_Unmarshal (slice (σ !! id)) Invoice_zero) as [inv [e|]]; cbn.
  - reflexivity.
  - unfold get_invoice_details.
    destruct (String.eqb_spec (Supplier inv) caller);
      destruct (String.eqb_spec (Buyer inv) caller);
      destruct (String.eqb_spec (Payer inv) caller); cbn [orb];
      (rewrite bool_decide_true by tauto) || (rewrite bool_decide_false by tauto);
      reflexivity.
Qed.

End TradeQueries.

(** ** Init of the invoice chaincode, offers and acceptances *)

Section TradeInit.
Import TradeChaincode.
Context `{!JSON Invoice, !JSON Invoice_Holder, !Certificate}.

Lemma add_all_pairs (ps : list (string * string)) : ∀ σ,
  add_all (pairs_args ps) σ = (Done tt, register ps σ).
Proof.
  induction ps as [|[name role] ps IH]; intros σ; [reflexivity|].
  cbn [pairs_args add_all]. unfold add_particants. run_all. apply IH.
Qed.

Lemma add_all_odd (ps : list (string * string)) (x : string) : ∀ σ,
  add_all (pairs_args ps ++ [x]) σ = (Panic index_panic, register ps σ).
Proof.
  induction ps as [|[name role] ps IH]; intros σ; [reflexivity|].
  cbn [pairs_args add_all app]. unfold add_particants. run_all. apply IH.
Qed.

Lemma register_last (ps1 ps2 : list (string * string)) (name role : string) (σ : store) :
  name ∉ map fst ps2 →
  register (ps1 ++ (name, role) :: ps2) σ !! name = Some role.
Proof.
  unfold register. rewrite foldl_app. cbn [foldl fst snd].
  generalize (foldl (λ σ p, <[p.1 := p.2]> σ) σ ps1). intros σ0.
  revert σ0. induction ps2 as [|[n r] ps2 IH]; intros σ0 Hn.
  - cbn. apply lookup_insert_eq.
  - cbn [map fst] in Hn. apply not_elem_of_cons in Hn as [Hne Hn].
    cbn [foldl fst snd]. rewrite insert_insert_ne by congruence. now apply IH.
Qed.

Lemma register_other (ps : list (string * string)) (k : string) : ∀ σ,
  k ∉ map fst ps → register ps σ !! k = σ !! k.
Proof.
  unfold register. induction ps as [|[n r] ps IH]; intros σ Hk; [reflexivity|].
  cbn [map fst] in Hk. apply not_elem_of_cons in Hk as [Hne Hk].
  cbn [foldl fst snd]. rewrite IH by exact Hk. now rewrite lookup_insert_ne by congruence.
Qed.

(** X15.  [Init] of the invoice chaincode, given (name, role) pairs, returns
    normally, stores the empty index, and [get_role] of a name yields the
    role of its last pair; names that are not given read as before.  With
    one argument more than whole pairs it panics. *)
Theorem init_registers_roles (function : string) (ps : list (string * string)) (σ : store) :
  let σ' := snd (Init function (pairs_args ps) σ) in
  fst (Init function (pairs_args ps) σ) = Done None ∧
  (∀ ps1 name role ps2,
     ps = (ps1 ++ (name, role) :: ps2)%list → name ∉ map fst ps2 →
     get_role name σ' = (Done role, σ')) ∧
  (∀ name, name ∉ map fst ps → name ≠ "invoiceIDs" →
     fst (get_role name σ') = fst (get_role name σ)) ∧
  ("invoiceIDs" ∉ map fst ps → σ' !! "invoiceIDs" = Some (json_Marshal Invoice_Holder_zero)) ∧
  (∀ x, fst (Init function (pairs_args ps ++ [x]) σ) = Panic index_panic).
Proof.
  cbn zeta. unfold Init. run_all. rewrite add_all_pairs. cbn [fst snd].
  split; [reflexivity|]. split; [|split; [|split]].
  - intros ps1 name role ps2 -> Hn. unfold get_role. run_all.
    now rewrite (register_last ps1 ps2 name role _ Hn).
  - intros name Hn Hne. unfold get_role. run_all.
    rewrite (register_other ps name _ Hn). now rewrite lookup_insert_ne by congruence.
  - intros Hn. rewrite (register_other ps _ _ Hn). apply lookup_insert_eq.
  - intros x. now rewrite add_all_odd.
Qed.

(** X16.  For an invoice stored under its own id, [offer_trade] by its
    supplier followed by [accept_trade] by a principal whose role is buyer
    both succeed and leave, under the id, the invoice with status 2, the
    buyer and the discount set and its other fields as they were; no other
    key changes. *)
Theorem offer_then_accept (σ : store) (id discount buyer : string) (inv : Invoice)
    (rest rest' : list string) :
  json_Unmarshal (slice (σ !! id)) Invoice_zero = (inv, None) →
  InvoiceId inv = id →
  json_Unmarshal (json_Marshal (set_Discount (set_Status inv "1") discount)) Invoice_zero
    = (set_Discount (set_Status inv "1") discount, None) →
  slice (σ !! buyer) = BUYER → buyer ≠ id →
  let σ1 := snd (offer_trade (id :: discount :: Supplier inv :: rest) σ) in
  let σ2 := snd (accept_trade (id :: buyer :: rest') σ1) in
  fst (offer_trade (id :: discount :: Supplier inv :: rest) σ) = Done None ∧
  fst (accept_trade (id :: buyer :: rest') σ1) = Done None ∧
  σ2 !! id = Some (json_Marshal
                     {| InvoiceId := id; Amount := Amount inv; Currency := Currency inv;
                        Supplier := Supplier inv; Payer := Payer inv; DueDate := DueDate inv;
                        Status := "2"; Buyer := buyer; Discount := discount |}) ∧
  (∀ k, k ≠ id → σ2 !! k = σ !! k).
Proof.
  intros Hd Hid Hrt Hb Hne. cbn zeta.
  assert (H1 : offer_trade (id :: discount :: Supplier inv :: rest) σ
               = (Done None, <[id := json_Marshal (set_Discount (set_Status inv "1") discount)]> σ)).
  { unfold offer_trade, retrieve_invoice, save_changes. run_all. rewrite Hd. cbn.
    rewrite String.eqb_refl. cbn. now rewrite Hid. }
  rewrite H1. cbn [fst snd].
  assert (H2 : accept_trade (id :: buyer :: rest')
                 (<[id := json_Marshal (set_Discount (set_Status inv "1") discount)]> σ)
               = (Done None,
                  <[id := json_Marshal
                            (set_Status (set_Buyer (set_Discount (set_Status inv "1") discount) buyer) "2")]>
                    (<[id := json_Marshal (set_Discount (set_Status inv "1") discount)]> σ))).
  { unfold accept_trade, retrieve_invoice, get_role, save_changes. run_all.
    rewrite lookup_insert_eq. cbn. rewrite Hrt. cbn.
    rewrite lookup_insert_ne by congruence. rewrite Hb. cbn. now rewrite Hid. }
  rewrite H2. cbn [fst snd]. split; [reflexivity|]. split; [reflexivity|]. split.
  - rewrite lookup_insert_eq. unfold set_Status, set_Buyer, set_Discount. cbn. now rewrite Hid.
  - intros k Hk. now rewrite !lookup_insert_ne by congruence.
Qed.

End TradeInit.

Section Listing.
Import TradeChaincode.
Context `{!JSON Invoice, !JSON Invoice_Holder}.




End Listing.

Section TradeOutcomes.
Import TradeChaincode.
Context `{!JSON Invoice, !JSON Invoice_Holder}.

Lemma offer_trade_outcome (args : list string) (σ : store) :
  arity_outcome 3 args σ (offer_trade args σ).
Proof.
  unfold offer_trade, retrieve_invoice, save_changes, arity_outcome.
  destruct args as [|a0 [|a1 [|a2 rest]]]; run_all; try (repeat split; lia).
  destruct (json_Unmarshal (slice (σ !! a0)) Invoice_zero) as [inv [e|]];
    cbn; destruct (negb _); cbn; try lia; (split; [lia|reflexivity]).
Qed.

Lemma accept_trade_outcome (args : list string) (σ : store) :
  arity_outcome 2 args σ (accept_trade args σ).
Proof.
  unfold accept_trade, retrieve_invoice, get_role, save_changes, arity_outcome.
  destruct args as [|a0 [|a1 rest]]; run_all; try (repeat split; lia).
  destruct (json_Unmarshal (slice (σ !! a0)) Invoice_zero) as [inv [e|]];
    cbn; destruct (negb _); cbn; try lia; (split; [lia|reflexivity]).
Qed.

End TradeOutcomes.

(** ** The earlier invoice chaincode *)

Section InvoiceQueries.
Import InvoiceChaincode.
Context `{!JSON Invoice, !JSON Invoice_Holder, !Certificate}.

Lemma early_retrieve_invoice_run (σ : store) (id : string) (inv : Invoice) :
  json_Unmarshal (slice (σ !! id)) Invoice_zero = (inv, None) →
  retrieve_invoice id σ = (Done (inv, None), σ).
Proof. intros Hd. unfold retrieve_invoice. run_all. now rewrite Hd. Qed.

Lemma early_retrieve_invoice_store (σ : store) (id : string) :
  snd (retrieve_invoice id σ) = σ ∧ ∃ r, fst (retrieve_invoice id σ) = Done r.
Proof.
  unfold retrieve_invoice. run_all.
  destruct (json_Unmarshal (slice (σ !! id)) Invoice_zero) as [inv [e|]]; eauto.
Qed.

Lemma early_get_invoices_loop_run (σ : store) (caller role : string) (ids : list string)
    (invs : list Invoice) :
  Forall2 (λ id inv, json_Unmarshal (slice (σ !! id)) Invoice_zero = (inv, None)) ids invs →
  ∀ result,
    get_invoices_loop caller role ids result σ =
      (Done (result +:+ commas (map json_Marshal
               (filter (λ inv, Supplier inv = caller ∨ Buyer inv = caller) invs))), σ).
Proof.
  induction 1 as [|id inv ids invs Hd _ IH]; intros result.
  - simpl. unfold ret. now rewrite append_empty_r.
  - cbn [get_invoices_loop]. unfold bind at 1. rewrite (early_retrieve_invoice_run _ _ _ Hd).
    rewrite filter_cons. unfold get_invoice_details.
    destruct (String.eqb_spec (Supplier inv) caller);
      destruct (String.eqb_spec (Buyer inv) caller); cbn [orb];
      (rewrite decide_True by tauto) || (rewrite decide_False by tauto);
      rewrite IH; cbn [map commas slice default]; now rewrite ?append_assoc.
Qed.

Lemma early_get_invoices_loop_store (σ : store) (caller role : string) (ids : list string) :
  ∀ result, snd (get_invoices_loop caller role ids result σ) = σ.
Proof.
  induction ids as [|id ids IH]; intros result; [reflexivity|].
  cbn [get_invoices_loop]. unfold bind at 1.
  destruct (early_retrieve_invoice_store σ id) as [Hs [r Hr]].
  destruct (retrieve_invoice id σ) as [o σ']. cbn in Hs, Hr. subst σ' o.
  destruct r as [inv [e|]]; [reflexivity|].
  destruct (get_invoice_details inv caller role); apply IH.
Qed.

(** The caller of the earlier invoice chaincode. *)
Lemma get_caller_data_run (σ : store) :
  get_caller_data σ = (Done (fst get_username, slice (σ !! fst get_username)), σ).
Proof.
  unfold get_caller_data. destruct get_username as [user e]. reflexivity.
Qed.

(** X18.  [get_invoices] of accounts.go, called by [Query] for the user of
    the certificate, returns the JSON array of exactly the indexed invoices
    of which that user is supplier or buyer, whatever the role and the
    arguments. *)
Theorem early_get_invoices_lists_supplier_and_buyer (σ : store)
    (holder : Invoice_Holder) (invs : list Invoice) :
  json_Unmarshal (slice (σ !! "invoiceIDs")) Invoice_Holder_zero = (holder, None) →
  Forall2 (λ id inv, json_Unmarshal (slice (σ !! id)) Invoice_zero = (inv, None))
          (Invoices holder) invs →
  let caller := fst get_username in
  let mine := filter (λ inv, Supplier inv = caller ∨ Buyer inv = caller) invs in
  (∀ role, get_invoices caller role σ
           = (Done (Some (json_array (map json_Marshal mine))), σ)) ∧
  (∀ args, Query "get_invoices" args σ
           = (Done (Some (json_array (map json_Marshal mine)), None), σ)).
Proof.
  intros Hh Hinvs. cbn zeta.
  assert (Hrun : ∀ role, get_invoices (fst get_username) role σ
            = (Done (Some (json_array (map json_Marshal
                 (filter (λ inv, Supplier inv = fst get_username ∨ Buyer inv = fst get_username)
                         invs)))), σ)).
  { intros role. unfold get_invoices. run_all. rewrite Hh.
    unfold bind. rewrite (early_get_invoices_loop_run σ _ role _ _ Hinvs). unfold ret.
    now rewrite close_result_commas. }
  split; [exact Hrun|]. intros args.
  unfold Query. unfold bind at 1. rewrite get_caller_data_run.
  cbn [String.eqb Ascii.eqb Bool.eqb]. unfold returned. now rewrite Hrun.
Qed.

(** X19.  [check_unique_invoice] answers [true] with no error when the value
    under the id does not decode as an invoice (an absent key among them),
    and [false] together with an error when it does; [Query] passes it its
    first argument and panics when there is none. *)
Theorem check_unique_invoice_answer (σ : store) (id caller role : string) :
  check_unique_invoice id caller role σ =
    (Done (match snd (json_Unmarshal (slice (σ !! id)) Invoice_zero) with
           | None => (Some "false", Some "invoice is not unique")
           | Some _ => (Some "true", None)
           end), σ) ∧
  (∀ args', Query "check_unique_invoice" (id :: args') σ
            = check_unique_invoice id (fst get_username)
                (slice (σ !! fst get_username)) σ) ∧
  fst (Query "check_unique_invoice" [] σ) = Panic index_panic.
Proof.
  split; [|split].
  - unfold check_unique_invoice, retrieve_invoice. run_all.
    destruct (json_Unmarshal (slice (σ !! id)) Invoice_zero) as [inv [e|]]; reflexivity.
  - intros args'. unfold Query. unfold bind at 1. rewrite get_caller_data_run. reflexivity.
  - unfold Query. unfold bind at 1. rewrite get_caller_data_run. reflexivity.
Qed.

Lemma returned_store (m : exec (option bytes)) (σ : store) :
  snd (m σ) = σ → snd (returned m σ) = σ.
Proof. unfold returned. destruct (m σ) as [[b|e|msg] σ']; auto. Qed.

Lemma early_query_store (function : string) (args : list string) (σ : store) :
  snd (Query function args σ) = σ.
Proof.
  unfold Query. unfold bind at 1. rewrite get_caller_data_run.
  destruct (String.eqb function "get_invoice_details").
  { destruct (negb _); [reflexivity|].
    apply bind_store; [unfold arg; destruct (args !! 0); reflexivity|]. intros a0.
    apply bind_store; [apply early_retrieve_invoice_store|].
    intros [inv [e|]]; [reflexivity|].
    apply returned_store. reflexivity. }
  destruct (String.eqb function "check_unique_invoice").
  { apply bind_store; [unfold arg; destruct (args !! 0); reflexivity|]. intros a0.
    unfold check_unique_invoice.
    apply bind_store; [apply early_retrieve_invoice_store|].
    intros [inv [e|]]; reflexivity. }
  destruct (String.eqb function "get_invoices").
  { apply returned_store. unfold get_invoices.
    apply bind_store; [reflexivity|]. intros bytes.
    destruct (json_Unmarshal _ _) as [h [e|]]; [reflexivity|].
    apply bind_store; [apply early_get_invoices_loop_store|]. reflexivity. }
  destruct (String.eqb function "read").
  { apply returned_store. unfold read. destruct (negb _); [reflexivity|].
    apply bind_store; [unfold arg; destruct (args !! 0); reflexivity|]. intros name.
    reflexivity. }
  destruct (String.eqb function "get_username").
  { apply bind_store; [unfold arg; destruct (args !! 0); reflexivity|]. intros a0.
    destruct (ReadCertAttribute a0); reflexivity. }
  reflexivity.
Qed.

End InvoiceQueries.

Section Queries.
Context `{!Strconv, !StrconvInt, !Strings, !Certificate,
          !JSON AccountChaincode.Account, !JSON (list string),
          !JSON (option (list string)),
          !JSON TradeChaincode.Invoice, !JSON TradeChaincode.Invoice_Holder,
          !JSON InvoiceChaincode.Invoice, !JSON InvoiceChaincode.Invoice_Holder}.

(** X20.  No [Query] of the five programs changes the ledger, whatever the
    function name and the arguments. *)
Theorem query_never_writes (function : string) (args : list string) (σ : store) :
  snd (StartChaincode.Query function args σ) = σ ∧
  snd (AccountChaincode.Query function args σ) = σ ∧
  snd (LearnChaincode.Query function args σ) = σ ∧
  snd (TradeChaincode.Query function args σ) = σ ∧
  snd (InvoiceChaincode.Query function args σ) = σ.
Proof.
  split; [|split; [|split; [|split]]].
  - unfold StartChaincode.Query, StartChaincode.Read.
    destruct (String.eqb function "read"); [|reflexivity].
    destruct (negb _); [reflexivity|]. unfold bind, arg. destruct (args !! 0); reflexivity.
  - unfold AccountChaincode.Query, AccountChaincode.read.
    destruct (String.eqb function "read"); [|reflexivity].
    destruct (negb _); [reflexivity|]. unfold bind, arg. destruct (args !! 0); reflexivity.
  - unfold LearnChaincode.Query, LearnChaincode.read.
    destruct (String.eqb function "read"); [|reflexivity].
    destruct (negb _); [reflexivity|]. unfold bind, arg. destruct (args !! 0); reflexivity.
  - apply trade_query_store.
  - apply early_query_store.
Qed.

End Queries.

Section Pings.
Context `{!Certificate,
          !JSON TradeChaincode.Invoice, !JSON TradeChaincode.Invoice_Holder,
          !JSON InvoiceChaincode.Invoice, !JSON InvoiceChaincode.Invoice_Holder}.

(** X17.  The routers of the two invoice chaincodes report no unknown
    function: [Invoke] and [Query] answer every name they do not route with
    the text of [ping], and leave the ledger alone. *)
Theorem unknown_function_is_ping (function : string) (args : list string) (σ : store) :
  (function ≠ "create_invoice" → function ≠ "offer_trade" → function ≠ "accept_trade" →
   TradeChaincode.Invoke function args σ = (Done (Some "Hello, world!"), σ)) ∧
  (function ≠ "get_invoice_details" → function ≠ "get_invoices" →
   function ≠ "get_opening_trade_invoices" → function ≠ "read" →
   function ≠ "get_username" →
   TradeChaincode.Query function args σ = (Done (Some "Hello, world!"), σ)) ∧
  (function ≠ "create_invoice" →
   InvoiceChaincode.Invoke function args σ = (Done (Some "Hello, world!"), σ)) ∧
  (function ≠ "get_invoice_details" → function ≠ "check_unique_invoice" →
   function ≠ "get_invoices" → function ≠ "read" → function ≠ "get_username" →
   InvoiceChaincode.Query function args σ = (Done (Some "Hello, world!", None), σ)).
Proof.
  split; [|split; [|split]].
  - unfold TradeChaincode.Invoke.
    intros Ha%String.eqb_neq Hb%String.eqb_neq Hc%String.eqb_neq. now rewrite Ha, Hb, Hc.
  - unfold TradeChaincode.Query.
    intros Ha%String.eqb_neq Hb%String.eqb_neq Hc%String.eqb_neq Hd%String.eqb_neq
      He%String.eqb_neq. now rewrite Ha, Hb, Hc, Hd, He.
  - unfold InvoiceChaincode.Invoke. intros Ha%String.eqb_neq.
    unfold bind at 1. rewrite get_caller_data_run. now rewrite Ha.
  - unfold InvoiceChaincode.Query.
    intros Ha%String.eqb_neq Hb%String.eqb_neq Hc%String.eqb_neq Hd%String.eqb_neq
      He%String.eqb_neq.
    unfold bind at 1. rewrite get_caller_data_run. now rewrite Ha, Hb, Hc, Hd, He.
Qed.

End Pings.

Section EarlyInit.
Import InvoiceChaincode.
Context `{!JSON Invoice, !JSON Invoice_Holder, !Certificate}.

Lemma early_add_all_pairs (ps : list (string * string)) : ∀ σ,
  add_all (pairs_args ps) σ = (Done tt, register ps σ).
Proof.
  induction ps as [|[name role] ps IH]; intros σ; [reflexivity|].
  cbn [pairs_args add_all]. unfold add_particants. run_all. apply IH.
Qed.

Lemma early_add_all_odd (ps : list (string * string)) (x : string) : ∀ σ,
  add_all (pairs_args ps ++ [x]) σ = (Panic index_panic, register ps σ).
Proof.
  induction ps as [|[name role] ps IH]; intros σ; [reflexivity|].
  cbn [pairs_args add_all app]. unfold add_particants. run_all. apply IH.
Qed.

(** X26.  After [Init] of accounts.go with (name, role) pairs, the caller
    data that [Invoke] and [Query] work with are the user name of the
    certificate (as [get_username] reads it, the empty name when the
    certificate has none) and the role of the last pair given for that name;
    [get_caller_data] reports no error on any ledger.  With one argument
    more than whole pairs [Init] panics. *)
Theorem early_init_then_caller_data (function : string) (ps : list (string * string))
    (σ : store) :
  let σ' := snd (Init function (pairs_args ps) σ) in
  let user := fst get_username in
  fst (Init function (pairs_args ps) σ) = Done None ∧
  (∀ ps1 role ps2,
     ps = (ps1 ++ (user, role) :: ps2)%list → user ∉ map fst ps2 →
     get_caller_data σ' = (Done (user, role), σ')) ∧
  (∀ σ0, ∃ role, get_caller_data σ0 = (Done (user, role), σ0)) ∧
  (∀ x, fst (Init function (pairs_args ps ++ [x]) σ) = Panic index_panic).
Proof.
  cbn zeta.
  unfold Init. run_all. rewrite early_add_all_pairs. cbn [fst snd].
  split; [reflexivity|]. split; [|split].
  - intros ps1 role ps2 -> Hn. rewrite get_caller_data_run.
    now rewrite (register_last ps1 ps2 _ role _ Hn).
  - intros σ0. rewrite get_caller_data_run. eauto.
  - intros x. now rewrite early_add_all_odd.
Qed.

End EarlyInit.

(** ** A comma before the closing brace *)

Section TrailingComma.
Import GoStrconv GoJSON.

Lemma trailing_comma_cons (c : ascii) (r : string) :
  trailing_comma (String c r) → c ≠ ","%char → trailing_comma r.
Proof.
  intros [[|c' p] Hp] Hc.
  - injection Hp as -> _. congruence.
  - rewrite append_cons in Hp. injection Hp as _ ->. now exists p.
Qed.

Lemma trailing_comma_comma (r : string) :
  trailing_comma (String "," r) → trailing_comma r ∨ r = " }".
Proof.
  intros [[|c' p] Hp].
  - injection Hp as ->. now right.
  - rewrite append_cons in Hp. injection Hp as _ ->. left. now exists p.
Qed.

Lemma in_tail_of_trailing (s : string) : trailing_comma s → in_tail s.
Proof. now left. Qed.

Lemma in_tail_cons (c : ascii) (r : string) : in_tail (String c r) → in_tail r.
Proof.
  intros [[[|c' p] Hp]|[H|[H|H]]].
  - injection Hp as _ ->. right. now left.
  - rewrite append_cons in Hp. injection Hp as _ ->. left. now exists p.
  - injection H as _ ->. right. right. now left.
  - injection H as _ ->. right. right. now right.
  - discriminate.
Qed.

Lemma in_tail_start (c : ascii) (r : string) :
  in_tail (String c r) → c ≠ ","%char → c ≠ " "%char → c ≠ "}"%char → trailing_comma r.
Proof.
  intros [Ht|[H|[H|H]]] H1 H2 H3.
  - now apply (trailing_comma_cons c).
  - injection H as -> _. congruence.
  - injection H as -> _. congruence.
  - discriminate.
Qed.

Lemma skip_space_trailing (s : string) : trailing_comma s → trailing_comma (skip_space s).
Proof.
  induction s as [|c r IH]; intros Ht; [exact Ht|].
  cbn [skip_space]. destruct (is_space c) eqn:Hs; [|exact Ht].
  apply IH. apply (trailing_comma_cons c); [exact Ht|]. intros ->. discriminate.
Qed.

Lemma take_digits_trailing (s : string) : ∀ d r,
  take_digits s = (d, r) → trailing_comma s → trailing_comma r.
Proof.
  induction s as [|c s IH]; intros d r H Ht.
  - injection H as _ <-. exact Ht.
  - cbn [take_digits] in H. destruct (is_digit c) eqn:Hd.
    + destruct (take_digits s) as [d' r'] eqn:E. injection H as _ <-.
      apply (IH d' r' eq_refl). apply (trailing_comma_cons c); [exact Ht|].
      intros ->. discriminate.
    + injection H as _ <-. exact Ht.
Qed.

Lemma strip_prefix_trailing (p : string) : ∀ s r,
  Forall (λ c, c ≠ ","%char) (list_ascii_of_string p) →
  strip_prefix p s = Some r → trailing_comma s → trailing_comma r.
Proof.
  induction p as [|a p IH]; intros s r Hp H Ht.
  - injection H as <-. exact Ht.
  - destruct s as [|b s]; [discriminate|]. cbn [strip_prefix] in H.
    cbn [list_ascii_of_string] in Hp. apply Forall_cons in Hp as [Ha Hp].
    destruct (Ascii.eqb_spec a b) as [<-|]; [|discriminate].
    apply (IH s r Hp H). now apply (trailing_comma_cons a).
Qed.

(** The matches of [scan_number] on a leading character. *)
Lemma sign_match (s : string) :
  match s with
  | String "-" r => ("-", r)
  | _ => ("", s)
  end = match s with
        | String c r => if Ascii.eqb c "-" then ("-", r) else ("", s)
        | EmptyString => ("", s)
        end.
Proof.
  destruct s as [|c r]; [reflexivity|].
  destruct c as [[] [] [] [] [] [] [] []]; reflexivity.
Qed.

Lemma exp_sign_match (s : string) :
  match s with
  | String "+" r' => ("+", r')
  | String "-" r' => ("-", r')
  | _ => ("", s)
  end = match s with
        | String c r => if Ascii.eqb c "+" then ("+", r)
                        else if Ascii.eqb c "-" then ("-", r) else ("", s)
        | EmptyString => ("", s)
        end.
Proof.
  destruct s as [|c r]; [reflexivity|].
  destruct c as [[] [] [] [] [] [] [] []]; reflexivity.
Qed.

Lemma frac_match (r2 : string) :
  match r2 with
  | String "." r3 =>
    match take_digits r3 with
    | (EmptyString, _) => None
    | (d, r4) => Some ("." +:+ d, r4)
    end
  | _ => Some ("", r2)
  end = match r2 with
        | String c r3 =>
          if Ascii.eqb c "."
          then match take_digits r3 with
               | (EmptyString, _) => None
               | (d, r4) => Some ("." +:+ d, r4)
               end
          else Some ("", r2)
        | EmptyString => Some ("", r2)
        end.
Proof.
  destruct r2 as [|c r]; [reflexivity|].
  destruct c as [[] [] [] [] [] [] [] []]; reflexivity.
Qed.

Lemma scan_number_trailing (s lit r : string) :
  scan_number s = Some (lit, r) → trailing_comma s → trailing_comma r.
Proof.
  unfold scan_number. rewrite sign_match. intros H Ht.
  assert (H0 : ∃ sign r0, (match s with
                           | String c r => if Ascii.eqb c "-" then ("-", r) else ("", s)
                           | EmptyString => ("", s)
                           end) = (sign, r0) ∧ trailing_comma r0).
  { destruct s as [|c r0]; [eauto|].
    destruct (Ascii.eqb_spec c "-") as [->|]; [|eauto].
    eexists _, _. split; [reflexivity|]. now apply (trailing_comma_cons "-"). }
  destruct H0 as (sign & r0 & E0 & Ht0). rewrite E0 in H. clear E0.
  destruct r0 as [|c r1]; [discriminate|].
  destruct (is_digit c) eqn:Hd; [|discriminate].
  assert (Ht1 : trailing_comma r1).
  { apply (trailing_comma_cons c); [exact Ht0|]. intros ->. discriminate. }
  destruct (if Ascii.eqb c "0" then ("0", r1) else take_digits (String c r1))
    as [int r2] eqn:Eint.
  assert (Ht2 : trailing_comma r2).
  { destruct (Ascii.eqb c "0").
    - injection Eint as _ <-. exact Ht1.
    - exact (take_digits_trailing _ _ _ Eint Ht0). }
  rewrite frac_match in H.
  match type of H with
  | match ?f with _ => _ end = _ => destruct f as [[fr r5]|] eqn:Efrac; [|discriminate]
  end.
  assert (Ht5 : trailing_comma r5).
  { destruct r2 as [|c2 r3]; [injection Efrac as _ <-; exact Ht2|].
    destruct (Ascii.eqb_spec c2 ".") as [->|].
    - destruct (take_digits r3) as [d r4] eqn:Ed.
      assert (trailing_comma r4).
      { apply (take_digits_trailing _ _ _ Ed). now apply (trailing_comma_cons "."). }
      destruct d; [discriminate|]. injection Efrac as _ <-. assumption.
    - injection Efrac as _ <-. exact Ht2. }
  destruct r5 as [|e r6]; [injection H as _ <-; exact Ht5|].
  destruct (Ascii.eqb (lower_ascii e) "e") eqn:He; [|injection H as _ <-; exact Ht5].
  assert (Ht6 : trailing_comma r6).
  { apply (trailing_comma_cons e); [exact Ht5|]. intros ->. discriminate. }
  rewrite exp_sign_match in H.
  match type of H with
  | (let '(_, _) := ?m in _) = _ => destruct m as [es r7] eqn:Es
  end.
  assert (Ht7 : trailing_comma r7).
  { destruct r6 as [|c6 r6']; [injection Es as _ <-; exact Ht6|].
    destruct (Ascii.eqb_spec c6 "+") as [->|].
    - injection Es as _ <-. now apply (trailing_comma_cons "+").
    - destruct (Ascii.eqb_spec c6 "-") as [->|].
      + injection Es as _ <-. now apply (trailing_comma_cons "-").
      + injection Es as _ <-. exact Ht6. }
  destruct (take_digits r7) as [d r8] eqn:Ed.
  pose proof (take_digits_trailing _ _ _ Ed Ht7) as Ht8.
  destruct d; [discriminate|]. injection H as _ <-. exact Ht8.
Qed.

Lemma read_hex4_tail (s r : string) (v : Z) :
  read_hex4 s = Some (v, r) → in_tail s → in_tail r.
Proof.
  unfold read_hex4. destruct s as [|a [|b [|c [|d t]]]]; try discriminate.
  destruct (hex_val a), (hex_val b), (hex_val c), (hex_val d); try discriminate.
  intros [= _ <-] Ht. now do 4 apply in_tail_cons in Ht.
Qed.

Lemma prepend_some (p : string) (m : option (string * string)) (x r : string) :
  prepend p m = Some (x, r) → ∃ x', m = Some (x', r).
Proof. destruct m as [[x' r']|]; [|discriminate]. intros [= _ <-]. eauto. Qed.

(** What the second half of a surrogate pair leaves to scan. *)
Lemma surrogate_rest (f : nat) (rr : Z) (r'' x r : string) :
  match r'' with
  | String "\" (String "u" r3) =>
    match read_hex4 r3 with
    | Some (rr1, r4) =>
      if (decode_pair rr rr1 =? replacement)%Z
      then prepend (utf8 replacement) (scan_string f r'')
      else prepend (utf8 (decode_pair rr rr1)) (scan_string f r4)
    | None => prepend (utf8 replacement) (scan_string f r'')
    end
  | _ => prepend (utf8 replacement) (scan_string f r'')
  end = Some (x, r) →
  in_tail r'' →
  ∃ X x', in_tail X ∧ scan_string f X = Some (x', r).
Proof.
  assert (Hdef : prepend (utf8 replacement) (scan_string f r'') = Some (x, r) →
                 in_tail r'' → ∃ X x', in_tail X ∧ scan_string f X = Some (x', r)).
  { intros H Ht. apply prepend_some in H as [x' H]. eauto. }
  destruct r'' as [|a1 t]; [exact Hdef|].
  destruct a1 as [[] [] [] [] [] [] [] []]; try exact Hdef.
  destruct t as [|a2 r3]; [exact Hdef|].
  destruct a2 as [[] [] [] [] [] [] [] []]; try exact Hdef.
  destruct (read_hex4 r3) as [[rr1 r4]|] eqn:E; [|exact Hdef].
  destruct (decode_pair rr rr1 =? replacement)%Z; [exact Hdef|].
  intros H Ht. apply prepend_some in H as [x' H].
  exists r4, x'. split; [|exact H].
  apply (read_hex4_tail _ _ _ E). now do 2 apply in_tail_cons in Ht.
Qed.

Lemma scan_string_trailing (fuel : nat) : ∀ s x r,
  scan_string fuel s = Some (x, r) → in_tail s → trailing_comma r.
Proof.
  induction fuel as [|f IH]; intros s x r H Ht; [discriminate|].
  destruct s as [|c r0]; [discriminate|]. cbn [scan_string] in H.
  pose proof (in_tail_cons _ _ Ht) as Ht0.
  destruct (Ascii.eqb_spec c dquote) as [->|Hq].
  { injection H as _ <-. apply (in_tail_start _ _ Ht); discriminate. }
  destruct (Ascii.eqb c "\").
  { destruct r0 as [|e r']; [discriminate|].
    pose proof (in_tail_cons _ _ Ht0) as Ht1.
    destruct (Ascii.eqb e "u").
    - destruct (read_hex4 r') as [[rr r'']|] eqn:Eh; [|discriminate].
      pose proof (read_hex4_tail _ _ _ Eh Ht1) as Ht2.
      destruct (is_surrogate rr).
      + destruct (surrogate_rest _ _ _ _ _ H Ht2) as (X & x' & HX & HS).
        exact (IH _ _ _ HS HX).
      + apply prepend_some in H as [x' H]. exact (IH _ _ _ H Ht2).
    - destruct (simple_escape e); [|discriminate].
      apply prepend_some in H as [x' H]. exact (IH _ _ _ H Ht1). }
  destruct (code c <? 32)%Z; [discriminate|].
  apply prepend_some in H as [x' H]. exact (IH _ _ _ H Ht0).
Qed.

(** The matches of the parser on one expected character. *)
Lemma close_brace_inv {B} (s : string) (K : string → option B) (d : option B) (y : B) :
  match s with
  | String "}" r' => K r'
  | _ => d
  end = Some y →
  (∃ r', s = String "}" r' ∧ K r' = Some y) ∨ d = Some y.
Proof.
  destruct s as [|c t]; [auto|].
  destruct c as [[] [] [] [] [] [] [] []]; auto. intros H. left. eauto.
Qed.

Lemma close_bracket_inv {B} (s : string) (K : string → option B) (d : option B) (y : B) :
  match s with
  | String "]" r' => K r'
  | _ => d
  end = Some y →
  (∃ r', s = String "]" r' ∧ K r' = Some y) ∨ d = Some y.
Proof.
  destruct s as [|c t]; [auto|].
  destruct c as [[] [] [] [] [] [] [] []]; auto. intros H. left. eauto.
Qed.

Lemma colon_inv {B} (s : string) (K : string → option B) (y : B) :
  match s with
  | String ":" r2 => K r2
  | _ => None
  end = Some y →
  ∃ r2, s = String ":" r2 ∧ K r2 = Some y.
Proof.
  destruct s as [|c t]; [discriminate|].
  destruct c as [[] [] [] [] [] [] [] []]; try discriminate. eauto.
Qed.

Lemma member_sep_inv {B} (s : string) (K1 K2 : string → option B) (y : B) :
  match s with
  | String "," r4 => K1 r4
  | String "}" r4 => K2 r4
  | _ => None
  end = Some y →
  (∃ r4, s = String "," r4 ∧ K1 r4 = Some y) ∨ (∃ r4, s = String "}" r4 ∧ K2 r4 = Some y).
Proof.
  destruct s as [|c t]; [discriminate|].
  destruct c as [[] [] [] [] [] [] [] []]; try discriminate; eauto.
Qed.

Lemma element_sep_inv {B} (s : string) (K1 K2 : string → option B) (y : B) :
  match s with
  | String "," r4 => K1 r4
  | String "]" r4 => K2 r4
  | _ => None
  end = Some y →
  (∃ r4, s = String "," r4 ∧ K1 r4 = Some y) ∨ (∃ r4, s = String "]" r4 ∧ K2 r4 = Some y).
Proof.
  destruct s as [|c t]; [discriminate|].
  destruct c as [[] [] [] [] [] [] [] []]; try discriminate; eauto.
Qed.

Lemma parse_members_tail (f : nat) (acc : list (string * json)) :
  parse_members f " }" acc = None.
Proof. destruct f; reflexivity. Qed.

Lemma parse_elements_tail (f : nat) (acc : list json) :
  parse_elements f " }" acc = None.
Proof. destruct f as [|[|f]]; reflexivity. Qed.

Lemma parse_trailing (fuel : nat) :
  (∀ s v r, parse_value fuel s = Some (v, r) → trailing_comma s → trailing_comma r) ∧
  (∀ s acc v r, parse_members fuel s acc = Some (v, r) → trailing_comma s → trailing_comma r) ∧
  (∀ s acc v r, parse_elements fuel s acc = Some (v, r) → trailing_comma s → trailing_comma r).
Proof.
  induction fuel as [|f (IHv & IHm & IHe)]; [repeat split; discriminate|].
  split; [|split].
  - intros s v r H Ht. cbn [parse_value] in H.
    apply skip_space_trailing in Ht.
    destruct (skip_space s) as [|c t]; [discriminate|].
    destruct (Ascii.eqb_spec c "{") as [->|_].
    { apply (trailing_comma_cons "{") in Ht; [|discriminate].
      apply close_brace_inv in H as [(r' & E & Hk)|H].
      - cbv beta in Hk. injection Hk as _ <-. apply skip_space_trailing in Ht. rewrite E in Ht.
        now apply (trailing_comma_cons "}") in Ht.
      - exact (IHm _ _ _ _ H Ht). }
    destruct (Ascii.eqb_spec c "[") as [->|_].
    { apply (trailing_comma_cons "[") in Ht; [|discriminate].
      apply close_bracket_inv in H as [(r' & E & Hk)|H].
      - cbv beta in Hk. injection Hk as _ <-. apply skip_space_trailing in Ht. rewrite E in Ht.
        now apply (trailing_comma_cons "]") in Ht.
      - exact (IHe _ _ _ _ H Ht). }
    destruct (Ascii.eqb_spec c dquote) as [->|_].
    { destruct (scan_string _ t) as [[str r']|] eqn:E; [|discriminate].
      injection H as _ <-. apply (scan_string_trailing _ _ _ _ E).
      left. apply (trailing_comma_cons dquote); [exact Ht|discriminate]. }
    destruct (Ascii.eqb c "t").
    { destruct (strip_prefix "true" _) as [r'|] eqn:E; [|discriminate].
      injection H as _ <-. apply (strip_prefix_trailing "true" _ _ ltac:(repeat (apply Forall_cons; split; [discriminate|]); apply Forall_nil_2) E Ht). }
    destruct (Ascii.eqb c "f").
    { destruct (strip_prefix "false" _) as [r'|] eqn:E; [|discriminate].
      injection H as _ <-. apply (strip_prefix_trailing "false" _ _ ltac:(repeat (apply Forall_cons; split; [discriminate|]); apply Forall_nil_2) E Ht). }
    destruct (Ascii.eqb c "n").
    { destruct (strip_prefix "null" _) as [r'|] eqn:E; [|discriminate].
      injection H as _ <-. apply (strip_prefix_trailing "null" _ _ ltac:(repeat (apply Forall_cons; split; [discriminate|]); apply Forall_nil_2) E Ht). }
    destruct (scan_number _) as [[lit r']|] eqn:E; [|discriminate].
    injection H as _ <-. exact (scan_number_trailing _ _ _ E Ht).
  - intros s acc v r H Ht. cbn [parse_members] in H.
    apply skip_space_trailing in Ht.
    destruct (skip_space s) as [|c t]; [discriminate|].
    destruct (Ascii.eqb_spec c dquote) as [->|_]; [|discriminate].
    destruct (scan_string _ t) as [[key r1]|] eqn:E; [|discriminate].
    assert (Ht1 : trailing_comma r1).
    { apply (scan_string_trailing _ _ _ _ E). left.
      apply (trailing_comma_cons dquote); [exact Ht|discriminate]. }
    apply skip_space_trailing in Ht1.
    apply colon_inv in H as (r2 & E2 & H). cbv beta in H. rewrite E2 in Ht1.
    apply (trailing_comma_cons ":") in Ht1; [|discriminate].
    destruct (parse_value f r2) as [[v' r3]|] eqn:Ev; [|discriminate].
    pose proof (IHv _ _ _ Ev Ht1) as Ht3. apply skip_space_trailing in Ht3.
    apply member_sep_inv in H as [(r4 & E4 & H)|(r4 & E4 & H)]; cbv beta in H; rewrite E4 in Ht3.
    + apply trailing_comma_comma in Ht3 as [Ht4| ->].
      * exact (IHm _ _ _ _ H Ht4).
      * now rewrite parse_members_tail in H.
    + injection H as _ <-. now apply (trailing_comma_cons "}") in Ht3.
  - intros s acc v r H Ht. cbn [parse_elements] in H.
    destruct (parse_value f s) as [[v' r1]|] eqn:Ev; [|discriminate].
    pose proof (IHv _ _ _ Ev Ht) as Ht1. apply skip_space_trailing in Ht1.
    apply element_sep_inv in H as [(r2 & E2 & H)|(r2 & E2 & H)]; cbv beta in H; rewrite E2 in Ht1.
    + apply trailing_comma_comma in Ht1 as [Ht2| ->].
      * exact (IHe _ _ _ _ H Ht2).
      * now rewrite parse_elements_tail in H.
    + injection H as _ <-. now apply (trailing_comma_cons "]") in Ht1.
Qed.

(** No text with a comma before its closing brace is JSON. *)
Lemma parse_trailing_comma (data : string) : trailing_comma data → parse data = None.
Proof.
  intros Ht. unfold parse.
  destruct (parse_value _ data) as [[v rest]|] eqn:E; [|reflexivity].
  apply (proj1 (parse_trailing _) _ _ _ E) in Ht. apply skip_space_trailing in Ht.
  destruct (skip_space rest); [|reflexivity].
  destruct Ht as [[|c p] Hp]; discriminate.
Qed.

End TrailingComma.

Lemma trade_invoice_json_trailing (a0 a1 a2 a3 : string) :
  trailing_comma (TradeChaincode.invoice_json a0 a1 a2 a3).
Proof.
  unfold TradeChaincode.invoice_json. cbv zeta.
  change (js "'discount':'UNDEFINED', " +:+ "}")
    with (js "'discount':'UNDEFINED'" +:+ ", }").
  eexists. rewrite <- !append_assoc. reflexivity.
Qed.

Lemma early_invoice_json_trailing (a0 a1 caller : string) :
  trailing_comma (InvoiceChaincode.invoice_json a0 a1 caller).
Proof.
  unfold InvoiceChaincode.invoice_json. cbv zeta.
  change (js "'discount':'UNDEFINED', " +:+ "}")
    with (js "'discount':'UNDEFINED'" +:+ ", }").
  eexists. rewrite <- !append_assoc. reflexivity.
Qed.

Lemma unmarshal_trailing_comma {T} (dec : GoJSON.json → T → T * bool) (data : string) (v : T) :
  trailing_comma data → GoJSON.Unmarshal dec data v = (v, Some GoJSON.syntax_error).
Proof. intros Ht. unfold GoJSON.Unmarshal. now rewrite (parse_trailing_comma data Ht). Qed.

Lemma trade_create_invoice_run (args : list string) (σ : store) :
  TradeChaincode.create_invoice args σ =
    if (4 <=? length args)%nat then (Fail "Invalid JSON object", σ)
    else (Panic index_panic, σ).
Proof.
  unfold TradeChaincode.create_invoice.
  destruct args as [|a0 [|a1 [|a2 [|a3 rest]]]]; try reflexivity.
  unfold bind, arg, ret; cbn [lookup list_lookup length Nat.leb].
  unfold json_Unmarshal, json_Invoice.
  now rewrite (unmarshal_trailing_comma _ _ _ (trade_invoice_json_trailing a0 a1 a2 a3)).
Qed.

Lemma early_create_invoice_run (caller role : string) (args : list string) (σ : store) :
  InvoiceChaincode.create_invoice caller role args σ =
    if (2 <=? length args)%nat then (Fail "Invalid JSON object", σ)
    else (Panic index_panic, σ).
Proof.
  unfold InvoiceChaincode.create_invoice.
  destruct args as [|a0 [|a1 rest]]; try reflexivity.
  unfold bind, arg, ret; cbn [lookup list_lookup length Nat.leb].
  unfold json_Unmarshal, json_InvoiceV.
  now rewrite (unmarshal_trailing_comma _ _ _ (early_invoice_json_trailing a0 a1 caller)).
Qed.

Section CreateInvoice.
Context `{!Certificate}.

(** X21.  [create_invoice] never creates an invoice, in either version: the
    object it assembles has a comma before its closing brace, so with enough
    arguments every call fails with the JSON error, with fewer it panics,
    and the ledger is never changed. *)
Theorem create_invoice_always_fails (args : list string) (σ : store) :
  (TradeChaincode.create_invoice args σ =
     if (4 <=? length args)%nat then (Fail "Invalid JSON object", σ)
     else (Panic index_panic, σ)) ∧
  (∀ caller role,
     InvoiceChaincode.create_invoice caller role args σ =
       if (2 <=? length args)%nat then (Fail "Invalid JSON object", σ)
       else (Panic index_panic, σ)) ∧
  snd (TradeChaincode.Invoke "create_invoice" args σ) = σ ∧
  snd (InvoiceChaincode.Invoke "create_invoice" args σ) = σ.
Proof.
  split; [apply trade_create_invoice_run|].
  split; [intros caller role; apply early_create_invoice_run|]. split.
  - change (TradeChaincode.Invoke "create_invoice" args σ)
      with (TradeChaincode.create_invoice args σ).
    rewrite trade_create_invoice_run. now destruct (4 <=? length args)%nat.
  - unfold InvoiceChaincode.Invoke. unfold bind at 1. rewrite get_caller_data_run.
    cbn [String.eqb Ascii.eqb Bool.eqb]. rewrite early_create_invoice_run.
    now destruct (2 <=? length args)%nat.
Qed.

End CreateInvoice.

Section TradeInvoke.
Context `{!Certificate}.

(** X28.  [Invoke] of the invoice chaincode checks no argument count:
    [create_invoice], [offer_trade] and [accept_trade] index 4, 3 and 2
    arguments, and a call panics with an index out of range exactly when it
    is given fewer; a call that fails or panics leaves the ledger as it was. *)
Theorem trade_invoke_panics_on_short_arguments (function : string) (args : list string)
    (σ : store) :
  arity_outcome (indexed_arguments function) args σ (TradeChaincode.Invoke function args σ).
Proof.
  unfold TradeChaincode.Invoke, indexed_arguments.
  destruct (String.eqb function "create_invoice").
  { rewrite trade_create_invoice_run. unfold arity_outcome.
    destruct (Nat.leb_spec 4 (length args)); auto. }
  destruct (String.eqb function "offer_trade"); [apply offer_trade_outcome|].
  destruct (String.eqb function "accept_trade"); [apply accept_trade_outcome|].
  unfold arity_outcome. cbn. lia.
Qed.

End TradeInvoke.

(** ** The records that [init_account] writes by hand *)

Section PlainText.
Import GoStrconv GoJSON.

Lemma scan_string_plain (s : string) : ∀ fuel rest,
  json_plain s = true → (String.length s < fuel)%nat →
  scan_string fuel (s +:+ String dquote rest) = Some (s, rest).
Proof.
  induction s as [|c s IH]; intros fuel rest Hp Hf.
  - destruct fuel as [|f]; [inversion Hf|]. reflexivity.
  - destruct fuel as [|f]; [inversion Hf|].
    cbn [json_plain] in Hp. apply andb_prop in Hp as [Hc Hs].
    unfold plain_char in Hc. apply andb_prop in Hc as [Hc _].
    apply andb_prop in Hc as [Hc H32].
    apply andb_prop in Hc as [Hq Hb].
    apply negb_true_iff in Hq, Hb, H32.
    rewrite append_cons. cbn [scan_string]. rewrite Hq, Hb, H32.
    rewrite (IH f rest Hs) by (cbn in Hf; lia). reflexivity.
Qed.

Lemma scan_string_plain_exact (s rest : string) :
  json_plain s = true →
  scan_string (S (String.length (s +:+ String dquote rest))) (s +:+ String dquote rest)
    = Some (s, rest).
Proof.
  intros Hp. apply scan_string_plain; [exact Hp|]. rewrite length_append. lia.
Qed.

Lemma length_cons_S (c : ascii) (s : string) :
  String.length (String c s) = S (String.length s).
Proof. reflexivity. Qed.

Ltac explode :=
  repeat match goal with
         | |- context [js ?l] =>
           let x := eval vm_compute in (js l) in change (js l) with x
         end;
  repeat (rewrite append_cons || change (EmptyString +:+ ?x) with x).

(** One step of the parser on a text whose first characters are known. *)
Lemma parse_value_object (f : nat) (r : string) :
  parse_value (S f) (String "{" (String dquote r)) = parse_members f (String dquote r) [].
Proof. reflexivity. Qed.

Lemma parse_value_spaced_string (f : nat) (r : string) :
  parse_value (S f) (String " " (String dquote r))
    = match scan_string (S (String.length r)) r with
      | Some (str, r') => Some (JStr str, r')
      | None => None
      end.
Proof. reflexivity. Qed.

Lemma parse_members_space (f : nat) (r : string) (acc : list (string * json)) :
  parse_members (S f) (String " " r) acc = parse_members (S f) r acc.
Proof. reflexivity. Qed.

Lemma parse_members_key (f : nat) (r : string) (acc : list (string * json)) :
  parse_members (S f) (String dquote r) acc
    = match scan_string (S (String.length r)) r with
      | Some (key, r1) =>
        match skip_space r1 with
        | String ":" r2 =>
          match parse_value f r2 with
          | Some (v, r3) =>
            match skip_space r3 with
            | String "," r4 => parse_members f r4 (acc ++ [(key, v)])%list
            | String "}" r4 => Some (JObj (acc ++ [(key, v)])%list, r4)
            | _ => None
            end
          | None => None
          end
        | _ => None
        end
      | None => None
      end.
Proof. reflexivity. Qed.

(** A member written as [init_account] writes it: the key, a colon, a
    space and the value. *)
Lemma parse_member (f : nat) (key val rest text : string) (acc : list (string * json)) :
  text = key +:+ String dquote
           (String ":" (String " " (String dquote (val +:+ String dquote rest)))) →
  json_plain key = true → json_plain val = true →
  parse_members (S (S f)) (String dquote text) acc
    = match skip_space rest with
      | String "," r4 => parse_members (S f) r4 (acc ++ [(key, JStr val)])%list
      | String "}" r4 => Some (JObj (acc ++ [(key, JStr val)])%list, r4)
      | _ => None
      end.
Proof.
  intros -> Hk Hv. rewrite parse_members_key, (scan_string_plain_exact key _ Hk).
  change (skip_space (String ":" ?x)) with (String ":" x). cbv beta iota.
  rewrite parse_value_spaced_string, (scan_string_plain_exact val _ Hv).
  reflexivity.
Qed.

Lemma account_str_parses (accountNo legalEntity currency amountStr : string) :
  json_plain accountNo = true → json_plain legalEntity = true →
  json_plain currency = true → json_plain amountStr = true →
  parse (AccountChaincode.account_str accountNo legalEntity currency amountStr)
    = Some (JObj [("accountno", JStr accountNo); ("legalentity", JStr legalEntity);
                  ("currency", JStr currency); ("balance", JStr amountStr)]).
Proof.
  intros H0 H1 H2 H3.
  unfold parse, AccountChaincode.account_str.
  explode.
  do 6 (rewrite (length_cons_S _ _) at 1).
  rewrite parse_value_object.
  erewrite (parse_member _ "accountno" accountNo); [|reflexivity|reflexivity|assumption].
  change (skip_space (String "," ?x)) with (String "," x). cbv beta iota.
  rewrite parse_members_space.
  erewrite (parse_member _ "legalentity" legalEntity); [|reflexivity|reflexivity|assumption].
  change (skip_space (String "," ?x)) with (String "," x). cbv beta iota.
  rewrite parse_members_space.
  erewrite (parse_member _ "currency" currency); [|reflexivity|reflexivity|assumption].
  change (skip_space (String "," ?x)) with (String "," x). cbv beta iota.
  rewrite parse_members_space.
  erewrite (parse_member _ "balance" amountStr); [|reflexivity|reflexivity|assumption].
  reflexivity.
Qed.

(** X22.  The record that [init_account] writes by hand decodes to the four
    values it was built from, when these are ASCII text without quote,
    backslash and control characters. *)
Theorem account_str_decodes (accountNo legalEntity currency amountStr : string) :
  json_plain accountNo = true → json_plain legalEntity = true →
  json_plain currency = true → json_plain amountStr = true →
  json_Unmarshal (AccountChaincode.account_str accountNo legalEntity currency amountStr)
                 AccountChaincode.Account_zero
    = ({| AccountChaincode.AccountNo := accountNo;
          AccountChaincode.LegalEntity := legalEntity;
          AccountChaincode.Currency := currency;
          AccountChaincode.Balance := amountStr |}, None).
Proof.
  intros H0 H1 H2 H3.
  unfold json_Unmarshal, json_Account, Unmarshal.
  rewrite (account_str_parses _ _ _ _ H0 H1 H2 H3). reflexivity.
Qed.

End PlainText.

Section CreateOnceGen.
Import AccountChaincode.
Context `{!Strconv, !Strings, !JSON Account, !JSON (list string)}.

(** A second [init_account] for an account whose record decodes. *)
Lemma init_account_twice_gen (σ : store) (a owner currency amt : string) (x : float64)
    (rec : Account) (ue : option error) :
  a ≠ "" → owner ≠ "" → currency ≠ "" → amt ≠ "" →
  ParseFloat amt = (x, None) →
  AccountNo (stored_account σ a) ≠ a → a ≠ accountIndexStr →
  json_Unmarshal (account_str a (ToLower owner) currency (FormatFloat x)) Account_zero
    = (rec, ue) →
  AccountNo rec = a →
  let σ1 := snd (init_account [a; owner; currency; amt] σ) in
  fst (init_account [a; owner; currency; amt] σ) = Done None ∧
  stored_account σ1 a = rec ∧
  (∀ owner' currency' amt' x',
     owner' ≠ "" → currency' ≠ "" → amt' ≠ "" → ParseFloat amt' = (x', None) →
     init_account [a; owner'; currency'; amt'] σ1 = (Fail "This account arleady exists", σ1)).
Proof.
  intros Ne0 Ne1 Ne2 Ne3 Hp Hnew Hidx Hdec Hno. cbn zeta.
  assert (Hlen : ∀ t : string, t ≠ "" → (String.length t <=? 0)%nat = false)
    by (intros [|c t] Ht; [congruence|reflexivity]).
  set (str := account_str a (ToLower owner) currency (FormatFloat x)) in *.
  set (index := fst (json_Unmarshal (slice ((<[a := str]> σ) !! accountIndexStr))
                       ([] : list string))).
  assert (Hrun : init_account [a; owner; currency; amt] σ
                 = (Done None, <[accountIndexStr := json_Marshal (index ++ [a])%list]>
                                 (<[a := str]> σ))).
  { unfold init_account. run_all.
    rewrite (Hlen _ Ne0), (Hlen _ Ne1), (Hlen _ Ne2), (Hlen _ Ne3), Hp. cbn.
    unfold stored_account in Hnew.
    destruct (String.eqb_spec
                (AccountNo (fst (json_Unmarshal (slice (σ !! a)) Account_zero))) a)
      as [Heq|_]; [contradiction|]. reflexivity. }
  rewrite Hrun. cbn [fst snd]. set (σ1 := <[accountIndexStr := _]> _).
  assert (Hrec : stored_account σ1 a = rec).
  { unfold stored_account, σ1. rewrite lookup_insert_ne by congruence.
    rewrite lookup_insert_eq. change (slice (Some str)) with str. now rewrite Hdec. }
  split; [reflexivity|]. split; [exact Hrec|].
  intros owner' currency' amt' x' Ne1' Ne2' Ne3' Hp'.
  clearbody σ1. unfold init_account. run_all.
  rewrite (Hlen _ Ne0), (Hlen _ Ne1'), (Hlen _ Ne2'), (Hlen _ Ne3'), Hp'. cbn.
  unfold stored_account in Hrec. rewrite Hrec, Hno. now rewrite String.eqb_refl.
Qed.

End CreateOnceGen.

Section CreateOnce.
Import AccountChaincode.
Context `{!Strconv, !Strings, !JSON (list string)}.

(** X23.  After a successful [init_account] the stored record reads back as
    the account number, the owner in lower case, the currency and the
    formatted amount, and every further [init_account] for that number fails
    with the already-exists error (for values that are plain ASCII text). *)
Theorem init_account_creates_once (σ : store) (a owner currency amt : string) (x : float64) :
  a ≠ "" → owner ≠ "" → currency ≠ "" → amt ≠ "" →
  ParseFloat amt = (x, None) →
  AccountNo (stored_account σ a) ≠ a → a ≠ accountIndexStr →
  json_plain a = true → json_plain (ToLower owner) = true →
  json_plain currency = true → json_plain (FormatFloat x) = true →
  let σ1 := snd (init_account [a; owner; currency; amt] σ) in
  fst (init_account [a; owner; currency; amt] σ) = Done None ∧
  stored_account σ1 a
    = {| AccountNo := a; LegalEntity := ToLower owner; Currency := currency;
         Balance := FormatFloat x |} ∧
  (∀ owner' currency' amt' x',
     owner' ≠ "" → currency' ≠ "" → amt' ≠ "" → ParseFloat amt' = (x', None) →
     init_account [a; owner'; currency'; amt'] σ1 = (Fail "This account arleady exists", σ1)).
Proof.
  intros Ne0 Ne1 Ne2 Ne3 Hp Hnew Hidx P0 P1 P2 P3.
  exact (init_account_twice_gen σ a owner currency amt x _ None
           Ne0 Ne1 Ne2 Ne3 Hp Hnew Hidx (account_str_decodes _ _ _ _ P0 P1 P2 P3) eq_refl).
Qed.

End CreateOnce.

(** ** Records written by json.Marshal are read back *)

Section SafeText.
Import GoStrconv GoJSON.

Lemma json_safe_plain (s : string) : json_safe s = true → json_plain s = true.
Proof.
  induction s as [|c s IH]; [reflexivity|]. cbn [json_safe json_plain].
  intros [Hc Hs]%andb_prop. unfold safe_char in Hc.
  apply andb_prop in Hc as [Hc _]. apply andb_prop in Hc as [Hc _].
  apply andb_prop in Hc as [Hc _]. now rewrite Hc, (IH Hs).
Qed.

Lemma escape_safe (s : string) : json_safe s = true → escape s = s.
Proof.
  induction s as [|c s IH]; [reflexivity|]. cbn [json_safe escape].
  intros [Hc Hs]%andb_prop. rewrite (IH Hs). unfold safe_char, plain_char in Hc.
  repeat match type of Hc with (_ && _ = true) => apply andb_prop in Hc as [Hc ?] end.
  repeat match goal with H : negb _ = true |- _ => apply negb_true_iff in H end.
  unfold escape_char. cbv zeta.
  repeat match goal with H : _ = false |- _ => rewrite H end.
  match goal with H : (code c <? 32)%Z = false |- _ => apply Z.ltb_ge in H end.
  replace (code c =? 10)%Z with false by (symmetry; apply Z.eqb_neq; lia).
  replace (code c =? 13)%Z with false by (symmetry; apply Z.eqb_neq; lia).
  replace (code c =? 9)%Z with false by (symmetry; apply Z.eqb_neq; lia).
  replace (code c <? 32)%Z with false by (symmetry; apply Z.ltb_ge; lia).
  reflexivity.
Qed.

Lemma encode_string_safe (s : string) :
  json_safe s = true → encode_string s = String dquote (s +:+ String dquote "").
Proof. intros Hs. unfold encode_string. now rewrite (escape_safe s Hs). Qed.

(** A member as [json.Marshal] writes it: the key, a colon, the value. *)
Lemma parse_member_tight (f : nat) (key val rest text : string)
    (acc : list (string * json)) :
  text = key +:+ String dquote (String ":" (String dquote (val +:+ String dquote rest))) →
  json_plain key = true → json_plain val = true →
  parse_members (S (S f)) (String dquote text) acc
    = match skip_space rest with
      | String "," r4 => parse_members (S f) r4 (acc ++ [(key, JStr val)])%list
      | String "}" r4 => Some (JObj (acc ++ [(key, JStr val)])%list, r4)
      | _ => None
      end.
Proof.
  intros -> Hk Hv. rewrite parse_members_key, (scan_string_plain_exact key _ Hk).
  change (skip_space (String ":" ?x)) with (String ":" x). cbv beta iota.
  change (parse_value (S f) (String dquote ?r))
    with (match scan_string (S (String.length r)) r with
          | Some (str, r') => Some (JStr str, r')
          | None => None
          end).
  rewrite (scan_string_plain_exact val _ Hv). reflexivity.
Qed.

Ltac normalize :=
  repeat first [ rewrite append_cons | rewrite append_assoc
               | progress (change (EmptyString +:+ ?x) with x) ].

Ltac next_member k v :=
  erewrite (parse_member_tight _ k v); [|reflexivity|reflexivity|assumption];
  change (skip_space (String "," ?x)) with (String "," x); cbv beta iota.

(** X24.  What [save_changes] stores, [retrieve_invoice] reads back: an
    invoice whose fields are plain ASCII text (none of the characters
    json.Marshal escapes) is decoded from its stored record as it was. *)
Theorem invoice_record_round_trip (inv : TradeChaincode.Invoice) (σ : store) :
  json_safe (TradeChaincode.InvoiceId inv) = true →
  json_safe (TradeChaincode.Amount inv) = true →
  json_safe (TradeChaincode.Currency inv) = true →
  json_safe (TradeChaincode.Supplier inv) = true →
  json_safe (TradeChaincode.Payer inv) = true →
  json_safe (TradeChaincode.DueDate inv) = true →
  json_safe (TradeChaincode.Status inv) = true →
  json_safe (TradeChaincode.Buyer inv) = true →
  json_safe (TradeChaincode.Discount inv) = true →
  json_Unmarshal (json_Marshal inv) TradeChaincode.Invoice_zero = (inv, None) ∧
  TradeChaincode.retrieve_invoice (TradeChaincode.InvoiceId inv)
      (snd (TradeChaincode.save_changes inv σ))
    = (Done (inv, None), snd (TradeChaincode.save_changes inv σ)).
Proof.
  destruct inv as [v1 v2 v3 v4 v5 v6 v7 v8 v9]. cbn [TradeChaincode.InvoiceId
    TradeChaincode.Amount TradeChaincode.Currency TradeChaincode.Supplier
    TradeChaincode.Payer TradeChaincode.DueDate TradeChaincode.Status
    TradeChaincode.Buyer TradeChaincode.Discount].
  intros S1 S2 S3 S4 S5 S6 S7 S8 S9.
  pose proof (json_safe_plain _ S1). pose proof (json_safe_plain _ S2).
  pose proof (json_safe_plain _ S3). pose proof (json_safe_plain _ S4).
  pose proof (json_safe_plain _ S5). pose proof (json_safe_plain _ S6).
  pose proof (json_safe_plain _ S7). pose proof (json_safe_plain _ S8).
  pose proof (json_safe_plain _ S9).
  assert (Hrt : json_Unmarshal (json_Marshal (TradeChaincode.Build_Invoice v1 v2 v3 v4 v5 v6 v7 v8 v9))
                  TradeChaincode.Invoice_zero
                = (TradeChaincode.Build_Invoice v1 v2 v3 v4 v5 v6 v7 v8 v9, None)).
  { unfold json_Unmarshal, json_Marshal, json_Invoice, Unmarshal, parse,
      TradeJSON.Marshal, encode_struct.
    cbn [map join fst snd TradeChaincode.InvoiceId
      TradeChaincode.Amount TradeChaincode.Currency TradeChaincode.Supplier
      TradeChaincode.Payer TradeChaincode.DueDate TradeChaincode.Status
      TradeChaincode.Buyer TradeChaincode.Discount].
    rewrite (encode_string_safe v1 S1), (encode_string_safe v2 S2),
      (encode_string_safe v3 S3), (encode_string_safe v4 S4),
      (encode_string_safe v5 S5), (encode_string_safe v6 S6),
      (encode_string_safe v7 S7), (encode_string_safe v8 S8),
      (encode_string_safe v9 S9).
    repeat match goal with
           | |- context [encode_string ?l] =>
             let x := eval vm_compute in (encode_string l) in
             change (encode_string l) with x
           end.
    normalize.
    do 12 (rewrite (length_cons_S _ _) at 1).
    rewrite parse_value_object.
    next_member "invoiceid" v1. next_member "amount" v2. next_member "currency" v3.
    next_member "supplier" v4. next_member "payer" v5. next_member "duedate" v6.
    next_member "status" v7. next_member "buyer" v8.
    erewrite (parse_member_tight _ "discount" v9); [|reflexivity|reflexivity|assumption].
    reflexivity. }
  split; [exact Hrt|].
  unfold TradeChaincode.retrieve_invoice, TradeChaincode.save_changes.
  unfold bind, ret, GetState, PutState. cbn [snd TradeChaincode.InvoiceId].
  rewrite lookup_insert_eq. change (slice (Some ?x)) with x. now rewrite Hrt.
Qed.

Lemma account_record_round_trip (acct : AccountChaincode.Account) :
  json_safe (AccountChaincode.AccountNo acct) = true →
  json_safe (AccountChaincode.LegalEntity acct) = true →
  json_safe (AccountChaincode.Currency acct) = true →
  json_safe (AccountChaincode.Balance acct) = true →
  json_Unmarshal (json_Marshal acct) AccountChaincode.Account_zero = (acct, None).
Proof.
  destruct acct as [v1 v2 v3 v4].
  cbn [AccountChaincode.AccountNo AccountChaincode.LegalEntity
       AccountChaincode.Currency AccountChaincode.Balance].
  intros S1 S2 S3 S4.
  pose proof (json_safe_plain _ S1). pose proof (json_safe_plain _ S2).
  pose proof (json_safe_plain _ S3). pose proof (json_safe_plain _ S4).
  unfold json_Unmarshal, json_Marshal, json_Account, Unmarshal, parse,
    AccountJSON.Marshal, encode_struct.
  cbn [map join fst snd AccountChaincode.AccountNo AccountChaincode.LegalEntity
       AccountChaincode.Currency AccountChaincode.Balance].
  rewrite (encode_string_safe v1 S1), (encode_string_safe v2 S2),
    (encode_string_safe v3 S3), (encode_string_safe v4 S4).
  repeat match goal with
         | |- context [encode_string ?l] =>
           let x := eval vm_compute in (encode_string l) in
           change (encode_string l) with x
         end.
  normalize.
  do 8 (rewrite (length_cons_S _ _) at 1).
  rewrite parse_value_object.
  next_member "accountno" v1. next_member "legalentity" v2. next_member "currency" v3.
  erewrite (parse_member_tight _ "balance" v4); [|reflexivity|reflexivity|assumption].
  reflexivity.
Qed.

End SafeText.

Section ReadBack.
Import AccountChaincode.
Context `{!Strconv, !Strings, !JSON (list string)}.

(** X25.  After a successful [transfer_balance] between two distinct
    accounts, each of the two stored records decodes to the record of before
    with the new balance in place (for records of plain ASCII text). *)
Theorem transfer_balance_records_read_back (σ : store) (from to amt : string)
    (rest : list string) (x a b : float64) :
  ParseFloat amt = (x, None) →
  ParseFloat (Balance (stored_account σ from)) = (a, None) →
  ParseFloat (Balance (stored_account σ to)) = (b, None) →
  flt (fsub a x) fzero = false →
  from ≠ to →
  safe_account (stored_account σ from) = true →
  safe_account (stored_account σ to) = true →
  json_safe (FormatFloat (fsub a x)) = true →
  json_safe (FormatFloat (fadd b x)) = true →
  let σ' := snd (transfer_balance (from :: to :: amt :: rest) σ) in
  fst (transfer_balance (from :: to :: amt :: rest) σ) = Done None ∧
  stored_account σ' from = set_Balance (stored_account σ from) (FormatFloat (fsub a x)) ∧
  stored_account σ' to = set_Balance (stored_account σ to) (FormatFloat (fadd b x)).
Proof.
  intros Hx Ha Hb Hok Hne SA SB SxA SxB. cbn zeta.
  rewrite (transfer_balance_run σ from to amt rest x a b Hx Ha Hb), Hok. cbn [fst snd].
  unfold safe_account in SA, SB.
  apply andb_prop in SA as [SA SA3]. apply andb_prop in SA as [SA1 SA2].
  apply andb_prop in SB as [SB SB3]. apply andb_prop in SB as [SB1 SB2].
  split; [reflexivity|]. split.
  - unfold stored_account at 1. rewrite lookup_insert_ne by congruence.
    rewrite lookup_insert_eq. change (slice (Some ?v)) with v.
    now rewrite account_record_round_trip.
  - unfold stored_account at 1. rewrite lookup_insert_eq. change (slice (Some ?v)) with v.
    now rewrite account_record_round_trip.
Qed.

End ReadBack.

(** ** Runs of the further properties *)

Lemma start_init_stores_canonical_integer_witness :
  StartChaincode.Init "init" ["+0042"] ∅ = (Done None, <["testKey" := "42"]> ∅) ∧
  StartChaincode.Init "init" ["4 2"] ∅ = (Fail "Expecting integer value for asset holding", ∅) ∧
  StartChaincode.Init "init" ["9223372036854775808"] ∅
    = (Fail "Expecting integer value for asset holding", ∅).
Proof.
  destruct (start_init_stores_canonical_integer "init" "+0042" ∅) as (Hok & _).
  destruct (Hok 42%Z) as (Hrun & _); [vm_compute; reflexivity|].
  split; [rewrite Hrun; vm_compute; reflexivity|].
  split.
  - apply (start_init_stores_canonical_integer "init" "4 2" ∅). vm_compute. discriminate.
  - apply (start_init_stores_canonical_integer "init" "9223372036854775808" ∅).
    vm_compute. discriminate.
Defined.

Lemma delete_cuts_first_index_entry_witness :
  Runs.accounts_ledger !! AccountChaincode.accountIndexStr = Some (js "['A001','B001']") ∧
  AccountChaincode.Delete ["A001"] Runs.accounts_ledger
    = (Done None, <[AccountChaincode.accountIndexStr := js "['B001']"]>
                    (delete "A001" Runs.accounts_ledger)).
Proof.
  split; [vm_compute; reflexivity|].
  destruct (delete_cuts_first_index_entry Runs.accounts_ledger "A001" ["A001"; "B001"])
    as (l' & Hrun & _ & _ & _ & Hin & _).
  - discriminate.
  - vm_compute. reflexivity.
  - destruct (Hin (list_elem_of_here _ _)) as (l1 & l2 & Hl & Hn & ->).
    destruct l1 as [|a l1].
    + injection Hl as <-. exact Hrun.
    + injection Hl as <- _. exfalso. apply Hn. apply list_elem_of_here.
Defined.

Lemma transfer_needs_both_accounts_witness :
  AccountChaincode.transfer_balance ["A001"; "Z999"; "1"] Runs.scenario_ledger
    = (Fail (GoStrconv.syntax_error ""), Runs.scenario_ledger).
Proof.
  destruct (transfer_needs_both_accounts Runs.scenario_ledger "A001" "Z999" "1" []
              (fst (ParseFloat "")) (GoStrconv.syntax_error "") (Some GoJSON.syntax_error))
    as ((e & He) & _).
  - vm_compute. reflexivity.
  - vm_compute. reflexivity.
  - right. vm_compute. reflexivity.
  - rewrite He. f_equal. f_equal.
    assert (Hf : fst (AccountChaincode.transfer_balance ["A001"; "Z999"; "1"] Runs.scenario_ledger)
                 = Fail (GoStrconv.syntax_error "")) by (vm_compute; reflexivity).
    rewrite He in Hf. now injection Hf.
Defined.

Lemma start_transfer_credits_source_witness :
  StartChaincode.transfer ["alice"; "bob"; "3"] Runs.amounts_ledger
    = (Done None, <["alice" := "1E+01"]> Runs.amounts_ledger) ∧
  snd (StartChaincode.transfer ["alice"; "bob"; "3"] Runs.amounts_ledger) !! "bob" = Some "7E+00".
Proof.
  destruct (start_transfer_credits_source Runs.amounts_ledger "alice" "bob" "3" []
              (fst (ParseFloat "3")) (fst (ParseFloat "5E+00")) (fst (ParseFloat "7E+00")))
    as (Hrun & Hto); try (vm_compute; reflexivity).
  split.
  - rewrite Hrun. vm_compute. reflexivity.
  - etrans; [apply Hto; discriminate|]. vm_compute. reflexivity.
Defined.

Lemma learn_transfer_pair_update_witness :
  let run := LearnChaincode.transfer ["alice"; "bob"; "3"] Runs.amounts_ledger in
  fst run = Done None ∧ snd run !! "alice" = Some "2E+00" ∧ snd run !! "bob" = Some "1E+01".
Proof.
  cbv zeta.
  destruct (learn_transfer_pair_update Runs.amounts_ledger "alice" "bob" "3"
              (fst (ParseFloat "3")) (fst (ParseFloat "5E+00")) (fst (ParseFloat "7E+00")))
    as (Hrun & Hto & Hfrom & _); try (vm_compute; reflexivity).
  split; [exact Hrun|]. split.
  - etrans; [apply Hfrom; discriminate|]. vm_compute. reflexivity.
  - etrans; [apply Hto|]. vm_compute. reflexivity.
Defined.

Lemma account_init_keeps_records_witness :
  let run := AccountChaincode.Init "init" ["0"] Runs.accounts_ledger in
  fst run = Done None ∧
  snd run !! AccountChaincode.accountIndexStr = Some "null" ∧
  AccountChaincode.init_account ["A001"; "Eve"; "EUR"; "1"] (snd run)
    = (Fail "This account arleady exists", snd run).
Proof.
  cbv zeta.
  destruct (account_init_keeps_records Runs.accounts_ledger "init" "0" 0%Z)
    as (Hrun & Hidx & _ & _ & Hblock); [vm_compute; reflexivity|].
  split; [exact Hrun|]. split; [exact Hidx|].
  apply (Hblock "A001" "Eve" "EUR" "1" (fst (ParseFloat "1")));
    [discriminate|discriminate|vm_compute; reflexivity|discriminate|discriminate
    |discriminate|discriminate|vm_compute; reflexivity].
Defined.

Lemma get_invoices_lists_the_callers_invoices_witness :
  TradeChaincode.get_invoices ["carol"] Runs.offers_ledger
    = (Done (Some "[]"), Runs.offers_ledger) ∧
  TradeChaincode.get_invoices ["bob"] Runs.offers_ledger
    = (Done (Some (json_array [Runs.offers_ledger !!! "INV1"; Runs.offers_ledger !!! "INV2"])),
       Runs.offers_ledger).
Proof.
  split.
  - destruct (get_invoices_lists_the_callers_invoices (H := Runs.bare_certificate)
                Runs.offers_ledger "carol" []
                {| TradeChaincode.Invoices := ["INV1"; "INV2"] |}
                [stored_invoice Runs.offers_ledger "INV1";
                 stored_invoice Runs.offers_ledger "INV2"]) as (Hrun & _).
    + vm_compute. reflexivity.
    + repeat constructor.
    + rewrite Hrun. vm_compute. reflexivity.
  - destruct (get_invoices_lists_the_callers_invoices (H := Runs.bare_certificate)
                Runs.offers_ledger "bob" []
                {| TradeChaincode.Invoices := ["INV1"; "INV2"] |}
                [stored_invoice Runs.offers_ledger "INV1";
                 stored_invoice Runs.offers_ledger "INV2"]) as (Hrun & _).
    + vm_compute. reflexivity.
    + repeat constructor.
    + rewrite Hrun. vm_compute. reflexivity.
Defined.

Lemma offer_then_accept_witness :
  let σ1 := snd (TradeChaincode.offer_trade ["INV1"; "5.00"; "alice"] Runs.trade_ledger) in
  let σ2 := snd (TradeChaincode.accept_trade ["INV1"; "carol"] σ1) in
  σ1 !! "INV1" = Some (Runs.invoice_text "1" "UNDEFINED" "5.00") ∧
  σ2 !! "INV1" = Some (Runs.invoice_text "2" "carol" "5.00").
Proof.
  cbv zeta.
  destruct (offer_then_accept Runs.trade_ledger
              "INV1" "5.00" "carol" (stored_invoice Runs.trade_ledger "INV1") [] [])
    as (_ & _ & Hrec & _);
    [vm_compute; reflexivity|reflexivity|vm_compute; reflexivity|reflexivity|discriminate|].
  split; [vm_compute; reflexivity|].
  etrans; [exact Hrec|]. vm_compute. reflexivity.
Defined.

Lemma early_get_invoices_lists_supplier_and_buyer_witness :
  InvoiceChaincode.Query (H := Runs.alice_certificate) "get_invoices" [] Runs.early_ledger
    = (Done (Some (json_array [json_Marshal Runs.early_invoice]), None), Runs.early_ledger).
Proof.
  destruct (early_get_invoices_lists_supplier_and_buyer (H := Runs.alice_certificate)
              Runs.early_ledger
              {| InvoiceChaincode.Invoices := ["INV1"; "INV2"] |}
              [Runs.early_invoice; Runs.other_invoice]) as (_ & Hq).
  - vm_compute. reflexivity.
  - repeat constructor; vm_compute; reflexivity.
  - rewrite Hq. vm_compute. reflexivity.
Defined.

Lemma account_str_decodes_witness :
  json_Unmarshal (AccountChaincode.account_str "A001" "alice" "USD" "5E+02")
                 AccountChaincode.Account_zero
    = ({| AccountChaincode.AccountNo := "A001"; AccountChaincode.LegalEntity := "alice";
          AccountChaincode.Currency := "USD"; AccountChaincode.Balance := "5E+02" |}, None).
Proof. apply (account_str_decodes "A001" "alice" "USD" "5E+02"); reflexivity. Defined.

Lemma init_account_creates_once_witness :
  let σ1 := snd (AccountChaincode.init_account ["C003"; "Carol"; "USD"; "12.5"]
                   Runs.scenario_ledger) in
  AccountChaincode.Balance (stored_account σ1 "C003") = "1.25E+01" ∧
  AccountChaincode.init_account ["C003"; "Mallory"; "EUR"; "1000000"] σ1
    = (Fail "This account arleady exists", σ1).
Proof.
  cbv zeta.
  destruct (init_account_creates_once Runs.scenario_ledger "C003" "Carol" "USD" "12.5"
              (fst (ParseFloat "12.5")))
    as (_ & Hrec & Hblock);
    [discriminate|discriminate|discriminate|discriminate|vm_compute; reflexivity
    |vm_compute; discriminate|discriminate
    |vm_compute; reflexivity|vm_compute; reflexivity|vm_compute; reflexivity
    |vm_compute; reflexivity|].
  split.
  - rewrite Hrec. vm_compute. reflexivity.
  - apply (Hblock "Mallory" "EUR" "1000000" (fst (ParseFloat "1000000")));
      [discriminate|discriminate|discriminate|vm_compute; reflexivity].
Defined.

Lemma invoice_record_round_trip_witness :
  TradeChaincode.retrieve_invoice "INV1"
      (snd (TradeChaincode.save_changes (stored_invoice Runs.trade_ledger "INV1") ∅))
    = (Done (stored_invoice Runs.trade_ledger "INV1", None),
       snd (TradeChaincode.save_changes (stored_invoice Runs.trade_ledger "INV1") ∅)).
Proof.
  destruct (invoice_record_round_trip (stored_invoice Runs.trade_ledger "INV1") ∅)
    as (_ & Hrun); [vm_compute; reflexivity..|].
  exact Hrun.
Defined.

Lemma transfer_balance_records_read_back_witness :
  let σ' := snd (AccountChaincode.transfer_balance ["A001"; "B001"; "200.00"]
                   Runs.scenario_ledger) in
  stored_account σ' "A001"
    = {| AccountChaincode.AccountNo := "A001"; AccountChaincode.LegalEntity := "alice";
         AccountChaincode.Currency := "USD"; AccountChaincode.Balance := "3E+02" |} ∧
  stored_account σ' "B001"
    = {| AccountChaincode.AccountNo := "B001"; AccountChaincode.LegalEntity := "bob";
         AccountChaincode.Currency := "USD"; AccountChaincode.Balance := "2E+02" |}.
Proof.
  cbv zeta.
  destruct (transfer_balance_records_read_back Runs.scenario_ledger "A001" "B001" "200.00" []
              (fst (ParseFloat "200.00")) (fst (ParseFloat "5E+02")) (fst (ParseFloat "0E+00")))
    as (_ & HA & HB);
    [vm_compute; reflexivity|vm_compute; reflexivity|vm_compute; reflexivity
    |vm_compute; reflexivity|discriminate|vm_compute; reflexivity|vm_compute; reflexivity
    |vm_compute; reflexivity|vm_compute; reflexivity|].
  split.
  - etrans; [exact HA|]. vm_compute. reflexivity.
  - etrans; [exact HB|]. vm_compute. reflexivity.
Defined.

Lemma early_init_then_caller_data_witness :
  InvoiceChaincode.get_caller_data (H := Runs.alice_certificate)
      (snd (InvoiceChaincode.Init "init" ["alice"; "buyer"; "bob"; "payer"; "alice"; "supplier"] ∅))
    = (Done ("alice", "supplier"),
       snd (InvoiceChaincode.Init "init" ["alice"; "buyer"; "bob"; "payer"; "alice"; "supplier"] ∅)).
Proof.
  destruct (early_init_then_caller_data (H := Runs.alice_certificate) "init"
              [("alice", "buyer"); ("bob", "payer"); ("alice", "supplier")] ∅)
    as (_ & Hc & _).
  apply (Hc [("alice", "buyer"); ("bob", "payer")] "supplier" []).
  - reflexivity.
  - apply not_elem_of_nil.
Defined.

